(** * Verification of the product upload core of product_upload

    Shallow embedding of
    - [ProductUploader._validate_product_data], [upload_single_product],
      [upload_products] and [upload_products_async]
      (src/src/core/product_uploader.py);
    - [WeChatShopAPIClient._refresh_access_token], [_record_operation] and the
      history appends of [add_product] (src/src/api/wechat_shop_api.py).

    Python values are modelled by the inductive [pyval]; a Python dict is an
    association list (first binding wins, as keys are unique).  Stateful code
    runs in a small state / trace / exception monad [M].  The outside world
    (client construction, the remote [add_product] call, [float] on strings)
    is an explicit [World] record of oracles indexed by call counters. *)

From Stdlib Require Import List String Ascii Bool Arith Lia ZArith QArith.
Import ListNotations.
Open Scope string_scope.
Open Scope list_scope.
Open Scope nat_scope.

(** ** Python values *)

Local Set Warnings "-register-all".

Inductive pyval : Type :=
| PNone
| PBool (b : bool)
| PInt (z : Z)
| PStr (s : string)
| PList (l : list pyval)
| PDict (d : list (string * pyval)).

Definition dict := list (string * pyval).

(** [k in d] *)
Definition has_key (d : dict) (k : string) : bool :=
  existsb (fun kv => String.eqb (fst kv) k) d.

(** [d.get(k, default)] *)
Definition dict_get (d : dict) (k : string) (default : pyval) : pyval :=
  match find (fun kv => String.eqb (fst kv) k) d with
  | Some (_, v) => v
  | None => default
  end.

(** Python truthiness ([bool(v)]). *)
Definition truthy (v : pyval) : bool :=
  match v with
  | PNone => false
  | PBool b => b
  | PInt z => negb (Z.eqb z 0)
  | PStr s => negb (String.eqb s "")
  | PList l => negb (Nat.eqb (List.length l) 0)
  | PDict d => negb (Nat.eqb (List.length d) 0)
  end.

(** [len(v)]: [None] when Python raises [TypeError]. *)
Definition pylen (v : pyval) : option nat :=
  match v with
  | PStr s => Some (String.length s)
  | PList l => Some (List.length l)
  | PDict d => Some (List.length d)
  | _ => None
  end.

(** [v == 0] ([False == 0] holds in Python). *)
Definition py_eq_zero (v : pyval) : bool :=
  match v with
  | PInt z => Z.eqb z 0
  | PBool b => negb b
  | _ => false
  end.

(** [v in [c1; ...; cn]] for a list of int constants. *)
Definition py_in_ints (v : pyval) (cs : list Z) : bool :=
  match v with
  | PInt z => existsb (Z.eqb z) cs
  | PBool b => existsb (Z.eqb (if b then 1 else 0)) cs
  | _ => false
  end.

(** Exceptions that can escape or be caught in the modelled code. *)
Inductive py_exc : Type :=
| KeyError (k : string)
| TypeError
| ValueError
| AttributeError
| NameError (var : string)   (* UnboundLocalError is a subclass of NameError *)
| RecursionError
| Raised (msg : string).      (* an exception raised by a collaborator *)

(** [str(e)] *)
Definition exc_str (e : py_exc) : string :=
  match e with
  | KeyError k => k
  | TypeError => "TypeError"
  | ValueError => "ValueError"
  | AttributeError => "'NoneType' object has no attribute 'add_product'"
  | NameError v =>
      String.append "local variable '" (String.append v "' referenced before assignment")
  | RecursionError => "maximum recursion depth exceeded"
  | Raised m => m
  end.

(** [d[k]] *)
Definition getitem (d : dict) (k : string) : py_exc + pyval :=
  if has_key d k then inr (dict_get d k PNone) else inl (KeyError k).

(** ** The outside world and the uploader configuration *)

(** Outcome of [self._initialize_api_client()]: the client is built, the
    failure is swallowed ([use_sandbox] set), or the failure is re-raised. *)
Inductive init_res : Type :=
| InitOk
| InitSilent
| InitRaise (e : py_exc).

(** Outcome of [self.api_client.add_product(product)]. *)
Inductive add_res : Type :=
| AddRet (response : pyval)
| AddRaise (e : py_exc).

Record World : Type := {
  init_outcome : nat -> init_res;     (* n-th call of _initialize_api_client *)
  add_outcome : nat -> add_res;       (* n-th call of add_product *)
  float_str_ok : string -> bool       (* float(s) succeeds on the string s *)
}.

(** [self.config['upload']] after [_validate_config]. *)
Record Config : Type := {
  max_retries : nat;
  batch_size : nat;
  request_interval : Q;
  max_concurrency : nat
}.

(** ** The state / trace / exception monad *)

Record St : Type := {
  api_client : bool;     (* self.api_client is not None *)
  n_init : nat;          (* calls of _initialize_api_client so far *)
  n_add : nat;           (* calls of add_product so far *)
  clock : Q              (* time.time(), advanced by time.sleep *)
}.

(** Observable events, in the order they happen. *)
Inductive event : Type :=
| EInvoke (retry_count : nat)  (* entry of upload_single_product *)
| EInit                        (* self._initialize_api_client() *)
| ECall                        (* self.api_client.add_product(product) *)
| EWait (secs : nat)           (* time.sleep(wait_time) before a retry *)
| EItem (index : nat)          (* start of item [index] in upload_products *)
| EPace (secs : Q).            (* time.sleep(request_interval) *)

Inductive outcome (A : Type) : Type :=
| Ret (a : A)
| Raise (e : py_exc).
Arguments Ret {A} a.
Arguments Raise {A} e.

Definition M (A : Type) : Type := St -> St * list event * outcome A.

Definition mret {A} (a : A) : M A := fun st => (st, [], Ret a).

Definition mraise {A} (e : py_exc) : M A := fun st => (st, [], Raise e).

Definition mbind {A B} (m : M A) (k : A -> M B) : M B :=
  fun st =>
    match m st with
    | (st1, ev1, Ret a) =>
        let '(st2, ev2, o) := k a st1 in (st2, ev1 ++ ev2, o)
    | (st1, ev1, Raise e) => (st1, ev1, Raise e)
    end.

(** [try: m except Exception as e: h(e) else: k(a)]: exceptions of [m] go to
    [h]; those of [h] and [k] propagate. *)
Definition mtry {A B} (m : M A) (h : py_exc -> M B) (k : A -> M B) : M B :=
  fun st =>
    match m st with
    | (st1, ev1, Ret a) =>
        let '(st2, ev2, o) := k a st1 in (st2, ev1 ++ ev2, o)
    | (st1, ev1, Raise e) =>
        let '(st2, ev2, o) := h e st1 in (st2, ev1 ++ ev2, o)
    end.

Definition emit (e : event) : M unit := fun st => (st, [e], Ret tt).

Definition get_st : M St := fun st => (st, [], Ret st).

Definition put_st (st' : St) : M unit := fun _ => (st', [], Ret tt).

Definition lift {A} (r : py_exc + A) : M A :=
  match r with inl e => mraise e | inr a => mret a end.

Notation "x <- m ;; k" := (mbind m (fun x => k))
  (at level 61, m at next level, right associativity).
Notation "' p <- m ;; k" := (mbind m (fun x => match x with p => k end))
  (at level 61, p pattern, m at next level, right associativity).
Notation "m ;;; k" := (mbind m (fun _ => k))
  (at level 61, right associativity).

Definition sleep (secs : Q) : M unit :=
  fun st => ({| api_client := api_client st; n_init := n_init st;
                n_add := n_add st; clock := Qplus (clock st) secs |}, [], Ret tt).

Section Uploader.

Variable w : World.
Variable cfg : Config.

(** ** [ProductUploader._validate_product_data]

    [Some b]: returns [b]; [None]: raises [TypeError] (from [len]). *)

(** [float(v)] succeeds ([ValueError] and [TypeError] are caught). *)
Definition float_ok (v : pyval) : bool :=
  match v with
  | PInt _ | PBool _ => true
  | PStr s => float_str_ok w s
  | _ => false
  end.

Definition required_fields : list string := ["title"; "head_imgs"; "price"; "cats"].

Definition _validate_product_data (product_data : dict) : option bool :=
  if negb (forallb (fun field => has_key product_data field
                                 && truthy (dict_get product_data field PNone))
                   required_fields)
  then Some false
  else match pylen (dict_get product_data "head_imgs" (PList [])) with
       | None => None
       | Some 0 => Some false
       | Some _ =>
           if has_key product_data "price"
           then (if float_ok (dict_get product_data "price" PNone)
                 then Some true else Some false)
           else Some true
       end.

(** ** [ProductUploader.upload_single_product] *)

Definition bump_init (st : St) : St :=
  {| api_client := api_client st; n_init := S (n_init st);
     n_add := n_add st; clock := clock st |}.

Definition bump_add (st : St) : St :=
  {| api_client := api_client st; n_init := n_init st;
     n_add := S (n_add st); clock := clock st |}.

Definition set_client (st : St) : St :=
  {| api_client := true; n_init := n_init st;
     n_add := n_add st; clock := clock st |}.

(** [if not self.api_client: self._initialize_api_client()] *)
Definition init_part : M unit :=
  st <- get_st ;;
  if api_client st then mret tt
  else emit EInit ;;;
       match init_outcome w (n_init st) with
       | InitOk => put_st (set_client (bump_init st))
       | InitSilent => put_st (bump_init st)
       | InitRaise e => put_st (bump_init st) ;;; mraise e
       end.

(** [self.api_client.add_product(product)], with a client present. *)
Definition call_add_product : M add_res :=
  st <- get_st ;;
  put_st (bump_add st) ;;;
  emit ECall ;;;
  mret (add_outcome w (n_add st)).

(** [time.sleep(wait_time)] before a retry. *)
Definition sleep_wait (wait_time : nat) : M unit :=
  emit (EWait wait_time) ;;; sleep (inject_Z (Z.of_nat wait_time)).

Definition non_retryable_codes : list Z := [400; 401; 403]%Z.

(** [response or {'error': '未知错误'}] *)
Definition response_or_default (response : pyval) : pyval :=
  if truthy response then response else PDict [("error", PStr "未知错误")].

(** The recursion of [upload_single_product] on itself.  [fuel] stands for
    Python's recursion limit; every recursive call happens under
    [retry_count < max_retries], so [S max_retries] is never exhausted.
    The [try] block of the source is split at the assignment of the local
    [max_retries]: an exception before it reaches the handler with the local
    still unbound ([None]), one after it with the local bound. *)
Fixpoint usp (fuel : nat) (retry_count : nat) (product : dict)
  : M (bool * pyval) :=
  match fuel with
  | O => mraise RecursionError
  | S fuel' =>
    emit (EInvoke retry_count) ;;;
    match _validate_product_data product with
    | None => mraise TypeError
    | Some false => mret (false, PDict [("error", PStr "商品数据验证失败")])
    | Some true =>
      let handler (max_retries_local : option nat) (e : py_exc)
          : M (bool * pyval) :=
        match max_retries_local with
        | None => mraise (NameError "max_retries")
        | Some mr =>
            if retry_count <? mr then
              sleep_wait ((retry_count + 1) * 2) ;;;
              usp fuel' (S retry_count) product
            else mret (false, PDict [("error", PStr (exc_str e))])
        end in
      mtry init_part (handler None) (fun _ =>
        let mr := max_retries cfg in
        mtry
          (st <- get_st ;;
           if negb (api_client st) then mraise AttributeError
           else
             r <- call_add_product ;;
             match r with
             | AddRaise e => mraise e
             | AddRet response =>
                 match response with
                 | PDict resp =>
                     if truthy response then
                       if py_eq_zero (dict_get resp "errcode" PNone)
                       then mret (true, response)
                       else
                         let error_code := dict_get resp "errcode" PNone in
                         if (retry_count <? mr)
                            && negb (py_in_ints error_code non_retryable_codes)
                         then sleep_wait ((retry_count + 1) * 2) ;;;
                              usp fuel' (S retry_count) product
                         else mret (false, response_or_default response)
                     else mret (false, response_or_default response)
                 | _ => mret (false, response_or_default response)
                 end
             end)
          (handler (Some mr)) mret)
    end
  end.

Definition upload_single_product (product : dict) : M (bool * pyval) :=
  usp (S (max_retries cfg)) 0 product.

(** ** [ProductUploader.upload_products] (sequential mode) *)

(** One entry of [results['details']] ([timestamp] is not modelled). *)
Record detail : Type := {
  index : nat;
  title : pyval;
  out_product_id : pyval;
  success : bool;
  response : pyval
}.

(** The returned [results] dict; [duration] and [success_rate] are [None]
    when the key is absent.  [round(..., 2)] of the float values is not
    modelled: [duration] is the elapsed clock and [success_rate] is exact. *)
Record batch_result : Type := {
  r_total : nat;
  r_success : nat;
  r_failed : nat;
  r_details : list detail;
  r_duration : option Q;
  r_success_rate : option Q
}.

(** [{'total': 0, 'success': 0, 'failed': 0, 'details': []}] *)
Definition empty_result : batch_result :=
  {| r_total := 0; r_success := 0; r_failed := 0; r_details := [];
     r_duration := None; r_success_rate := None |}.

(** [results['details'].append(detail)] and the success/failed counters. *)
Definition record_detail (results : batch_result) (d : detail) : batch_result :=
  {| r_total := r_total results;
     r_success := if success d then S (r_success results) else r_success results;
     r_failed := if success d then r_failed results else S (r_failed results);
     r_details := r_details results ++ [d];
     r_duration := r_duration results;
     r_success_rate := r_success_rate results |}.

(** [results['duration']] and [results['success_rate']]. *)
Definition finish (results : batch_result) (elapsed : Q) : batch_result :=
  {| r_total := r_total results;
     r_success := r_success results;
     r_failed := r_failed results;
     r_details := r_details results;
     r_duration := Some elapsed;
     r_success_rate :=
       Some (if 0 <? r_total results
             then Qmult (Qdiv (inject_Z (Z.of_nat (r_success results)))
                              (inject_Z (Z.of_nat (r_total results))))
                        (inject_Z 100)
             else inject_Z 0) |}.

Definition mk_detail (current_index : nat) (product : dict) (t : pyval)
  (ok : bool) (resp : pyval) : detail :=
  {| index := current_index; title := t;
     out_product_id := dict_get product "out_product_id" (PStr "");
     success := ok; response := resp |}.

(** The inner loop [for j, product in enumerate(batch)] of the batch that
    starts at [i]; [blen] is [len(batch)]. *)
Fixpoint upload_batch_items (i j blen : nat) (batch : list dict)
  (results : batch_result) : M batch_result :=
  match batch with
  | [] => mret results
  | product :: rest =>
      let current_index := i + j + 1 in
      _ <- lift (getitem product "title") ;;
      emit (EItem current_index) ;;;
      '(ok, resp) <- upload_single_product product ;;
      t <- lift (getitem product "title") ;;
      let results' := record_detail results (mk_detail current_index product t ok resp) in
      (if j <? blen - 1
       then emit (EPace (request_interval cfg)) ;;; sleep (request_interval cfg)
       else mret tt) ;;;
      upload_batch_items i (S j) blen rest results'
  end.

(** The outer loop [for i in range(0, len(products), batch_size)]; it makes
    at most [len(products)] iterations when [batch_size >= 1], which is the
    fuel given below. *)
Fixpoint upload_batches (fuel i : nat) (products : list dict)
  (results : batch_result) : M batch_result :=
  match fuel with
  | O => mret results
  | S fuel' =>
      if i <? List.length products then
        let batch := firstn (batch_size cfg) (skipn i products) in
        results' <- upload_batch_items i 0 (List.length batch) batch results ;;
        upload_batches fuel' (i + batch_size cfg) products results'
      else mret results
  end.

Definition upload_products (products : list dict) : M batch_result :=
  match products with
  | [] => mret empty_result
  | _ :: _ =>
      let results :=
        {| r_total := List.length products; r_success := 0; r_failed := 0;
           r_details := []; r_duration := None; r_success_rate := None |} in
      st0 <- get_st ;;
      (* range() with a zero step raises ValueError *)
      (if batch_size cfg =? 0 then mraise ValueError else mret tt) ;;;
      results' <- upload_batches (List.length products) 0 products results ;;
      st1 <- get_st ;;
      mret (finish results' (Qminus (clock st1) (clock st0)))
  end.

End Uploader.

(** ** [ProductUploader.upload_products_async]

    Every task runs [upload_single_product] in a worker thread; the threads
    interleave on the shared client, so the value the [i]-th call returned
    (or the exception it raised) is left abstract as [task_result i].
    [asyncio.gather] returns the task values in task order; when tasks
    raise, the one modelled is the first in task order. *)

Fixpoint gather {A} (tasks : list (outcome A)) : outcome (list A) :=
  match tasks with
  | [] => Ret []
  | Raise e :: _ => Raise e
  | Ret a :: rest =>
      match gather rest with
      | Ret l => Ret (a :: l)
      | Raise e => Raise e
      end
  end.

(** [upload_with_semaphore(product, index)] *)
Definition upload_with_semaphore (task_result : nat -> outcome (bool * pyval))
  (product : dict) (index : nat) : outcome detail :=
  match getitem product "title" with
  | inl e => Raise e
  | inr _ =>
      match task_result index with
      | Raise e => Raise e
      | Ret (ok, resp) =>
          match getitem product "title" with
          | inl e => Raise e
          | inr t => Ret (mk_detail index product t ok resp)
          end
      end
  end.

Definition upload_products_async (task_result : nat -> outcome (bool * pyval))
  (elapsed : Q) (products : list dict) : outcome batch_result :=
  match products with
  | [] => Ret empty_result
  | _ :: _ =>
      let results :=
        {| r_total := List.length products; r_success := 0; r_failed := 0;
           r_details := []; r_duration := None; r_success_rate := None |} in
      let tasks :=
        map (fun ip => upload_with_semaphore task_result (snd ip) (S (fst ip)))
            (combine (seq 0 (List.length products)) products) in
      match gather tasks with
      | Raise e => Raise e
      | Ret details => Ret (finish (fold_left record_detail details results) elapsed)
      end
  end.

(** ** [WeChatShopAPIClient._refresh_access_token]

    Instants are whole seconds ([time.time()] read as an integer).  The
    method is split at the blocking token request [self.session.get]: the
    check phase runs up to the request, the finish phase handles the
    response.  Run back to back they are the sequential method; in the
    threaded uploader other threads may run between the two phases, since no
    lock is taken. *)
Module Token.

Record TokState : Type := {
  access_token : string;
  token_expire_time : Z
}.

(** The response of the token endpoint: a JSON body with or without an
    [access_token] key (and an optional [expires_in]), or an exception
    ([raise_for_status], connection error, bad JSON). *)
Inductive auth_res : Type :=
| AuthJson (token : option string) (expires_in : option Z)
| AuthExc.

(** Check phase: [Some r] when the method returns [r] without a request,
    [None] when it issues the token request.  [config_ok] is
    [self._check_config()]. *)
Definition refresh_check (config_ok : bool) (now : Z) (st : TokState)
  : option (option string) :=
  if negb (String.eqb (access_token st) "") && (now <? token_expire_time st)%Z
  then Some (Some (access_token st))
  else if negb config_ok then Some None
  else None.

(** Finish phase, at instant [now] after the response arrived. *)
Definition refresh_finish (now : Z) (auth : auth_res) (st : TokState)
  : option string * TokState :=
  match auth with
  | AuthExc => (None, st)
  | AuthJson None _ => (None, st)
  | AuthJson (Some tok) expires_in =>
      let e := match expires_in with Some e => e | None => 7200%Z end in
      (Some tok, {| access_token := tok;
                    token_expire_time := (now + e - 1200)%Z |})
  end.

(** The sequential method: result, new state, and whether the token
    endpoint was called. *)
Definition _refresh_access_token (config_ok : bool) (now_check now_resp : Z)
  (auth : auth_res) (st : TokState) : option string * TokState * bool :=
  match refresh_check config_ok now_check st with
  | Some r => (r, st, false)
  | None => let '(r, st') := refresh_finish now_resp auth st in (r, st', true)
  end.

(** *** Threads calling [get_access_token] on one shared client *)

Inductive thread : Type :=
| TIdle                       (* not yet checked the cache *)
| TWaiting                    (* token request in flight *)
| TDone (r : option string).  (* returned *)

Record Sys : Type := {
  tok : TokState;
  calls : nat;                (* requests sent to the token endpoint *)
  threads : list thread
}.

Section Threads.

Variable config_ok : bool.
Variable now : Z.                  (* the callers are simultaneous *)
Variable auth : nat -> auth_res.   (* response to the request of thread t *)

Definition set_thread (ts : list thread) (t : nat) (x : thread) : list thread :=
  firstn t ts ++ x :: skipn (S t) ts.

(** One atomic step of thread [t]. *)
Definition step (s : Sys) (t : nat) : Sys :=
  match nth_error (threads s) t with
  | Some TIdle =>
      match refresh_check config_ok now (tok s) with
      | Some r => {| tok := tok s; calls := calls s;
                     threads := set_thread (threads s) t (TDone r) |}
      | None => {| tok := tok s; calls := S (calls s);
                   threads := set_thread (threads s) t TWaiting |}
      end
  | Some TWaiting =>
      let '(r, st') := refresh_finish now (auth t) (tok s) in
      {| tok := st'; calls := calls s;
         threads := set_thread (threads s) t (TDone r) |}
  | _ => s
  end.

(** Run a schedule: the list of thread ids in the order they step. *)
Definition run (sched : list nat) (s : Sys) : Sys := fold_left step sched s.

End Threads.

(** [k] fresh callers on a shared token state. *)
Definition start (st : TokState) (k : nat) : Sys :=
  {| tok := st; calls := 0; threads := repeat TIdle k |}.

End Token.

(** ** The operation history of [WeChatShopAPIClient] *)
Module History.

Inductive hentry : Type :=
| HRecord (operation_type status : string)  (* by _record_operation *)
| HAppend (operation : string).             (* direct operation_history.append *)

(** [_record_operation]: append, then [pop(0)] when over 1000 entries. *)
Definition _record_operation (h : list hentry) (e : hentry) : list hentry :=
  let h' := h ++ [e] in
  if 1000 <? List.length h' then tl h' else h'.

(** How [_api_request] ended, which fixes the records it made. *)
Inductive api_req_res : Type :=
| ReqNoToken          (* no access_token: returns before any record *)
| ReqSuccess
| ReqApiError
| ReqException        (* non-network exception, or network retry failed *)
| ReqRetrySuccess.    (* network exception, then the single retry succeeded *)

Definition _api_request (api_path : string) (r : api_req_res) (h : list hentry)
  : list hentry :=
  match r with
  | ReqNoToken => h
  | ReqSuccess => _record_operation h (HRecord api_path "success")
  | ReqApiError => _record_operation h (HRecord api_path "error")
  | ReqException => _record_operation h (HRecord api_path "exception")
  | ReqRetrySuccess =>
      _record_operation (_record_operation h (HRecord api_path "exception"))
                        (HRecord api_path "success")
  end.

(** [add_product]: [fields_present] is the check of
    [WECHAT_SHOP_REQUIRED_FIELDS]; the request is followed by an uncapped
    [self.operation_history.append]; [add_path] is
    [self.api_paths['add_product']], read from the configuration. *)
Definition add_product (add_path : string) (fields_present : bool)
  (r : api_req_res) (h : list hentry) : list hentry :=
  if negb fields_present then h
  else _api_request add_path r h ++ [HAppend "add_product"].

End History.

(** ** Observations on traces *)

(** Number of [add_product] calls in a trace. *)
Fixpoint count_calls (ev : list event) : nat :=
  match ev with
  | [] => 0
  | ECall :: rest => S (count_calls rest)
  | _ :: rest => count_calls rest
  end.

(** A response that [upload_single_product] retries: [add_product] raised, or
    it returned a non-empty dict whose [errcode] is neither 0 nor one of
    [non_retryable_codes]. *)
Definition retryable (a : add_res) : bool :=
  match a with
  | AddRaise _ => true
  | AddRet (PDict d) =>
      truthy (PDict d)
      && negb (py_eq_zero (dict_get d "errcode" PNone))
      && negb (py_in_ints (dict_get d "errcode" PNone) non_retryable_codes)
  | AddRet _ => false
  end.

(** Invocations [r .. m]: one call each, and a wait of [(k + 1) * 2]
    seconds after every invocation [k < m]. *)
Definition retry_trace_from (r m : nat) : list event :=
  flat_map (fun k => [EInvoke k; ECall] ++
                     (if k <? m then [EWait ((k + 1) * 2)] else []))
           (seq r (S m - r)).

Definition retry_trace (m : nat) : list event := retry_trace_from 0 m.

(** The pacing sleeps of a trace, each paired with the index of the item
    last started before it. *)
Fixpoint pace_points_from (cur : nat) (ev : list event) : list (nat * Q) :=
  match ev with
  | [] => []
  | EItem k :: rest => pace_points_from k rest
  | EPace q :: rest => (cur, q) :: pace_points_from cur rest
  | _ :: rest => pace_points_from cur rest
  end.

Definition pace_points (ev : list event) : list (nat * Q) :=
  pace_points_from 0 ev.

(** Item [k] (1-based) of [n] is followed by a pacing sleep when it is not
    the last item of its batch of [bs]. *)
Definition paced (bs n k : nat) : bool := negb (k mod bs =? 0) && (k <? n).

(** An event other than an item start or a pacing sleep. *)
Definition inner_event (e : event) : Prop :=
  match e with EItem _ | EPace _ => False | _ => True end.

(** ** Concrete inputs *)

Definition good_product : dict :=
  [("title", PStr "Notebook"); ("head_imgs", PList [PStr "img.jpg"]);
   ("price", PStr "9.90"); ("cats", PList [PInt 1])].

(** A product without a [title]. *)
Definition untitled_product : dict := [("price", PInt 10)].

(** Every [add_product] returns [{'errcode': c}]. *)
Definition world_code (c : Z) : World :=
  {| init_outcome := fun _ => InitOk;
     add_outcome := fun _ => AddRet (PDict [("errcode", PInt c)]);
     float_str_ok := fun _ => true |}.

(** Re-initialising the client raises. *)
Definition world_init_fails : World :=
  {| init_outcome := fun _ => InitRaise (Raised "init failed");
     add_outcome := fun _ => AddRet (PDict [("errcode", PInt 0)]);
     float_str_ok := fun _ => true |}.

(** The default upload configuration with the given batch size. *)
Definition config_bs (bs : nat) : Config :=
  {| max_retries := 3; batch_size := bs; request_interval := 1%Q;
     max_concurrency := 5 |}.

Definition st_ready : St :=
  {| api_client := true; n_init := 0; n_add := 0; clock := 0%Q |}.

Definition st_no_client : St :=
  {| api_client := false; n_init := 0; n_add := 0; clock := 0%Q |}.

Definition expired_token : Token.TokState :=
  {| Token.access_token := ""; Token.token_expire_time := 0%Z |}.

(** Threads that have not yet checked the cache. *)
Definition count_idle (ts : list Token.thread) : nat :=
  List.length (filter (fun t => match t with Token.TIdle => true | _ => false end) ts).

(** ** Properties of computations

    [m_inner m]: every trace of [m] is made of events other than item starts
    and pacing sleeps.  [m_safe m]: [m] returns normally from every state. *)

Definition m_inner {A} (m : M A) : Prop :=
  forall st st' ev o, m st = (st', ev, o) -> Forall inner_event ev.

Definition m_safe {A} (m : M A) : Prop :=
  forall st, exists st' ev a, m st = (st', ev, Ret a).


(** ** [ProductUploader._validate_config]

    The values of the [upload] section are compared with numbers: an int or
    a finite float is a rational [CNum], a float NaN compares false both
    ways, a bool compares as 0 or 1 (and stays a bool), and anything else
    (str, None, list, dict) makes the comparison raise [TypeError]. *)
Module UploadConfig.

Inductive cfgval : Type :=
| CNum (q : Q)
| CNaN
| CBool (b : bool)
| CNonNum.

(** The dict [self.config['upload']], in insertion order. *)
Definition section := list (string * cfgval).

(** [d.get(k)] *)
Fixpoint lookup (d : section) (k : string) : option cfgval :=
  match d with
  | [] => None
  | (k', v) :: rest => if String.eqb k' k then Some v else lookup rest k
  end.

(** [d[k] = v]: overwrite in place, or append a new key. *)
Fixpoint set (d : section) (k : string) (v : cfgval) : section :=
  match d with
  | [] => [(k, v)]
  | (k', v') :: rest =>
      if String.eqb k' k then (k', v) :: rest else (k', v') :: set rest k v
  end.

Definition defaults : list (string * cfgval) :=
  [("batch_size", CNum 10); ("request_interval", CNum 1);
   ("max_retries", CNum 3); ("timeout", CNum 30);
   ("max_concurrency", CNum 5)].

Definition ranges : list (string * (Q * Q)) :=
  [("batch_size", (1, 100)%Q); ("request_interval", (1 # 10, 60)%Q);
   ("max_retries", (0, 10)%Q); ("timeout", (5, 300)%Q);
   ("max_concurrency", (1, 20)%Q)].

(** [ranges[key]] when [key in ranges] *)
Definition range_of (key : string) : option (Q * Q) :=
  match find (fun kr => String.eqb (fst kr) key) ranges with
  | Some (_, r) => Some r
  | None => None
  end.

(** [min_val <= v <= max_val] *)
Definition in_range (lo hi : Q) (v : cfgval) : py_exc + bool :=
  match v with
  | CNum q => inr (Qle_bool lo q && Qle_bool q hi)
  | CNaN => inr false
  | CBool b =>
      let q := if b then 1%Q else 0%Q in inr (Qle_bool lo q && Qle_bool q hi)
  | CNonNum => inl TypeError
  end.

(** One iteration of [for key, default in defaults.items()]. *)
Definition validate_key (upload_config : section) (kd : string * cfgval)
  : py_exc + section :=
  let '(key, default) := kd in
  match lookup upload_config key with
  | None => inr (set upload_config key default)
  | Some v =>
      match range_of key with
      | None => inr upload_config
      | Some (min_val, max_val) =>
          match in_range min_val max_val v with
          | inl e => inl e
          | inr true => inr upload_config
          | inr false => inr (set upload_config key default)
          end
      end
  end.

Fixpoint validate_keys (upload_config : section) (ds : list (string * cfgval))
  : py_exc + section :=
  match ds with
  | [] => inr upload_config
  | kd :: rest =>
      match validate_key upload_config kd with
      | inl e => inl e
      | inr uc => validate_keys uc rest
      end
  end.

(** [upload] is [self.config.get('upload')] on entry ([None] when the key
    is absent); the result is [self.config['upload']] on return. *)
Definition _validate_config (upload : option section) : py_exc + section :=
  let upload_config := match upload with Some s => s | None => [] end in
  validate_keys upload_config defaults.

(** [v] passes the range check of [key] (vacuous for keys without a
    range). *)
Definition accepted (key : string) (v : cfgval) : Prop :=
  forall lo hi, range_of key = Some (lo, hi) -> in_range lo hi v = inr true.

End UploadConfig.

(** ** The token state of a freshly constructed [WeChatShopAPIClient]

    [__init__] takes [access_token] from the configuration ([''] when
    absent) and sets [token_expire_time = 0]. *)
Definition fresh_token_state (configured_token : string) : Token.TokState :=
  {| Token.access_token := configured_token; Token.token_expire_time := 0%Z |}.

(** ** The methods of [WeChatShopAPIClient] around [_api_request]

    The client's mutable state is its [operation_history], the number of
    token checks and HTTP requests made so far (which index the oracles),
    and the product dicts it may update in place ([heap], by object id).
    Timestamps and log lines are not modelled; [time.sleep] has no effect
    on the modelled state. *)
Module Client.

Local Open Scope string_scope.

(** How one HTTP request ([session.get]/[session.post], then
    [raise_for_status] and [response.json()]) ends: a parsed JSON body, a
    [requests.exceptions.RequestException] ([network] for [ConnectionError],
    [Timeout] and [ChunkedEncodingError]), or another exception. *)
Inductive http_res : Type :=
| HJson (body : pyval)
| HReqExc (network : bool) (msg : string)
| HOtherExc (msg : string).

(** The outside world of the client. *)
Record Env : Type := {
  py_str : pyval -> string;             (* str(v) / f-string of a value *)
  token_ok : nat -> bool;               (* truthiness of the k-th _refresh_access_token() *)
  token_value : nat -> pyval;           (* self.access_token after it, when truthy *)
  http : nat -> http_res;               (* the k-th HTTP request *)
  path_exists : pyval -> py_exc + bool; (* os.path.exists *)
  open_file : pyval -> py_exc + unit;   (* open(path, 'rb') *)
  api_paths : dict                      (* self.api_paths *)
}.

Record CState : Type := {
  hist : list pyval;        (* self.operation_history *)
  n_tok : nat;
  n_http : nat;
  heap : nat -> dict        (* product dicts owned by the caller *)
}.

Definition CM (A : Type) : Type := CState -> CState * outcome A.

Definition cret {A} (a : A) : CM A := fun s => (s, Ret a).
Definition craise {A} (e : py_exc) : CM A := fun s => (s, Raise e).
Definition cbind {A B} (m : CM A) (k : A -> CM B) : CM B :=
  fun s => match m s with
           | (s', Ret a) => k a s'
           | (s', Raise e) => (s', Raise e)
           end.
(** [try: m except Exception as e: h e] *)
Definition ccatch {A} (m : CM A) (h : py_exc -> CM A) : CM A :=
  fun s => match m s with
           | (s', Raise e) => h e s'
           | r => r
           end.
Definition clift {A} (r : py_exc + A) : CM A :=
  match r with inl e => craise e | inr a => cret a end.
Definition cget : CM CState := fun s => (s, Ret s).
Definition cput (s : CState) : CM unit := fun _ => (s, Ret tt).

Notation "'let!' x ':=' m 'in' k" := (cbind m (fun x => k))
  (at level 200, x name, m at level 100, k at level 200).
Notation "m ;;! k" := (cbind m (fun _ => k)) (at level 100, right associativity).

Definition set_hist (s : CState) (h : list pyval) : CState :=
  {| hist := h; n_tok := n_tok s; n_http := n_http s; heap := heap s |}.

(** [self.operation_history.append(entry)] *)
Definition append_history (entry : pyval) : CM unit :=
  let! s := cget in cput (set_hist s (List.app (hist s) [entry])).

(** [_record_operation(operation_type, status, details)] *)
Definition _record_operation (operation_type : pyval) (status : string)
  (details : pyval) : CM unit :=
  let! s := cget in
  let h := List.app (hist s) [PDict [("type", operation_type); ("status", PStr status);
                             ("details", if truthy details then details else PDict [])]] in
  cput (set_hist s (if Nat.ltb 1000 (List.length h) then tl h else h)).

Section Methods.

Variable env : Env.

(** [self._refresh_access_token()] read as a truth value. *)
Definition refresh_token : CM bool :=
  let! s := cget in
  cput {| hist := hist s; n_tok := S (n_tok s); n_http := n_http s; heap := heap s |} ;;!
  cret (token_ok env (n_tok s)).

(** One HTTP request. *)
Definition send : CM http_res :=
  let! s := cget in
  cput {| hist := hist s; n_tok := n_tok s; n_http := S (n_http s); heap := heap s |} ;;!
  cret (http env (n_http s)).

Definition type_name (v : pyval) : string :=
  match v with
  | PNone => "NoneType" | PBool _ => "bool" | PInt _ => "int" | PStr _ => "str"
  | PList _ => "list" | PDict _ => "dict"
  end.

(** [str(e)] of the [AttributeError] of [v.get] on a non-dict [v]. *)
Definition no_get_msg (v : pyval) : string :=
  "'" ++ type_name v ++ "' object has no attribute 'get'".

(** [result.get("errcode") == 0 or "errcode" not in result] *)
Definition body_ok (result : dict) : bool :=
  py_eq_zero (dict_get result "errcode" PNone) || negb (has_key result "errcode").

Definition fail_result (msg : string) : pyval :=
  PDict [("success", PBool false); ("error", PStr msg)].

(** [_api_request(api_path, ...)].  The request method, the parameters and
    the body do not change the modelled outcome; [json.dumps] of a [pyval]
    never fails. *)
Definition _api_request (api_path : pyval) : CM pyval :=
  let! ok := refresh_token in
  if negb ok then cret (fail_result "无法获取有效的access_token")
  else
    let! r := send in
    let handle_other (msg : string) : CM pyval :=
      let error_msg := "处理响应异常: " ++ msg in
      _record_operation api_path "exception" (PDict [("error", PStr msg)]) ;;!
      cret (fail_result error_msg) in
    match r with
    | HJson (PDict result) =>
        if body_ok result then
          _record_operation api_path "success" (PDict [("response", PDict result)]) ;;!
          cret (PDict [("success", PBool true); ("data", PDict result)])
        else
          let error_msg :=
            "API错误 " ++ py_str env (dict_get result "errcode" (PStr "unknown")) ++
            ": " ++ py_str env (dict_get result "errmsg" (PStr "未知错误")) in
          _record_operation api_path "error"
            (PDict [("error", PStr error_msg); ("response", PDict result)]) ;;!
          cret (PDict [("success", PBool false); ("error", PStr error_msg);
                       ("data", PDict result)])
    | HJson v => handle_other (no_get_msg v)
    | HOtherExc msg => handle_other msg
    | HReqExc network msg =>
        let error_msg := "请求异常: " ++ msg in
        _record_operation api_path "exception" (PDict [("error", PStr msg)]) ;;!
        let fallback := cret (fail_result error_msg) in
        if network then
          let! r2 := send in
          match r2 with
          | HJson (PDict result) =>
              if body_ok result then
                _record_operation api_path "success"
                  (PDict [("response", PDict result); ("retry", PBool true)]) ;;!
                cret (PDict [("success", PBool true); ("data", PDict result)])
              else fallback
          | _ => fallback
          end
        else fallback
    end.

(** [str(KeyError(k))] *)
Definition key_error_str (k : string) : string := "'" ++ k ++ "'".

Definition py_exc_str (e : py_exc) : string :=
  match e with KeyError k => key_error_str k | _ => exc_str e end.

(** [self.api_paths[name]] *)
Definition api_path_of (name : string) : CM pyval := clift (getitem (api_paths env) name).

(** [upload_image(image_path)] *)
Definition upload_image (image_path : pyval) : CM pyval :=
  let! ex := clift (path_exists env image_path) in
  if negb ex then cret (fail_result ("图片文件不存在: " ++ py_str env image_path))
  else
    ccatch
      (let! _ := clift (open_file env image_path) in
       let! path := api_path_of "upload_image" in
       let! result := _api_request path in
       append_history (PDict [("operation", PStr "upload_image");
                              ("image_path", image_path); ("result", result)]) ;;!
       cret result)
      (fun e => cret (fail_result ("上传图片失败: " ++ py_exc_str e))).

Definition WECHAT_SHOP_REQUIRED_FIELDS : list string :=
  ["product_id"; "product_name"; "category_id"; "main_image"; "image_list";
   "price"; "original_price"; "product_desc"; "sku_list"; "attributes";
   "product_status"].

(** The first required field (other than [product_id]) missing from [d]. *)
Definition missing_field (d : dict) : option string :=
  find (fun field => negb (String.eqb field "product_id") && negb (has_key d field))
       WECHAT_SHOP_REQUIRED_FIELDS.

(** [add_product(product_data)] *)
Definition add_product (product_data : dict) : CM pyval :=
  match missing_field product_data with
  | Some field => cret (fail_result ("缺少必填字段: " ++ field))
  | None =>
      ccatch
        (let! path := api_path_of "add_product" in
         let! result := _api_request path in
         append_history (PDict [("operation", PStr "add_product");
                                ("product_id", dict_get product_data "product_id" PNone);
                                ("result", result)]) ;;!
         cret result)
        (fun e => cret (fail_result ("添加商品失败: " ++ py_exc_str e)))
  end.

(** [upload_product(product_data)] *)
Definition upload_product (product_data : dict) : CM pyval :=
  match find (fun field => negb (has_key product_data field))
             ["title"; "desc"; "category_id1"; "category_id2"; "sku_list"] with
  | Some field => cret (fail_result ("缺少必填字段: " ++ field))
  | None =>
      let api_path := dict_get (api_paths env) "add_product" (PStr "/channels/ec/product/create") in
      let! result := _api_request api_path in
      append_history (PDict [("operation", PStr "upload_product");
                             ("product_title", dict_get product_data "title" PNone);
                             ("result", result)]) ;;!
      cret result
  end.

(** [get_product], [get_shop_info] and [update_shop_info]: a request on
    [self.api_paths[name]], then a history entry. *)
Definition simple_call (name failure : string) (extra : dict) : CM pyval :=
  ccatch
    (let! path := api_path_of name in
     let! result := _api_request path in
     append_history (PDict (("operation", PStr name) :: List.app extra [("result", result)])) ;;!
     cret result)
    (fun e => cret (fail_result (failure ++ py_exc_str e))).

Definition get_product (product_id : pyval) : CM pyval :=
  simple_call "get_product" "获取商品详情失败: " [("product_id", product_id)].

Definition get_shop_info : CM pyval :=
  simple_call "get_shop_info" "获取店铺信息失败: " [].

Definition update_shop_info : CM pyval :=
  simple_call "update_shop_info" "更新店铺信息失败: " [].

(** [get_category], [get_all_category] and [get_channels_category]: a
    request, then [_record_operation(name, status, path)].  [result.get]
    never fails, as [_api_request] returns a dict. *)
Definition category_call (name failure : string) : CM pyval :=
  ccatch
    (let! path := api_path_of name in
     let! result := _api_request path in
     let status := match result with
                   | PDict r => if truthy (dict_get r "success" PNone) then "success" else "error"
                   | _ => "error"
                   end in
     _record_operation (PStr name) status path ;;!
     cret result)
    (fun e => cret (fail_result (failure ++ py_exc_str e))).

Definition get_category : CM pyval :=
  category_call "get_category" "获取商品类目失败: ".
Definition get_all_category : CM pyval :=
  category_call "get_all_category" "获取视频号小店类目失败: ".
Definition get_channels_category : CM pyval :=
  category_call "get_channels_category" "获取视频号小店商品类目失败: ".

(** An element of the [products] list: a dict (by object id, as the loop
    mutates it in place) or a value of another type, given by its type
    name. *)
Inductive item : Type :=
| IDict (oid : nat)
| INonDict (tname : string).

(** The argument [products]: a list, or a value of another type. *)
Inductive products_arg : Type :=
| AList (items : list item)
| ANotList.

(** The loop counters: [success_count], [error_count], [error_list]. *)
Record counters : Type := {
  success_count : nat;
  error_count : nat;
  error_list : list pyval
}.

Definition add_error (c : counters) (entry : pyval) : counters :=
  {| success_count := success_count c; error_count := S (error_count c);
     error_list := List.app (error_list c) [entry] |}.

Definition add_success (c : counters) : counters :=
  {| success_count := S (success_count c); error_count := error_count c;
     error_list := error_list c |}.

Definition set_heap (s : CState) (oid : nat) (d : dict) : CState :=
  {| hist := hist s; n_tok := n_tok s; n_http := n_http s;
     heap := fun o => if Nat.eqb o oid then d else heap s o |}.

(** [d[k] = v] on a dict. *)
Fixpoint dict_set (d : dict) (k : string) (v : pyval) : dict :=
  match d with
  | [] => [(k, v)]
  | (k', v') :: rest => if String.eqb k' k then (k', v) :: rest else (k', v') :: dict_set rest k v
  end.

(** [x.get(k, default)] on a value that must be a dict. *)
Definition get_on (x : pyval) (k : string) (default : pyval) : CM pyval :=
  match x with
  | PDict d => cret (dict_get d k default)
  | v => craise (Raised (no_get_msg v))
  end.

(** [x[k]] on a value: a dict lookup, [TypeError] on the other values. *)
Definition index_on (x : pyval) (k : string) : CM pyval :=
  match x with
  | PDict d => clift (getitem d k)
  | _ => craise TypeError
  end.

(** One iteration of [for i, product in enumerate(products, 1)]; its
    exceptions propagate to the [try] around the loop. *)
Definition batch_item (i : nat) (it : item) (c : counters) : CM counters :=
  match it with
  | INonDict tname =>
      craise (Raised ("'" ++ tname ++ "' object has no attribute 'get'"))
  | IDict oid =>
      let! s := cget in
      let product := heap s oid in
      let! go :=
        (if has_key product "main_image"
         then clift (path_exists env (dict_get product "main_image" PNone))
         else cret false) in
      let! image_failed :=
        (if go then
           let! upload_result := upload_image (dict_get product "main_image" PNone) in
           let! ok := index_on upload_result "success" in
           if truthy ok then
             let! data := index_on upload_result "data" in
             let! url := get_on data "image_url" (PStr "") in
             let! s1 := cget in
             cput (set_heap s1 oid (dict_set (heap s1 oid) "main_image" url)) ;;!
             cret None
           else
             let! err := get_on upload_result "error" (PStr "未知错误") in
             cret (Some (PDict [("index", PInt (Z.of_nat i));
                                ("product_id", dict_get product "product_id" PNone);
                                ("error", PStr ("上传主图失败: " ++ py_str env err))]))
         else cret None) in
      match image_failed with
      | Some entry => cret (add_error c entry)
      | None =>
          let! s2 := cget in
          let product' := heap s2 oid in
          let! result := add_product product' in
          let! ok := index_on result "success" in
          if truthy ok then cret (add_success c)
          else
            let! err := get_on result "error" (PStr "未知错误") in
            cret (add_error c (PDict [("index", PInt (Z.of_nat i));
                                      ("product_id", dict_get product' "product_id" PNone);
                                      ("error", err)]))
      end
  end.

(** The loop; on an exception it also hands back the counters reached. *)
Fixpoint batch_loop (i : nat) (items : list item) (c : counters)
  : CState -> CState * (counters * option py_exc) :=
  fun s =>
  match items with
  | [] => (s, (c, None))
  | it :: rest =>
      match batch_item i it c s with
      | (s', Ret c') => batch_loop (S i) rest c' s'
      | (s', Raise e) => (s', (c, Some e))
      end
  end.

(** The report of a completed batch ([elapsed_time] and [timestamp] are not
    modelled). *)
Definition batch_report (total : nat) (c : counters) : pyval :=
  PDict [("success", PBool true); ("total", PInt (Z.of_nat total));
         ("success_count", PInt (Z.of_nat (success_count c)));
         ("error_count", PInt (Z.of_nat (error_count c)));
         ("error_list", PList (error_list c))].

(** The result when the loop raised [e]. *)
Definition batch_abort (total : nat) (c : counters) (e : py_exc) : pyval :=
  PDict [("success", PBool false);
         ("error", PStr ("批量上传过程中发生错误: " ++ py_exc_str e));
         ("total", PInt (Z.of_nat total));
         ("processed_count", PInt (Z.of_nat (success_count c + error_count c)));
         ("success_count", PInt (Z.of_nat (success_count c)));
         ("error_count", PInt (Z.of_nat (error_count c)));
         ("error_list", PList (error_list c))].

(** [batch_upload_products_from_data(products)] *)
Definition batch_upload_products_from_data (products : products_arg) : CM pyval :=
  match products with
  | ANotList | AList [] => cret (fail_result "无效的商品数据列表")
  | AList items =>
      let c0 := {| success_count := 0; error_count := 0; error_list := [] |} in
      fun s =>
      match batch_loop 1 items c0 s with
      | (s', (c, None)) =>
          let report := batch_report (List.length items) c in
          (append_history (PDict [("operation", PStr "batch_upload_products_from_data");
                                  ("report", report)]) ;;!
           cret report) s'
      | (s', (c, Some e)) => (s', Ret (batch_abort (List.length items) c e))
      end
  end.

(** [get_channels_product_list(page, size, product_id, title,
    product_status)] with an integer [size].  The dict [params] is shared
    with [_api_request], which sets its ["access_token"] to
    [self.access_token] after its own successful token check. *)
Definition get_channels_product_list (page : pyval) (size : Z)
  (product_id title product_status : pyval) : CM pyval :=
  ccatch
    (let! s0 := cget in
     let! ok := refresh_token in
     if negb ok then cret PNone
     else
       let tok1 := token_value env (n_tok s0) in
       let! api_path := api_path_of "get_channels_product_list" in
       let! s1 := cget in
       let! response := _api_request api_path in
       let params :=
         PDict [("access_token", if token_ok env (n_tok s1)
                                 then token_value env (n_tok s1) else tok1)] in
       let record_success (data_content : dict) : CM unit :=
         let! product_ids := cret (dict_get data_content "product_ids" (PList [])) in
         match pylen product_ids with
         | None => craise TypeError
         | Some n =>
             append_history
               (PDict [("operation", PStr "get_channels_product_list");
                       ("params", params); ("success", PBool true);
                       ("result", PDict [("total_num", dict_get data_content "total_num" (PInt 0));
                                         ("product_count", PInt (Z.of_nat n));
                                         ("page", page); ("size", PInt size)])])
         end in
       let failure :=
         let error_msg := "获取视频号小店商品列表失败: " ++ py_str env response in
         append_history
           (PDict [("operation", PStr "get_channels_product_list");
                   ("params", params); ("success", PBool false);
                   ("error", PStr error_msg)]) ;;!
         cret (if truthy response then response else PNone) in
       let! ok2 := (if truthy response then get_on response "success" PNone
                    else cret (PBool false)) in
       if truthy ok2 then
         let! data := get_on response "data" (PDict []) in
         match data with
         | PDict data_content =>
             if has_key data_content "errcode" &&
                py_eq_zero (dict_get data_content "errcode" PNone) then
               record_success data_content ;;!
               cret (PDict [("success", PBool true);
                            ("product_ids", dict_get data_content "product_ids" (PList []));
                            ("next_key", dict_get data_content "next_key" PNone);
                            ("total_num", dict_get data_content "total_num" (PInt 0))])
             else if has_key data_content "product_ids" then
               record_success data_content ;;! cret data
             else if truthy data then cret data
             else failure
         | _ => craise TypeError (* the data of a successful _api_request is a dict *)
         end
       else failure)
    (fun e =>
       append_history
         (PDict [("operation", PStr "get_channels_product_list");
                 ("params", PDict [("page", page); ("size", PInt size);
                                   ("product_id", product_id); ("title", title);
                                   ("product_status", product_status)]);
                 ("success", PBool false);
                 ("error", PStr ("获取视频号小店商品列表异常: " ++ py_exc_str e))]) ;;!
       cret PNone).

(** [get_product_detail(product_id)] *)
Definition get_product_detail (product_id : pyval) : CM pyval :=
  let entry (extra : dict) :=
    PDict (("operation", PStr "get_product_detail") ::
           ("params", PDict [("product_id", product_id)]) :: extra) in
  ccatch
    (let! ok := refresh_token in
     if negb ok then cret PNone
     else
       let! api_path := api_path_of "get_product_detail" in
       let! response := _api_request api_path in
       let! ok2 := (if truthy response then get_on response "success" PNone
                    else cret (PBool false)) in
       if truthy ok2 then
         append_history (entry [("success", PBool true); ("result", PStr "获取成功")]) ;;!
         cret response
       else
         let! err := (if truthy response then get_on response "error" (PStr "未知错误")
                      else cret (PStr "未知错误")) in
         append_history (entry [("success", PBool false);
                                ("error", PStr ("获取商品详情失败: " ++ py_str env err))]) ;;!
         cret (if truthy response then response else PNone))
    (fun e =>
       append_history (entry [("success", PBool false);
                              ("error", PStr ("获取商品详情异常: " ++ py_exc_str e))]) ;;!
       cret PNone).

End Methods.

(** The [for record in reversed(self.operation_history)] search of
    [verify_upload_result]: [Some report] when it breaks on a record,
    [None] when none matches. *)
Fixpoint find_batch_report (h : list pyval) : py_exc + option pyval :=
  match h with
  | [] => inr None
  | e :: rest =>
      match find_batch_report rest with
      | inl ex => inl ex
      | inr (Some r) => inr (Some r)
      | inr None =>
          match e with
          | PDict r =>
              if match dict_get r "operation" PNone with
                 | PStr op => String.eqb op "batch_upload_products"
                 | _ => false
                 end && has_key r "report"
              then inr (Some (dict_get r "report" PNone)) else inr None
          | v => inl (Raised (no_get_msg v))
          end
      end
  end.

(** [verify_upload_result(report)] on the history [h]
    ([verification_time] is not modelled). *)
Definition verify_upload_result (report : pyval) (h : list pyval) : py_exc + pyval :=
  let found :=
    if truthy report then inr report
    else match find_batch_report h with
         | inl e => inl e
         | inr (Some r) => inr r
         | inr None => inr report
         end in
  match found with
  | inl e => inl e
  | inr report' =>
      if negb (truthy report') then inr (fail_result "未找到上传记录")
      else match report' with
           | PDict r =>
               inr (PDict [("success", PBool true);
                           ("total_products", dict_get r "total" (PInt 0));
                           ("successfully_uploaded", dict_get r "success_count" (PInt 0));
                           ("failed_uploads", dict_get r "error_count" (PInt 0));
                           ("details", report')])
           | v => inl (Raised (no_get_msg v))
           end
  end.

(** The public methods, as a caller may invoke them in sequence. *)
Inductive op : Type :=
| OpApiRequest (api_path : pyval)
| OpUploadImage (image_path : pyval)
| OpAddProduct (product_data : dict)
| OpUploadProduct (product_data : dict)
| OpBatch (products : products_arg)
| OpGetProduct (product_id : pyval)
| OpGetShopInfo
| OpUpdateShopInfo
| OpGetCategory
| OpGetAllCategory
| OpGetChannelsCategory
| OpGetChannelsProductList (page : pyval) (size : Z) (product_id title product_status : pyval)
| OpGetProductDetail (product_id : pyval).

Definition run_op (env : Env) (o : op) : CM pyval :=
  match o with
  | OpApiRequest p => _api_request env p
  | OpUploadImage p => upload_image env p
  | OpAddProduct d => add_product env d
  | OpUploadProduct d => upload_product env d
  | OpBatch a => batch_upload_products_from_data env a
  | OpGetProduct i => get_product env i
  | OpGetShopInfo => get_shop_info env
  | OpUpdateShopInfo => update_shop_info env
  | OpGetCategory => get_category env
  | OpGetAllCategory => get_all_category env
  | OpGetChannelsCategory => get_channels_category env
  | OpGetChannelsProductList p sz i t st => get_channels_product_list env p sz i t st
  | OpGetProductDetail i => get_product_detail env i
  end.

(** A sequence of calls; the caller goes on after an exception. *)
Fixpoint run_ops (env : Env) (ops : list op) (s : CState) : CState :=
  match ops with
  | [] => s
  | o :: rest => run_ops env rest (fst (run_op env o s))
  end.

(** A client just constructed: empty history. *)
Definition fresh_client (h : nat -> dict) : CState :=
  {| hist := []; n_tok := 0; n_http := 0; heap := h |}.

(** The [index] of an entry of [error_list]. *)
Definition entry_index (e : pyval) : option Z :=
  match e with
  | PDict d => match dict_get d "index" PNone with PInt z => Some z | _ => None end
  | _ => None
  end.

(** Histories without a record [verify_upload_result] looks for. *)
Definition no_batch_record (e : pyval) : Prop :=
  exists r, e = PDict r /\ dict_get r "operation" PNone <> PStr "batch_upload_products".

(** [m] keeps the property [P] of the history. *)
Definition hist_pres {A} (P : list pyval -> Prop) (m : CM A) : Prop :=
  forall s s' o, m s = (s', o) -> P (hist s) -> P (hist s').

End Client.

(** A client environment with no token, no files and no API paths. *)
Definition offline_env : Client.Env := {|
  Client.py_str := fun _ => "";
  Client.token_ok := fun _ => false;
  Client.token_value := fun _ => PStr "";
  Client.http := fun _ => Client.HOtherExc "";
  Client.path_exists := fun _ => inr false;
  Client.open_file := fun _ => inr tt;
  Client.api_paths := []
|}.

(** A client environment where every file exists, every token check
    succeeds and every request returns an uploaded image's URL. *)
Definition image_env : Client.Env := {|
  Client.py_str := fun _ => "";
  Client.token_ok := fun _ => true;
  Client.token_value := fun _ => PStr "TOKEN";
  Client.http := fun _ => Client.HJson (PDict [("image_url", PStr "https://img/1")]);
  Client.path_exists := fun _ => inr true;
  Client.open_file := fun _ => inr tt;
  Client.api_paths := [("upload_image", PStr "/upload"); ("add_product", PStr "/add")]
|}.

(** A client environment whose token checks all succeed and whose
    requests all return an empty product list. *)
Definition token_env : Client.Env := {|
  Client.py_str := fun _ => "";
  Client.token_ok := fun _ => true;
  Client.token_value := fun _ => PStr "TOKEN";
  Client.http := fun _ => Client.HJson (PDict [("errcode", PInt 0); ("product_ids", PList [])]);
  Client.path_exists := fun _ => inr false;
  Client.open_file := fun _ => inr tt;
  Client.api_paths := [("get_channels_product_list", PStr "/channels/ec/product/list/get")]
|}.

(** ** Module-level configuration of [wechat_shop_api.py] *)
Module ApiConfig.

(** The paths [load_api_paths] falls back to. *)
Definition default_api_paths : dict :=
  [("access_token", PStr "/cgi-bin/token");
   ("get_vip_user_score", PStr "/shop/vip/getvipuserscore");
   ("get_category", PStr "/merchant/category/getall");
   ("get_all_category", PStr "/channels/ec/category/all");
   ("get_channels_category", PStr "/channels/ec/category/batchget");
   ("get_channels_product_list", PStr "/channels/ec/product/list/get");
   ("get_product_detail", PStr "/channels/ec/product/get")].

(** [load_api_paths()]: [from_manager] is [get_config_value(
    'wechat_shop.api_paths', {})] and [from_file] the [json.load] of
    [wechat_api_config.json] (an exception when the file cannot be read). *)
Definition load_api_paths (from_manager from_file : py_exc + pyval) : pyval :=
  let fallback :=
    match from_file with
    | inr (PDict config) => dict_get config "api_paths" (PDict [])
    | _ => PDict default_api_paths   (* open/json.load or config.get raised *)
    end in
  match from_manager with
  | inr api_paths => if truthy api_paths then api_paths else fallback
  | inl _ => fallback
  end.

(** [d.update(kvs)] *)
Definition dict_update (d kvs : dict) : dict :=
  fold_left (fun acc kv => Client.dict_set acc (fst kv) (snd kv)) kvs d.

(** [d.setdefault(k, v)] *)
Definition dict_setdefault (d : dict) (k : string) (v : pyval) : dict :=
  if has_key d k then d else List.app d [(k, v)].

Definition default_config : dict :=
  [("api_base_url", PStr "https://api.weixin.qq.com"); ("access_token", PStr "");
   ("appid", PStr ""); ("appsecret", PStr ""); ("timeout", PInt 30)].

(** The [filtered_config] of the config manager: the four values that are
    not [None], or nothing when one of the [get_config_value] calls raised. *)
Definition manager_config (get_config_value : string -> py_exc + pyval) : option dict :=
  match get_config_value "wechat_shop.api_base_url", get_config_value "wechat_shop.appid",
        get_config_value "wechat_shop.appsecret", get_config_value "wechat_shop.timeout" with
  | inr u, inr a, inr s, inr t =>
      Some (filter (fun kv => match snd kv with PNone => false | _ => true end)
                   [("api_base_url", u); ("appid", a); ("appsecret", s); ("timeout", t)])
  | _, _, _, _ => None
  end.

(** [load_wechat_api_config()] *)
Definition load_wechat_api_config (get_config_value : string -> py_exc + pyval)
  (from_file : py_exc + pyval) : dict :=
  let c1 := match manager_config get_config_value with
            | Some m => dict_update default_config m
            | None => default_config
            end in
  let c2 := match from_file with
            | inr (PDict config) =>
                dict_update c1 (filter (fun kv => negb (String.eqb (fst kv) "api_paths")) config)
            | _ => c1   (* open/json.load or config.items raised *)
            end in
  dict_setdefault (dict_setdefault c2 "access_token" (PStr "")) "timeout" (PInt 30).

End ApiConfig.

(** ** [convert_product_to_csv_format] *)
Module CsvExport.

Definition sbind {A B} (r : py_exc + A) (k : A -> py_exc + B) : py_exc + B :=
  match r with inl e => inl e | inr a => k a end.
Notation "'let?' x ':=' r 'in' k" := (sbind r (fun x => k))
  (at level 200, x name, r at level 100, k at level 200).

(** [x.get(k, default)] *)
Definition get_v (x : pyval) (k : string) (dflt : pyval) : py_exc + pyval :=
  match x with
  | PDict d => inr (dict_get d k dflt)
  | v => inl (Raised (Client.no_get_msg v))
  end.

(** [v[i]] for a small [i] whose [str] is [istr].  The model's strings are
    byte strings. *)
Definition py_index (v : pyval) (i : nat) (istr : string) : py_exc + pyval :=
  match v with
  | PList l => match nth_error l i with
               | Some x => inr x
               | None => inl (Raised "list index out of range")
               end
  | PStr s => match String.get i s with
              | Some c => inr (PStr (String c EmptyString))
              | None => inl (Raised "string index out of range")
              end
  | PDict _ => inl (KeyError istr)
  | _ => inl TypeError
  end.

(** [v[:n]], as the list [enumerate] walks through. *)
Definition py_slice (v : pyval) (n : nat) : py_exc + list pyval :=
  match v with
  | PList l => inr (firstn n l)
  | PStr s => inr (map (fun c => PStr (String c EmptyString)) (firstn n (list_ascii_of_string s)))
  | _ => inl TypeError
  end.

(** [f'{n}'] for [n < 10]. *)
Definition digit (n : nat) : string := String (ascii_of_nat (48 + n)) EmptyString.

(** [for i, img in enumerate(imgs): csv_data[f'{prefix}{i+1}'] = img],
    [i] counting from [i0]. *)
Fixpoint set_images (prefix : string) (i0 : nat) (imgs : list pyval) (csv : dict) : dict :=
  match imgs with
  | [] => csv
  | img :: rest =>
      set_images prefix (S i0) rest (Client.dict_set csv (String.append prefix (digit (S i0))) img)
  end.

(** The [fieldnames] of [save_products_to_csv]. *)
Definition fieldnames : list string :=
  ["商品标题"; "副标题"; "短标题"; "商品描述"; "发货方式";
   "一级类目ID"; "二级类目ID"; "三级类目ID";
   "主图1"; "主图2"; "主图3"; "主图4"; "主图5"; "主图6"; "主图7"; "主图8"; "主图9";
   "详情图1"; "详情图2"; "详情图3";
   "SKU价格(分)"; "SKU库存"; "SKU编码"; "上架状态"].

(** [if len(cats) > i: csv_data[key] = cats[i].get('cat_id', '')] *)
Definition set_cat (cats : pyval) (n i : nat) (istr key : string) (csv : dict) : py_exc + dict :=
  if Nat.ltb i n then
    let? c := py_index cats i istr in
    let? cat_id := get_v c "cat_id" (PStr "") in
    inr (Client.dict_set csv key cat_id)
  else inr csv.

(** [convert_product_to_csv_format(product)] *)
Definition convert_product_to_csv_format (product : dict) : py_exc + dict :=
  let? desc := get_v (dict_get product "desc_info" (PDict [])) "desc" (PStr "") in
  let csv0 :=
    [("商品标题", dict_get product "title" (PStr ""));
     ("副标题", dict_get product "sub_title" (PStr ""));
     ("短标题", dict_get product "short_title" (PStr ""));
     ("商品描述", desc);
     ("发货方式", dict_get product "deliver_method" (PInt 0));
     ("一级类目ID", PStr ""); ("二级类目ID", PStr ""); ("三级类目ID", PStr "");
     ("主图1", PStr ""); ("主图2", PStr ""); ("主图3", PStr ""); ("主图4", PStr "");
     ("主图5", PStr ""); ("主图6", PStr ""); ("主图7", PStr ""); ("主图8", PStr "");
     ("主图9", PStr "");
     ("详情图1", PStr ""); ("详情图2", PStr ""); ("详情图3", PStr "");
     ("SKU价格(分)", PStr ""); ("SKU库存", PStr ""); ("SKU编码", PStr "");
     ("上架状态", dict_get product "listing" (PInt 0))] in
  let cats := dict_get product "cats" (PList []) in
  match pylen cats with
  | None => inl TypeError
  | Some n =>
      let? csv1 := set_cat cats n 0 "0" "一级类目ID" csv0 in
      let? csv2 := set_cat cats n 1 "1" "二级类目ID" csv1 in
      let? csv3 := set_cat cats n 2 "2" "三级类目ID" csv2 in
      let? head_imgs := py_slice (dict_get product "head_imgs" (PList [])) 9 in
      let csv4 := set_images "主图" 0 head_imgs csv3 in
      let? detail_imgs := get_v (dict_get product "desc_info" (PDict [])) "imgs" (PList []) in
      let? detail_imgs := py_slice detail_imgs 3 in
      let csv5 := set_images "详情图" 0 detail_imgs csv4 in
      let skus := dict_get product "skus" (PList []) in
      if truthy skus then
        let? sku0 := py_index skus 0 "0" in
        let? price := get_v sku0 "price" (PStr "") in
        let csv6 := Client.dict_set csv5 "SKU价格(分)" price in
        let? sku0 := py_index skus 0 "0" in
        let? stock := get_v sku0 "stock_num" (PStr "") in
        let csv7 := Client.dict_set csv6 "SKU库存" stock in
        let? sku0 := py_index skus 0 "0" in
        let? out_sku_id := get_v sku0 "out_sku_id" (PStr "") in
        inr (Client.dict_set csv7 "SKU编码" out_sku_id)
      else inr csv5
  end.

End CsvExport.

(** ** [ProductUploader._make_results_serializable]

    The entries of [results['details']] are dicts shared with the caller,
    given by object id into [heap]; [results.copy()] copies only the outer
    dict, so the entries are updated in place. *)
Definition _make_results_serializable (py_str : pyval -> string) (results : dict)
  (details : option (list nat)) (heap : nat -> dict) : dict * (nat -> dict) :=
  let serializable := results in
  match details with
  | None => (serializable, heap)
  | Some ds =>
      (serializable,
       fold_left
         (fun h oid =>
            let detail := h oid in
            if has_key detail "response" then
              match dict_get detail "response" PNone with
              | PDict _ => h
              | r => fun o => if Nat.eqb o oid
                              then Client.dict_set detail "response"
                                     (PDict [("result", PStr (py_str r))])
                              else h o
              end
            else h)
         ds heap)
  end.

(** A client environment with the fallback API paths, where every file
    exists and every request fails. *)
Definition default_paths_env : Client.Env := {|
  Client.py_str := fun _ => "";
  Client.token_ok := fun _ => true;
  Client.token_value := fun _ => PStr "TOKEN";
  Client.http := fun _ => Client.HOtherExc "";
  Client.path_exists := fun _ => inr true;
  Client.open_file := fun _ => inr tt;
  Client.api_paths := ApiConfig.default_api_paths
|}.

(** ** [convert_csv_to_product_format]

    [str.strip] and [int(str)] are Python builtins, passed in as
    [py_strip] and [py_int]. *)
Module CsvImport.
Import CsvExport.

(** [v.strip()] *)
Definition strip_v (py_strip : string -> string) (v : pyval) : py_exc + string :=
  match v with
  | PStr s => inr (py_strip s)
  | _ => inl AttributeError
  end.

(** [int(v)] *)
Definition int_v (py_int : string -> py_exc + Z) (v : pyval) : py_exc + Z :=
  match v with
  | PStr s => py_int s
  | PInt z => inr z
  | PBool b => inr (if b then 1%Z else 0%Z)
  | _ => inl TypeError
  end.

(** [for key in keys: x = csv_row.get(key, '').strip(); if x: out.append(mk(x))] *)
Fixpoint collect (py_strip : string -> string) (csv_row : dict) (mk : string -> pyval)
  (keys : list string) : py_exc + list pyval :=
  match keys with
  | [] => inr []
  | key :: rest =>
      let? x := strip_v py_strip (dict_get csv_row key (PStr "")) in
      let? out := collect py_strip csv_row mk rest in
      inr (if String.eqb x "" then out else mk x :: out)
  end.

Definition numbered (prefix : string) (n : nat) : list string :=
  map (fun i => String.append prefix (digit i)) (seq 1 n).

Definition convert_csv_to_product_format (py_strip : string -> string)
  (py_int : string -> py_exc + Z) (csv_row : dict) : py_exc + dict :=
  let? deliver_method := int_v py_int (dict_get csv_row "发货方式" (PStr "0")) in
  let? listing := int_v py_int (dict_get csv_row "上架状态" (PStr "0")) in
  let? cats := collect py_strip csv_row (fun cat_id => PDict [("cat_id", PStr cat_id)])
                 ["一级类目ID"; "二级类目ID"; "三级类目ID"] in
  let? head_imgs := collect py_strip csv_row PStr (numbered "主图" 9) in
  let? imgs := collect py_strip csv_row PStr (numbered "详情图" 3) in
  let? price := strip_v py_strip (dict_get csv_row "SKU价格(分)" (PStr "")) in
  let? stock_num := strip_v py_strip (dict_get csv_row "SKU库存" (PStr "")) in
  let? out_sku_id := strip_v py_strip (dict_get csv_row "SKU编码" (PStr "")) in
  let? skus :=
    if negb (String.eqb price "") || negb (String.eqb stock_num "") then
      let? p := if negb (String.eqb price "") then py_int price else inr 0%Z in
      let? st := if negb (String.eqb stock_num "") then py_int stock_num else inr 0%Z in
      inr [PDict (List.app [("price", PInt p); ("stock_num", PInt st)]
                           (if negb (String.eqb out_sku_id "")
                            then [("out_sku_id", PStr out_sku_id)] else []))]
    else inr [] in
  inr [("title", dict_get csv_row "商品标题" (PStr ""));
       ("sub_title", dict_get csv_row "副标题" (PStr ""));
       ("short_title", dict_get csv_row "短标题" (PStr ""));
       ("desc_info", PDict [("desc", dict_get csv_row "商品描述" (PStr "")); ("imgs", PList imgs)]);
       ("deliver_method", PInt deliver_method);
       ("cats", PList cats); ("cats_v2", PList cats);
       ("head_imgs", PList head_imgs);
       ("extra_service", PDict [("service_tags", PList [])]);
       ("skus", PList skus);
       ("listing", PInt listing)].

End CsvImport.

(** ** How [ProductUploader] configures its [WeChatShopAPIClient] *)
Module ClientInit.

(** The [api_config] of [WeChatShopAPIClient.__init__(appid, appsecret,
    api_config)], starting from the module's [WECHAT_API_CONFIG]. *)
Definition client_api_config (WECHAT_API_CONFIG : dict) (appid appsecret : pyval)
  (api_config : option dict) : dict :=
  let c := match api_config with
           | Some d => if truthy (PDict d) then ApiConfig.dict_update WECHAT_API_CONFIG d
                       else WECHAT_API_CONFIG
           | None => WECHAT_API_CONFIG
           end in
  let c := if truthy appid then Client.dict_set c "appid" appid else c in
  if truthy appsecret then Client.dict_set c "appsecret" appsecret else c.

(** [os.environ.get(name)] is truthy *)
Definition env_set (environ : string -> option string) (name : string) : bool :=
  match environ name with
  | Some v => negb (String.eqb v "")
  | None => false
  end.

(** [_check_config()] *)
Fixpoint check_loop (environ : string -> option string) (api_config : dict)
  (required : list string) : bool :=
  match required with
  | [] => true
  | config :: rest =>
      if String.eqb config "appid" && env_set environ "WECHAT_APPID" then
        check_loop environ api_config rest
      else if String.eqb config "appsecret" && env_set environ "WECHAT_APPSECRET" then
        check_loop environ api_config rest
      else if negb (truthy (dict_get api_config config PNone)) then false
      else check_loop environ api_config rest
  end.

Definition _check_config (environ : string -> option string) (api_config : dict) : bool :=
  check_loop environ api_config ["api_base_url"; "appid"; "appsecret"].

Fixpoint join (sep : string) (l : list string) : string :=
  match l with
  | [] => ""
  | [x] => x
  | x :: rest => String.append x (String.append sep (join sep rest))
  end.

(** [ProductUploader._initialize_api_client()]: the new client's
    [api_config], or [None] when the error is swallowed in sandbox mode.
    [config_api] is [self.config.get('api', {})] and [fallback_api] the
    dict built from [get_config_value] when that is empty. *)
Definition _initialize_api_client (WECHAT_API_CONFIG : dict) (config_api fallback_api : dict)
  : py_exc + option dict :=
  let api_config := if truthy (PDict config_api) then config_api else fallback_api in
  let missing_fields := filter (fun field => negb (has_key api_config field))
                               ["appid"; "appsecret"] in
  match missing_fields with
  | [] =>
      let app_id := dict_get api_config "appid" (PStr "") in
      let app_secret := dict_get api_config "appsecret" (PStr "") in
      inr (Some (client_api_config WECHAT_API_CONFIG app_id app_secret (Some api_config)))
  | _ =>
      let error_msg := String.append "初始化API客户端失败: "
                         (String.append "API配置不完整，缺少以下字段: " (join ", " missing_fields)) in
      if truthy (dict_get api_config "use_sandbox" (PBool false)) then inr None
      else inl (Raised error_msg)
  end.

End ClientInit.

(** ** [batch_upload_products(csv_file)] and [load_products_from_csv] *)
Module CsvBatch.
Import Client.
Local Open Scope string_scope.

(** The products of the rows, or the first exception. *)
Fixpoint convert_rows (py_strip : string -> string) (py_int : string -> py_exc + Z)
  (rows : list dict) : py_exc + list dict :=
  match rows with
  | [] => inr []
  | row :: rest =>
      CsvExport.sbind (CsvImport.convert_csv_to_product_format py_strip py_int row)
        (fun product => CsvExport.sbind (convert_rows py_strip py_int rest)
                          (fun products => inr (product :: products)))
  end.

(** [load_products_from_csv(csv_file)]: [file_exists] is
    [os.path.exists(csv_file)] and [rows] what [csv.DictReader] yields (an
    exception when the file cannot be opened or parsed); every exception
    gives the empty list. *)
Definition load_products_from_csv (py_strip : string -> string)
  (py_int : string -> py_exc + Z) (file_exists : bool) (rows : py_exc + list dict)
  : list dict :=
  if negb file_exists then []
  else match rows with
       | inl _ => []
       | inr rs => match convert_rows py_strip py_int rs with
                   | inl _ => []
                   | inr products => products
                   end
       end.

(** The loaded products are new dicts, stored from the object id [oid] on. *)
Fixpoint store_products (oid : nat) (products : list dict) (s : CState) : CState :=
  match products with
  | [] => s
  | p :: rest => store_products (S oid) rest (set_heap s oid p)
  end.

Definition batch_upload_products (env : Env) (py_strip : string -> string)
  (py_int : string -> py_exc + Z) (csv_file : pyval) (rows : py_exc + list dict)
  (base : nat) : CM pyval :=
  let! ex := clift (path_exists env csv_file) in
  if negb ex then cret (fail_result ("CSV文件不存在: " ++ py_str env csv_file))
  else
    let! ex2 := clift (path_exists env csv_file) in
    match load_products_from_csv py_strip py_int ex2 rows with
    | [] => cret (fail_result "未加载到商品数据")
    | products =>
        let! s := cget in
        cput (store_products base products s) ;;!
        batch_upload_products_from_data env
          (AList (map IDict (seq base (List.length products))))
    end.

(** The products [convert_csv_to_product_format] builds have no
    ["main_image"], lack ["product_name"], the first field
    [add_product] requires, and have no ["product_id"]. *)
Definition csv_product_shape (p : dict) : Prop :=
  has_key p "main_image" = false /\ missing_field p = Some "product_name" /\
  dict_get p "product_id" PNone = PNone.

(** The [error_list] entry of the [i]-th product when [add_product]
    reports the missing ["product_name"]. *)
Definition missing_name_entry (i : nat) : pyval :=
  PDict [("index", PInt (Z.of_nat i)); ("product_id", PNone);
         ("error", PStr "缺少必填字段: product_name")].

End CsvBatch.
(** * Proof tools and helper lemmas *)

Ltac usp_norm :=
  unfold mtry, init_part, mbind, get_st, mret, mraise, emit, put_st,
    call_add_product, sleep_wait, sleep;
  cbn -[Nat.ltb truthy py_eq_zero py_in_ints dict_get response_or_default
        usp _validate_product_data retry_trace_from].

Lemma retry_trace_from_step (r m : nat) :
  r <= m ->
  retry_trace_from r m =
    [EInvoke r; ECall] ++ (if r <? m then [EWait ((r + 1) * 2)] else [])
    ++ retry_trace_from (S r) m.
Proof.
  intros H. unfold retry_trace_from.
  replace (S m - r) with (S (S m - S r)) by lia. simpl.
  destruct (r <? m); reflexivity.
Qed.

Lemma retry_trace_from_end (m : nat) : retry_trace_from (S m) m = [].
Proof. unfold retry_trace_from. now rewrite Nat.sub_diag. Qed.

Lemma count_calls_app (e1 e2 : list event) :
  count_calls (e1 ++ e2) = count_calls e1 + count_calls e2.
Proof. induction e1 as [|[] e1 IH]; simpl; auto. Qed.

Lemma count_calls_retry_trace_from (k r m : nat) :
  r + k = S m -> count_calls (retry_trace_from r m) = k.
Proof.
  revert r. induction k as [|k IH]; intros r H.
  - replace r with (S m) by lia. now rewrite retry_trace_from_end.
  - rewrite retry_trace_from_step by lia.
    rewrite !count_calls_app, (IH (S r)) by lia.
    destruct (r <? m); simpl; lia.
Qed.

(** With a client present and only retryable answers, the invocations
    [r .. max_retries] each make one call, with the linear waits between
    them, and the item fails. *)
Lemma usp_retry_all (w : World) (cfg : Config) (p : dict) :
  _validate_product_data w p = Some true ->
  (forall n, retryable (add_outcome w n) = true) ->
  forall k r fuel st, r + k = max_retries cfg -> k < fuel -> api_client st = true ->
  exists st' resp, usp w cfg fuel r p st =
    (st', retry_trace_from r (max_retries cfg), Ret (false, resp)) /\
    api_client st' = true.
Proof.
  intros Hv Hr k. induction k as [|k IH]; intros r fuel st Hrk Hf Hc;
    (destruct fuel as [|fuel]; [lia|]);
    [assert (Hlt : (r <? max_retries cfg) = false) by (apply Nat.ltb_ge; lia)
    |assert (Hlt : (r <? max_retries cfg) = true) by (apply Nat.ltb_lt; lia)];
    rewrite retry_trace_from_step by lia; rewrite Hlt;
    cbn [usp]; unfold mbind at 1, emit at 1; rewrite Hv;
    usp_norm; rewrite Hc; usp_norm; rewrite Hc, Hlt;
    specialize (Hr (n_add st));
    destruct (add_outcome w (n_add st)) as [resp|e] eqn:Ha; usp_norm; rewrite ?Ha.
  all: try (destruct resp; cbn [retryable] in Hr; try discriminate Hr;
    apply andb_prop in Hr as [Hr Hin]; apply andb_prop in Hr as [Ht Hz];
    apply negb_true_iff in Hz, Hin; rewrite ?Ht, ?Hz, ?Hin; usp_norm).
  - replace (S r) with (S (max_retries cfg)) by lia. rewrite retry_trace_from_end.
    do 2 eexists. split; [reflexivity | exact Hc].
  - replace (S r) with (S (max_retries cfg)) by lia. rewrite retry_trace_from_end.
    do 2 eexists. split; [reflexivity | exact Hc].
  - match goal with |- context[usp w cfg fuel (S r) p ?s] =>
      destruct (IH (S r) fuel s) as (st' & resp' & Hu & Hc'); [lia | lia | exact Hc |]
    end.
    rewrite Hu. cbn -[retry_trace_from]. rewrite ?app_nil_r.
    do 2 eexists. split; [reflexivity | exact Hc'].
  - match goal with |- context[usp w cfg fuel (S r) p ?s] =>
      destruct (IH (S r) fuel s) as (st' & resp' & Hu & Hc'); [lia | lia | exact Hc |]
    end.
    rewrite Hu. cbn -[retry_trace_from]. rewrite ?app_nil_r.
    do 2 eexists. split; [reflexivity | exact Hc'].
Qed.

Lemma dict_get_errcode (v : pyval) :
  dict_get [("errcode", v)] "errcode" PNone = v.
Proof. reflexivity. Qed.

Section TokenLemmas.

Import Token.

Definition is_idle (t : thread) : nat := match t with TIdle => 1 | _ => 0 end.

Lemma count_idle_cons (x : thread) (ts : list thread) :
  count_idle (x :: ts) = is_idle x + count_idle ts.
Proof. destruct x; reflexivity. Qed.

Lemma count_idle_set (ts : list thread) (t : nat) (x y : thread) :
  nth_error ts t = Some x ->
  count_idle (set_thread ts t y) + is_idle x = count_idle ts + is_idle y.
Proof.
  revert t. induction ts as [|z ts IH]; intros [|t] H; try discriminate H.
  - injection H as ->. unfold set_thread. simpl skipn. simpl firstn.
    simpl app. rewrite !count_idle_cons. lia.
  - change (set_thread (z :: ts) (S t) y) with (z :: set_thread ts t y).
    rewrite !count_idle_cons. simpl in H. specialize (IH t H). lia.
Qed.

Lemma step_calls_bound (config_ok : bool) (now : Z) (auth : nat -> auth_res)
  (s : Sys) (t k : nat) :
  calls s + count_idle (threads s) <= k ->
  calls (step config_ok now auth s t) + count_idle (threads (step config_ok now auth s t)) <= k.
Proof.
  intros H. unfold step.
  destruct (nth_error (threads s) t) as [[| |r]|] eqn:Hn; auto.
  - destruct (refresh_check config_ok now (tok s)) as [r|].
    + pose proof (count_idle_set _ _ _ (TDone r) Hn) as E. simpl in *; lia.
    + pose proof (count_idle_set _ _ _ TWaiting Hn) as E. simpl in *; lia.
  - destruct (refresh_finish now (auth t) (tok s)) as [r st'].
    pose proof (count_idle_set _ _ _ (TDone r) Hn) as E. simpl in *; lia.
Qed.

Lemma step_calls_mono (config_ok : bool) (now : Z) (auth : nat -> auth_res)
  (s : Sys) (t : nat) :
  calls s <= calls (step config_ok now auth s t).
Proof.
  unfold step. destruct (nth_error (threads s) t) as [[| |r]|]; auto.
  - destruct (refresh_check config_ok now (tok s)); simpl; lia.
  - destruct (refresh_finish now (auth t) (tok s)); simpl; lia.
Qed.

Lemma run_calls_bound (config_ok : bool) (now : Z) (auth : nat -> auth_res)
  (sched : list nat) (s : Sys) (k : nat) :
  calls s + count_idle (threads s) <= k ->
  calls (run config_ok now auth sched s) <= k.
Proof.
  unfold run. revert s. induction sched as [|t sched IH]; intros s H; simpl.
  - lia.
  - apply IH. apply step_calls_bound. exact H.
Qed.

Lemma run_calls_mono (config_ok : bool) (now : Z) (auth : nat -> auth_res)
  (sched : list nat) (s : Sys) :
  calls s <= calls (run config_ok now auth sched s).
Proof.
  unfold run. revert s. induction sched as [|t sched IH]; intros s; simpl.
  - lia.
  - etransitivity; [apply (step_calls_mono config_ok now auth s t) | apply IH].
Qed.

Lemma count_idle_repeat (k : nat) : count_idle (repeat TIdle k) = k.
Proof.
  induction k as [|k IH]; [reflexivity |].
  cbn [repeat]. rewrite count_idle_cons, IH. reflexivity.
Qed.

Lemma set_thread_middle (l1 l2 : list thread) (x y : thread) (n : nat) :
  List.length l1 = n -> set_thread (l1 ++ x :: l2) n y = l1 ++ y :: l2.
Proof.
  intros <-. unfold set_thread. induction l1 as [|z l1 IH]; simpl; auto.
  f_equal. exact IH.
Qed.

Lemma nth_error_middle (l1 l2 : list thread) (x : thread) (n : nat) :
  List.length l1 = n -> nth_error (l1 ++ x :: l2) n = Some x.
Proof. intros <-. induction l1 as [|z l1 IH]; simpl; auto. Qed.

(** All [k] callers check the cache before any response arrives. *)
Lemma run_checks_first (config_ok : bool) (now : Z) (auth : nat -> auth_res)
  (st : TokState) (k : nat) :
  refresh_check config_ok now st = None ->
  forall j, j <= k ->
  run config_ok now auth (seq 0 j) (start st k) =
    {| tok := st; calls := j;
       threads := repeat TWaiting j ++ repeat TIdle (k - j) |}.
Proof.
  intros Hc j. induction j as [|j IH]; intros Hj.
  - unfold run, start. simpl. rewrite Nat.sub_0_r. reflexivity.
  - rewrite seq_S. unfold run in *. rewrite fold_left_app, IH by lia.
    simpl fold_left. simpl plus.
    replace (k - j) with (S (k - S j)) by lia. simpl repeat at 2.
    unfold step. simpl threads.
    rewrite nth_error_middle by apply repeat_length. simpl tok. rewrite Hc.
    rewrite set_thread_middle by apply repeat_length.
    assert (E : repeat TWaiting (S j) = repeat TWaiting j ++ [TWaiting]).
    { clear. induction j as [|j IH]; [reflexivity |]. cbn [repeat app] in *. rewrite <- IH. reflexivity. }
    rewrite E, <- app_assoc. reflexivity.
Qed.

End TokenLemmas.

Lemma batch_items_cons_inv (w : World) (cfg : Config) (i j blen : nat)
  (p : dict) (rest : list dict) (results res : batch_result) (st st' : St)
  (ev : list event) :
  upload_batch_items w cfg i j blen (p :: rest) results st = (st', ev, Ret res) ->
  exists t st1 ev1 ok resp st2 ev2,
    getitem p "title" = inr t /\
    upload_single_product w cfg p st = (st1, ev1, Ret (ok, resp)) /\
    upload_batch_items w cfg i (S j) blen rest
      (record_detail results (mk_detail (i + j + 1) p t ok resp)) st2 =
      (st', ev2, Ret res) /\
    ev = EItem (i + j + 1) :: ev1 ++
         (if j <? blen - 1 then [EPace (request_interval cfg)] else []) ++ ev2.
Proof.
  intros H. cbn [upload_batch_items] in H.
  unfold mbind, lift, emit, mret, mraise in H.
  destruct (getitem p "title") as [e|t] eqn:Ht; [discriminate H|].
  destruct (upload_single_product w cfg p st) as [[st1 ev1] [[ok resp]|e]] eqn:Hu;
    [|discriminate H].
  destruct (j <? blen - 1); unfold sleep in H; cbn in H;
  match type of H with
  | context[upload_batch_items w cfg i (S j) blen rest ?r ?s] =>
      destruct (upload_batch_items w cfg i (S j) blen rest r s)
        as [[st2 ev2] o2] eqn:Hrec
  end;
  destruct o2 as [res2|e2]; inversion H; subst;
  do 7 eexists; (split; [reflexivity|]); (split; [reflexivity|]);
  (split; [exact Hrec|]); simpl; rewrite ?app_nil_r; reflexivity.
Qed.


Lemma inner_ret {A} (a : A) : m_inner (mret a).
Proof. intros st st' ev o H. injection H as _ <- _. constructor. Qed.

Lemma inner_raise {A} (e : py_exc) : m_inner (@mraise A e).
Proof. intros st st' ev o H. injection H as _ <- _. constructor. Qed.

Lemma inner_get : m_inner get_st.
Proof. intros st st' ev o H. injection H as _ <- _. constructor. Qed.

Lemma inner_put (s : St) : m_inner (put_st s).
Proof. intros st st' ev o H. injection H as _ <- _. constructor. Qed.

Lemma inner_sleep (q : Q) : m_inner (sleep q).
Proof. intros st st' ev o H. injection H as _ <- _. constructor. Qed.

Lemma inner_emit (e : event) : inner_event e -> m_inner (emit e).
Proof. intros He st st' ev o H. injection H as _ <- _. repeat constructor. exact He. Qed.

Lemma inner_bind {A B} (m : M A) (k : A -> M B) :
  m_inner m -> (forall a, m_inner (k a)) -> m_inner (mbind m k).
Proof.
  intros Hm Hk st st' ev o H. unfold mbind in H.
  destruct (m st) as [[st1 ev1] [a|e]] eqn:E1.
  - destruct (k a st1) as [[st2 ev2] o2] eqn:E2. injection H as _ <- _.
    apply Forall_app. split; [exact (Hm _ _ _ _ E1) | exact (Hk a _ _ _ _ E2)].
  - injection H as _ <- _. exact (Hm _ _ _ _ E1).
Qed.

Lemma inner_try {A B} (m : M A) (h : py_exc -> M B) (k : A -> M B) :
  m_inner m -> (forall e, m_inner (h e)) -> (forall a, m_inner (k a)) ->
  m_inner (mtry m h k).
Proof.
  intros Hm Hh Hk st st' ev o H. unfold mtry in H.
  destruct (m st) as [[st1 ev1] [a|e]] eqn:E1.
  - destruct (k a st1) as [[st2 ev2] o2] eqn:E2. injection H as _ <- _.
    apply Forall_app. split; [exact (Hm _ _ _ _ E1) | exact (Hk a _ _ _ _ E2)].
  - destruct (h e st1) as [[st2 ev2] o2] eqn:E2. injection H as _ <- _.
    apply Forall_app. split; [exact (Hm _ _ _ _ E1) | exact (Hh e _ _ _ _ E2)].
Qed.

Ltac inner_tac :=
  repeat lazymatch goal with
  | |- m_inner (mbind _ _) => apply inner_bind; [| intros ?]
  | |- m_inner (mtry _ _ _) => apply inner_try; [| intros ? | intros ?]
  | |- m_inner (mret _) => apply inner_ret
  | |- m_inner (mraise _) => apply inner_raise
  | |- m_inner get_st => apply inner_get
  | |- m_inner (put_st _) => apply inner_put
  | |- m_inner (sleep _) => apply inner_sleep
  | |- m_inner (emit _) => apply inner_emit; exact I
  | |- m_inner init_part => unfold init_part
  | |- m_inner (init_part _) => unfold init_part
  | |- m_inner (call_add_product _) => unfold call_add_product
  | |- m_inner (sleep_wait _) => unfold sleep_wait
  | |- m_inner (if ?b then _ else _) => destruct b
  | |- m_inner (match ?x with _ => _ end) => destruct x
  | |- m_inner (let _ := _ in _) => cbv zeta
  end.

Lemma usp_inner (w : World) (cfg : Config) (fuel r : nat) (p : dict) :
  m_inner (usp w cfg fuel r p).
Proof.
  revert r. induction fuel as [|fuel IH]; intros r; cbn [usp].
  - apply inner_raise.
  - inner_tac; try apply IH.
Qed.

Lemma safe_ret {A} (a : A) : m_safe (mret a).
Proof. intros st. do 3 eexists. reflexivity. Qed.

Lemma safe_get : m_safe get_st.
Proof. intros st. do 3 eexists. reflexivity. Qed.

Lemma safe_put (s : St) : m_safe (put_st s).
Proof. intros st. do 3 eexists. reflexivity. Qed.

Lemma safe_sleep (q : Q) : m_safe (sleep q).
Proof. intros st. do 3 eexists. reflexivity. Qed.

Lemma safe_emit (e : event) : m_safe (emit e).
Proof. intros st. do 3 eexists. reflexivity. Qed.

Lemma safe_lift {A} (a : A) : m_safe (@lift A (inr a)).
Proof. intros st. do 3 eexists. reflexivity. Qed.

Lemma safe_bind {A B} (m : M A) (k : A -> M B) :
  m_safe m -> (forall a, m_safe (k a)) -> m_safe (mbind m k).
Proof.
  intros Hm Hk st. unfold mbind.
  destruct (Hm st) as (st1 & ev1 & a & ->).
  destruct (Hk a st1) as (st2 & ev2 & b & ->). do 3 eexists. reflexivity.
Qed.

Lemma safe_try {A B} (m : M A) (h : py_exc -> M B) (k : A -> M B) :
  m_safe m -> (forall a, m_safe (k a)) -> m_safe (mtry m h k).
Proof.
  intros Hm Hk st. unfold mtry.
  destruct (Hm st) as (st1 & ev1 & a & ->).
  destruct (Hk a st1) as (st2 & ev2 & b & ->). do 3 eexists. reflexivity.
Qed.

Lemma safe_try_h {A B} (m : M A) (h : py_exc -> M B) (k : A -> M B) :
  (forall e, m_safe (h e)) -> (forall a, m_safe (k a)) -> m_safe (mtry m h k).
Proof.
  intros Hh Hk st. unfold mtry.
  destruct (m st) as [[st1 ev1] [a|e]].
  - destruct (Hk a st1) as (st2 & ev2 & b & ->). do 3 eexists. reflexivity.
  - destruct (Hh e st1) as (st2 & ev2 & b & ->). do 3 eexists. reflexivity.
Qed.

Lemma init_part_safe (w : World) :
  (forall n e, init_outcome w n <> InitRaise e) -> m_safe (init_part w).
Proof.
  intros Hw. unfold init_part. apply safe_bind; [apply safe_get|]. intros st.
  destruct (api_client st); [apply safe_ret|].
  apply safe_bind; [apply safe_emit|]. intros _.
  destruct (init_outcome w (n_init st)) eqn:Ho;
    [apply safe_put | apply safe_put | exfalso; exact (Hw _ _ Ho)].
Qed.

Lemma usp_safe (w : World) (cfg : Config) (fuel r : nat) (p : dict) :
  (forall n e, init_outcome w n <> InitRaise e) ->
  _validate_product_data w p <> None ->
  r <= max_retries cfg < r + fuel ->
  m_safe (usp w cfg fuel r p).
Proof.
  intros Hw Hv. revert r. induction fuel as [|fuel IH]; intros r Hf; [lia|].
  cbn [usp]. apply safe_bind; [apply safe_emit|]. intros _.
  destruct (_validate_product_data w p) as [[|]|]; [| apply safe_ret | congruence].
  cbv zeta. apply safe_try; [apply init_part_safe, Hw|]. intros _.
  apply safe_try_h; [|intros; apply safe_ret].
  intros e. destruct (r <? max_retries cfg) eqn:Hr; [|apply safe_ret].
  apply safe_bind; [unfold sleep_wait; apply safe_bind; [apply safe_emit|intros; apply safe_sleep]|].
  intros _. apply IH. apply Nat.ltb_lt in Hr. lia.
Qed.

Lemma batch_items_safe (w : World) (cfg : Config) :
  (forall n e, init_outcome w n <> InitRaise e) ->
  forall batch i j blen results,
  (forall p, In p batch -> exists t, getitem p "title" = inr t) ->
  (forall p, In p batch -> _validate_product_data w p <> None) ->
  m_safe (upload_batch_items w cfg i j blen batch results).
Proof.
  intros Hw batch. induction batch as [|p rest IH]; intros i j blen results Ht Hv;
    cbn [upload_batch_items]; [apply safe_ret|].
  destruct (Ht p (or_introl eq_refl)) as [t Hpt]. rewrite Hpt.
  apply safe_bind; [apply safe_lift|]. intros _.
  apply safe_bind; [apply safe_emit|]. intros _.
  apply safe_bind.
  { unfold upload_single_product. apply usp_safe; [exact Hw | apply Hv; left; reflexivity | lia]. }
  intros [ok resp]. apply safe_bind; [apply safe_lift|]. intros t'.
  apply safe_bind.
  { destruct (j <? blen - 1); [apply safe_bind; [apply safe_emit | intros; apply safe_sleep] | apply safe_ret]. }
  intros _. apply IH; intros q Hq; [apply Ht | apply Hv]; right; exact Hq.
Qed.

Lemma pace_points_inner (c : nat) (ev1 ev2 : list event) :
  Forall inner_event ev1 ->
  pace_points_from c (ev1 ++ ev2) = pace_points_from c ev2.
Proof.
  intros H. induction H as [|e ev1 He H IH]; [reflexivity|].
  destruct e; cbn in He |- *; solve [contradiction | exact IH].
Qed.

Lemma pace_points_app (c : nat) (ev1 ev2 : list event) :
  exists c', pace_points_from c (ev1 ++ ev2) =
             pace_points_from c ev1 ++ pace_points_from c' ev2.
Proof.
  revert c. induction ev1 as [|e ev1 IH]; intros c; [exists c; reflexivity|].
  destruct e; cbn [app pace_points_from];
  match goal with
  | |- context[pace_points_from ?c0 (ev1 ++ ev2)] =>
      destruct (IH c0) as [c' Hc']; exists c'; rewrite Hc'; reflexivity
  end.
Qed.

Lemma batch_items_props (w : World) (cfg : Config) :
  forall batch i j blen results st st' ev res,
  j + List.length batch = blen ->
  upload_batch_items w cfg i j blen batch results st = (st', ev, Ret res) ->
  map index (r_details res) =
    map index (r_details results) ++ seq (i + j + 1) (List.length batch) /\
  r_total res = r_total results /\
  r_success res + r_failed res =
    r_success results + r_failed results + List.length batch /\
  (forall c, pace_points_from c ev =
     map (fun k => (k, request_interval cfg))
         (seq (i + j + 1) (List.length batch - 1))).
Proof.
  intros batch. induction batch as [|p rest IH];
    intros i j blen results st st' ev res Hlen H.
  - cbn in H. injection H as <- <- <-. cbn. rewrite app_nil_r.
    repeat split; try lia; reflexivity.
  - apply batch_items_cons_inv in H.
    destruct H as (t & st1 & ev1 & ok & resp & st2 & ev2 & Ht & Hu & Hr & ->).
    cbn [List.length] in Hlen.
    destruct (IH i (S j) blen _ st2 st' ev2 res ltac:(lia) Hr)
      as (Hidx & Htot & Hcnt & Hpace).
    cbn [record_detail mk_detail r_details r_total r_success r_failed success index]
      in Hidx, Htot, Hcnt.
    repeat split.
    + rewrite Hidx, map_app, <- app_assoc. cbn [List.length seq map app].
      do 3 f_equal. lia.
    + exact Htot.
    + cbn [List.length]. destruct ok; lia.
    + intros c. cbn [pace_points_from].
      rewrite pace_points_inner by exact (usp_inner _ _ _ _ _ _ _ _ _ Hu).
      destruct rest as [|q rest'].
      * cbn [List.length] in Hlen |- *. replace (j <? blen - 1) with false
          by (symmetry; apply Nat.ltb_ge; lia).
        cbn [app]. rewrite Hpace. reflexivity.
      * cbn [List.length] in Hlen, Hpace |- *. replace (j <? blen - 1) with true
          by (symmetry; apply Nat.ltb_lt; lia).
        cbn [app pace_points_from]. rewrite Hpace.
        replace (S (S (List.length rest')) - 1) with (S (S (List.length rest') - 1))
          by lia.
        replace (i + S j + 1) with (S (i + j + 1)) by lia. reflexivity.
Qed.

Lemma in_batch (products : list dict) (bs i : nat) (p : dict) :
  In p (firstn bs (skipn i products)) -> In p products.
Proof.
  intros H. rewrite <- (firstn_skipn i products). apply in_or_app. right.
  rewrite <- (firstn_skipn bs (skipn i products)). apply in_or_app. left. exact H.
Qed.

Lemma batches_safe (w : World) (cfg : Config) (products : list dict) :
  (forall n e, init_outcome w n <> InitRaise e) ->
  (forall p, In p products -> exists t, getitem p "title" = inr t) ->
  (forall p, In p products -> _validate_product_data w p <> None) ->
  forall fuel i results, m_safe (upload_batches w cfg fuel i products results).
Proof.
  intros Hw Ht Hv fuel. induction fuel as [|fuel IH]; intros i results;
    cbn [upload_batches]; [apply safe_ret|].
  destruct (i <? List.length products); [|apply safe_ret].
  apply safe_bind; [|intros; apply IH].
  apply batch_items_safe; [exact Hw | |]; intros p Hp;
    [apply Ht | apply Hv]; eapply in_batch; exact Hp.
Qed.

Lemma filter_all_true {A} (f : A -> bool) (l : list A) :
  (forall x, In x l -> f x = true) -> filter f l = l.
Proof.
  induction l as [|x l IH]; intros H; [reflexivity|].
  cbn [filter]. rewrite (H x (or_introl eq_refl)), IH; [reflexivity|].
  intros y Hy. apply H. right. exact Hy.
Qed.

Lemma batch_length (products : list dict) (bs i : nat) :
  List.length (firstn bs (skipn i products)) = Nat.min bs (List.length products - i).
Proof. rewrite length_firstn, length_skipn. reflexivity. Qed.

Lemma seq_batch_split (n bs i : nat) :
  seq (i + 1) (Nat.min bs (n - i)) ++ seq (i + bs + 1) (n - (i + bs)) =
  seq (i + 1) (n - i).
Proof.
  destruct (Nat.le_gt_cases (i + bs) n) as [Hle|Hgt].
  - rewrite Nat.min_l by lia. replace (i + bs + 1) with (i + 1 + bs) by lia.
    rewrite <- seq_app. f_equal; lia.
  - rewrite Nat.min_r by lia. replace (n - (i + bs)) with 0 by lia.
    apply app_nil_r.
Qed.

Lemma filter_paced_batch (n bs b i : nat) :
  1 <= bs -> i = b * bs -> i < n ->
  filter (paced bs n) (seq (i + 1) (Nat.min bs (n - i))) =
  seq (i + 1) (Nat.min bs (n - i) - 1).
Proof.
  intros Hbs Hi Hn. set (blen := Nat.min bs (n - i)).
  assert (Hb1 : 1 <= blen) by (unfold blen; lia).
  replace blen with (S (blen - 1)) at 1 by lia. rewrite seq_S, filter_app.
  rewrite filter_all_true.
  2:{ intros k Hk. apply in_seq in Hk. unfold paced.
      apply andb_true_intro. split.
      - apply negb_true_iff, Nat.eqb_neq.
        replace k with ((k - i) + b * bs) by lia.
        rewrite Nat.Div0.mod_add by lia. rewrite Nat.mod_small by (unfold blen in *; lia).
        lia.
      - apply Nat.ltb_lt. unfold blen in *; lia. }
  cbn [filter]. replace (paced bs n (i + 1 + (blen - 1))) with false.
  { apply app_nil_r. }
  symmetry. unfold paced.
  destruct (Nat.le_gt_cases (i + bs) n) as [Hle|Hgt].
  - apply andb_false_intro1. apply negb_false_iff, Nat.eqb_eq.
    replace (i + 1 + (blen - 1)) with (1 * bs + b * bs) by (unfold blen; nia).
    rewrite Nat.Div0.mod_add, Nat.mul_1_l, Nat.Div0.mod_same; lia.
  - apply andb_false_intro2. apply Nat.ltb_ge. unfold blen. lia.
Qed.

Lemma batches_props (w : World) (cfg : Config) (products : list dict) :
  1 <= batch_size cfg ->
  forall fuel i results st st' ev res,
  (exists b, i = b * batch_size cfg) ->
  List.length products <= i + fuel * batch_size cfg ->
  upload_batches w cfg fuel i products results st = (st', ev, Ret res) ->
  map index (r_details res) =
    map index (r_details results) ++ seq (i + 1) (List.length products - i) /\
  r_total res = r_total results /\
  r_success res + r_failed res =
    r_success results + r_failed results + (List.length products - i) /\
  (forall c, pace_points_from c ev =
     map (fun k => (k, request_interval cfg))
         (filter (paced (batch_size cfg) (List.length products))
                 (seq (i + 1) (List.length products - i)))).
Proof.
  intros Hbs fuel. set (n := List.length products). set (bs := batch_size cfg).
  induction fuel as [|fuel IH]; intros i results st st' ev res [b Hb] Hfuel H;
    cbn [upload_batches] in H.
  - injection H as <- <- <-. replace (n - i) with 0 by lia. cbn.
    rewrite app_nil_r. repeat split; lia.
  - destruct (i <? List.length products) eqn:Hi.
    2:{ apply Nat.ltb_ge in Hi. injection H as <- <- <-.
        replace (n - i) with 0 by (unfold n; lia). cbn.
        rewrite app_nil_r. repeat split; lia. }
    apply Nat.ltb_lt in Hi. unfold mbind in H.
    destruct (upload_batch_items w cfg i 0
                (List.length (firstn (batch_size cfg) (skipn i products)))
                (firstn (batch_size cfg) (skipn i products)) results st)
      as [[st1 ev1] [r1|e]] eqn:E1; [|discriminate H].
    destruct (upload_batches w cfg fuel (i + batch_size cfg) products r1 st1)
      as [[st2 ev2] o2] eqn:E2.
    injection H as <- <- ->.
    destruct (batch_items_props w cfg _ i 0 _ results st st1 ev1 r1 eq_refl E1)
      as (Hidx1 & Htot1 & Hcnt1 & Hpace1).
    assert (Hb' : exists b', i + bs = b' * batch_size cfg)
      by (exists (S b); unfold bs in *; nia).
    assert (Hfuel' : List.length products <= i + bs + fuel * batch_size cfg)
      by (unfold bs, n in *; nia).
    destruct (IH (i + bs) r1 st1 st2 ev2 res Hb' Hfuel' E2)
      as (Hidx2 & Htot2 & Hcnt2 & Hpace2).
    rewrite batch_length in Hidx1, Hcnt1, Hpace1. fold n bs in Hidx1, Hcnt1, Hpace1.
    replace (i + 0 + 1) with (i + 1) in Hidx1, Hpace1 by lia.
    repeat split.
    + rewrite Hidx2, Hidx1, <- app_assoc. f_equal. apply seq_batch_split.
    + congruence.
    + rewrite Hcnt2, Hcnt1. unfold n, bs. lia.
    + intros c. destruct (pace_points_app c ev1 ev2) as [c' ->].
      rewrite Hpace1, Hpace2, <- map_app. f_equal.
      rewrite <- (seq_batch_split n bs i), filter_app. f_equal.
      symmetry. apply (filter_paced_batch n bs b i); unfold bs, n in *; lia.
Qed.

Lemma upload_products_props (w : World) (cfg : Config) (products : list dict)
  (st st' : St) (ev : list event) (res : batch_result) :
  upload_products w cfg products st = (st', ev, Ret res) ->
  map index (r_details res) = seq 1 (List.length products) /\
  (products <> [] ->
   r_total res = List.length products /\
   r_success res + r_failed res = List.length products /\
   r_duration res <> None /\ r_success_rate res <> None) /\
  pace_points ev =
    map (fun k => (k, request_interval cfg))
        (filter (paced (batch_size cfg) (List.length products))
                (seq 1 (List.length products))).
Proof.
  intros H. destruct products as [|p ps].
  - cbn in H. injection H as <- <- <-. cbn. repeat split; congruence.
  - unfold upload_products, mbind, get_st, mret, mraise in H.
    destruct (batch_size cfg =? 0) eqn:Hbs; [discriminate H|].
    apply Nat.eqb_neq in Hbs.
    match type of H with
    | context[upload_batches w cfg ?f 0 ?l ?r st] =>
        destruct (upload_batches w cfg f 0 l r st) as [[st1 ev1] [r1|e]] eqn:E1;
          [|discriminate H];
        destruct (batches_props w cfg l ltac:(lia) f 0 r st st1 ev1 r1
                    (ex_intro _ 0 eq_refl) ltac:(cbn [List.length]; nia) E1)
          as (Hidx & Htot & Hcnt & Hpace)
    end.
    injection H as <- <- <-. cbn [finish r_details r_total r_success r_failed
      r_duration r_success_rate] in *.
    rewrite Nat.sub_0_r in Hidx, Hcnt, Hpace. cbn [Nat.add] in Hidx, Hpace.
    repeat split.
    + exact Hidx.
    + exact Htot.
    + rewrite Hcnt. reflexivity.
    + discriminate.
    + discriminate.
    + cbn [app]. rewrite app_nil_r. apply Hpace.
Qed.

Lemma upload_products_safe (w : World) (cfg : Config) (products : list dict) :
  1 <= batch_size cfg ->
  (forall n e, init_outcome w n <> InitRaise e) ->
  (forall p, In p products -> exists t, getitem p "title" = inr t) ->
  (forall p, In p products -> _validate_product_data w p <> None) ->
  m_safe (upload_products w cfg products).
Proof.
  intros Hbs Hw Ht Hv. destruct products as [|p ps]; [apply safe_ret|].
  unfold upload_products. apply safe_bind; [apply safe_get|]. intros st0.
  replace (batch_size cfg =? 0) with false by (symmetry; apply Nat.eqb_neq; lia).
  apply safe_bind; [apply safe_ret|]. intros _.
  apply safe_bind; [apply batches_safe; assumption|]. intros r.
  apply safe_bind; [apply safe_get|]. intros st1. apply safe_ret.
Qed.

Lemma gather_indices (task_result : nat -> outcome (bool * pyval)) :
  forall (l : list dict) (s : nat) (ds : list detail),
  gather (map (fun ip => upload_with_semaphore task_result (snd ip) (S (fst ip)))
              (combine (seq s (List.length l)) l)) = Ret ds ->
  map index ds = seq (S s) (List.length l).
Proof.
  induction l as [|p l IH]; intros s ds H.
  - cbn in H. injection H as <-. reflexivity.
  - cbn [List.length seq combine map gather fst snd] in H.
    unfold upload_with_semaphore at 1 in H.
    destruct (getitem p "title") as [e|t]; [discriminate H|].
    destruct (task_result (S s)) as [[ok resp]|e]; [|discriminate H].
    destruct (gather _) as [ds'|e] eqn:Hg; [|discriminate H].
    injection H as <-. cbn [map mk_detail index List.length seq]. f_equal.
    apply (IH (S s) ds' Hg).
Qed.

Lemma fold_record_details (ds : list detail) :
  forall results,
  r_details (fold_left record_detail ds results) = r_details results ++ ds.
Proof.
  induction ds as [|d ds IH]; intros results; cbn [fold_left].
  - symmetry. apply app_nil_r.
  - rewrite IH. cbn [record_detail r_details]. rewrite <- app_assoc. reflexivity.
Qed.

Lemma upload_products_async_indices (task_result : nat -> outcome (bool * pyval))
  (elapsed : Q) (products : list dict) (res : batch_result) :
  upload_products_async task_result elapsed products = Ret res ->
  map index (r_details res) = seq 1 (List.length products).
Proof.
  intros H. destruct products as [|p ps].
  - cbn in H. injection H as <-. reflexivity.
  - unfold upload_products_async in H.
    destruct (gather _) as [ds|e] eqn:Hg; [|discriminate H].
    injection H as <-. cbn [finish r_details]. rewrite fold_record_details.
    cbn [r_details app]. apply (gather_indices task_result (p :: ps) 0 ds Hg).
Qed.

Lemma indices_nth (ds : list detail) (n : nat) :
  map index ds = seq 1 n ->
  List.length ds = n /\
  (forall k d, nth_error ds k = Some d -> index d = S k).
Proof.
  intros H. split.
  - rewrite <- (length_map index ds), H. apply length_seq.
  - intros k d Hk.
    assert (Hm : nth_error (map index ds) k = Some (index d))
      by (rewrite nth_error_map, Hk; reflexivity).
    rewrite H in Hm.
    assert (Hlt : k < n).
    { rewrite <- (length_seq n 1). apply nth_error_Some. congruence. }
    rewrite (nth_error_nth' _ 0) in Hm by (rewrite length_seq; exact Hlt).
    rewrite seq_nth in Hm by exact Hlt. injection Hm as Hm. lia.
Qed.

(** * Results *)

(** ** Item that fails validation *)

(** C9: an item for which [_validate_product_data] returns [False] is
    answered after one invocation, with no client initialisation, no
    [add_product] call, no wait and no state change. *)
Theorem C9_validation_failure_fails_fast (w : World) (cfg : Config)
  (product : dict) (st : St) :
  _validate_product_data w product = Some false ->
  upload_single_product w cfg product st =
    (st, [EInvoke 0], Ret (false, PDict [("error", PStr "商品数据验证失败")])).
Proof.
  intros Hv. unfold upload_single_product. simpl.
  unfold mbind, emit. rewrite Hv. reflexivity.
Qed.

Lemma C9_witness :
  _validate_product_data (world_code 0) untitled_product = Some false /\
  upload_single_product (world_code 0) (config_bs 10) untitled_product st_ready =
    (st_ready, [EInvoke 0],
     Ret (false, PDict [("error", PStr "商品数据验证失败")])).
Proof.
  split.
  - reflexivity.
  - apply C9_validation_failure_fails_fast. reflexivity.
Defined.

(** ** Unbound [max_retries] *)

(** C10: called with no client, when re-initialisation raises, the handler
    reads the local [max_retries] before its assignment and the call raises
    [UnboundLocalError] (a [NameError]) instead of returning a pair. *)
Theorem C10_unbound_max_retries (w : World) (cfg : Config) (product : dict)
  (st : St) (e : py_exc) :
  _validate_product_data w product = Some true ->
  api_client st = false ->
  init_outcome w (n_init st) = InitRaise e ->
  upload_single_product w cfg product st =
    (bump_init st, [EInvoke 0; EInit], Raise (NameError "max_retries")).
Proof.
  intros Hv Hc Hi. unfold upload_single_product. simpl.
  unfold mbind, emit. rewrite Hv.
  unfold mtry, init_part, mbind, get_st, emit, put_st, mraise.
  rewrite Hc. simpl. rewrite Hi. reflexivity.
Qed.

Lemma C10_witness :
  _validate_product_data world_init_fails good_product = Some true /\
  api_client st_no_client = false /\
  init_outcome world_init_fails (n_init st_no_client) = InitRaise (Raised "init failed") /\
  upload_single_product world_init_fails (config_bs 10) good_product st_no_client =
    (bump_init st_no_client, [EInvoke 0; EInit], Raise (NameError "max_retries")).
Proof.
  split; [reflexivity |]. split; [reflexivity |]. split; [reflexivity |].
  apply (C10_unbound_max_retries _ _ _ _ (Raised "init failed")); reflexivity.
Defined.

(** ** Operation history *)

(** C8 (divergence): [add_product] appends to [operation_history] without the
    cap of [_record_operation]; 501 successful calls on a fresh client leave
    1001 entries. *)
Theorem C8_history_exceeds_cap :
  List.length (Nat.iter 501
                 (History.add_product "/channels/ec/product/add" true
                                      History.ReqSuccess) []) = 1001.
Proof. vm_compute. reflexivity. Qed.

(** ** Retries *)

(** C5: when every [add_product] answer is retryable, [upload_single_product]
    makes [max_retries + 1] invocations with one call each, sleeps
    [(retry_count + 1) * 2] seconds before each retry, and returns failure. *)
Theorem C5_persistent_retryable_failure (w : World) (cfg : Config)
  (product : dict) (st : St) :
  _validate_product_data w product = Some true ->
  api_client st = true ->
  (forall n, retryable (add_outcome w n) = true) ->
  exists st' resp,
    upload_single_product w cfg product st =
      (st', retry_trace (max_retries cfg), Ret (false, resp)) /\
    count_calls (retry_trace (max_retries cfg)) = S (max_retries cfg).
Proof.
  intros Hv Hc Hr.
  destruct (usp_retry_all w cfg product Hv Hr (max_retries cfg) 0
              (S (max_retries cfg)) st) as (st' & resp & Hu & _);
    [lia | lia | exact Hc |].
  exists st', resp. split; [exact Hu |].
  apply count_calls_retry_trace_from. lia.
Qed.

Lemma C5_witness :
  exists st' resp,
    upload_single_product (world_code 40001) (config_bs 10) good_product st_ready =
      (st', retry_trace 3, Ret (false, resp)) /\
    count_calls (retry_trace 3) = 4.
Proof.
  apply (C5_persistent_retryable_failure (world_code 40001) (config_bs 10)
           good_product st_ready).
  - vm_compute. reflexivity.
  - reflexivity.
  - intros n. reflexivity.
Defined.

(** C4 (counterexample): an item always answered with [errcode] 40001 is
    retried; [add_product] is called 4 times under the default
    [max_retries = 3], not once. *)
Lemma C4_errcode_40001_is_retried :
  exists st' ev resp,
    upload_single_product (world_code 40001) (config_bs 10) good_product st_ready =
      (st', ev, Ret (false, resp)) /\ count_calls ev = 4.
Proof. vm_compute. do 3 eexists. split; reflexivity. Qed.

(** C4 (amended): for an item always answered with [{'errcode': c}], [c <> 0],
    [upload_single_product] makes one call and fails when [c] is 400, 401 or
    403, and otherwise (40001 included) makes [max_retries + 1] calls with
    the retry waits before failing. *)
Theorem C4_errcode_classification (w : World) (cfg : Config) (product : dict)
  (st : St) (c : Z) :
  _validate_product_data w product = Some true ->
  api_client st = true ->
  (forall n, add_outcome w n = AddRet (PDict [("errcode", PInt c)])) ->
  c <> 0%Z ->
  exists st' resp,
    upload_single_product w cfg product st =
      (st', if existsb (Z.eqb c) non_retryable_codes
            then [EInvoke 0; ECall] else retry_trace (max_retries cfg),
       Ret (false, resp)).
Proof.
  intros Hv Hc Ha Hc0.
  assert (Hz : py_eq_zero (PInt c) = false) by (apply Z.eqb_neq; exact Hc0).
  destruct (existsb (Z.eqb c) non_retryable_codes) eqn:Hin.
  - unfold upload_single_product. cbn [usp]. unfold mbind at 1, emit at 1.
    rewrite Hv. usp_norm. rewrite Hc. usp_norm. rewrite Hc. usp_norm. rewrite Ha. usp_norm.
    rewrite dict_get_errcode, Hz.
    assert (Hi : py_in_ints (PInt c) non_retryable_codes = true) by exact Hin.
    rewrite Hi, andb_false_r. usp_norm.
    do 2 eexists. reflexivity.
  - assert (Hr : forall n, retryable (add_outcome w n) = true).
    { intros n. rewrite Ha. cbn [retryable]. rewrite dict_get_errcode, Hz.
      change (py_in_ints (PInt c) non_retryable_codes)
        with (existsb (Z.eqb c) non_retryable_codes).
      rewrite Hin. reflexivity. }
    destruct (usp_retry_all w cfg product Hv Hr (max_retries cfg) 0
                (S (max_retries cfg)) st) as (st' & resp & Hu & _);
      [lia | lia | exact Hc |].
    exists st', resp. exact Hu.
Qed.

Lemma C4_witness :
  exists st' resp,
    upload_single_product (world_code 40001) (config_bs 10) good_product st_ready =
      (st', retry_trace 3, Ret (false, resp)).
Proof.
  apply (C4_errcode_classification (world_code 40001) (config_bs 10)
           good_product st_ready 40001).
  - vm_compute. reflexivity.
  - reflexivity.
  - intros n. reflexivity.
  - discriminate.
Defined.

(** ** Token acquisition *)

(** C2 (counterexample): two callers that both check the expired cache
    before the first response arrives send two token requests. *)
Lemma C2_two_callers_two_requests :
  Token.calls (Token.run true 0%Z (fun _ => Token.AuthJson (Some "T") (Some 7200%Z))
                 [0; 1; 0; 1] (Token.start expired_token 2)) = 2.
Proof. reflexivity. Qed.

(** C2 (amended): there is no single-flight.  Each caller sends at most one
    token request, so [k] callers send at most [k]; when the cache is
    invalid and all [k] callers check it before the first response, they
    send exactly [k]. *)
Theorem C2_no_single_flight (config_ok : bool) (now : Z)
  (auth : nat -> Token.auth_res) (st : Token.TokState) (k : nat) :
  (forall sched,
     Token.calls (Token.run config_ok now auth sched (Token.start st k)) <= k) /\
  ((Token.access_token st = "" \/ (Token.token_expire_time st <= now)%Z) ->
   config_ok = true ->
   Token.calls (Token.run config_ok now auth (seq 0 k ++ seq 0 k)
                  (Token.start st k)) = k).
Proof.
  split.
  - intros sched. apply run_calls_bound. simpl. rewrite count_idle_repeat. lia.
  - intros Hinv Hok.
    assert (Hc : Token.refresh_check config_ok now st = None).
    { unfold Token.refresh_check. rewrite Hok.
      destruct Hinv as [H | H].
      - rewrite H. reflexivity.
      - replace (now <? Token.token_expire_time st)%Z with false
          by (symmetry; apply Z.ltb_ge; exact H).
        rewrite andb_false_r. reflexivity. }
    apply Nat.le_antisymm.
    + apply run_calls_bound. simpl. rewrite count_idle_repeat. lia.
    + unfold Token.run. rewrite fold_left_app.
      change (fold_left (Token.step config_ok now auth) (seq 0 k) (Token.start st k))
        with (Token.run config_ok now auth (seq 0 k) (Token.start st k)).
      rewrite (run_checks_first config_ok now auth st k Hc k (le_n k)).
      match goal with
      | |- _ <= Token.calls (fold_left _ _ ?s) =>
          exact (run_calls_mono config_ok now auth (seq 0 k) s)
      end.
Qed.

(** C3 (counterexample): a freshly fetched token is returned whatever its
    [expires_in]; with [expires_in = 600] the stored expiry is already
    past, so the very next check at the same instant refreshes again. *)
Lemma C3_short_lived_token_returned :
  Token._refresh_access_token true 100 100
    (Token.AuthJson (Some "T") (Some 600%Z)) expired_token =
    (Some "T", {| Token.access_token := "T"; Token.token_expire_time := (-500)%Z |}, true) /\
  Token.refresh_check true 100
    {| Token.access_token := "T"; Token.token_expire_time := (-500)%Z |} = None.
Proof. split; reflexivity. Qed.

(** C3 (amended): the cached token is returned, without a request, exactly
    when it is non-empty and [now] is strictly before the stored expiry;
    otherwise any token returned comes from a request, and a successful
    request stores the expiry [now + expires_in - 1200] (default
    [expires_in] 7200). *)
Theorem C3_cache_and_refresh (config_ok : bool) (now_check now_resp : Z)
  (auth : Token.auth_res) (st : Token.TokState) :
  (Token.access_token st <> "" /\ (now_check < Token.token_expire_time st)%Z ->
   Token._refresh_access_token config_ok now_check now_resp auth st =
     (Some (Token.access_token st), st, false)) /\
  (~ (Token.access_token st <> "" /\ (now_check < Token.token_expire_time st)%Z) ->
   (forall r st' called,
      Token._refresh_access_token config_ok now_check now_resp auth st = (r, st', called) ->
      r <> None -> called = true) /\
   (config_ok = true -> forall tok expires_in,
      auth = Token.AuthJson (Some tok) expires_in ->
      Token._refresh_access_token config_ok now_check now_resp auth st =
        (Some tok,
         {| Token.access_token := tok;
            Token.token_expire_time :=
              (now_resp + match expires_in with Some e => e | None => 7200 end
               - 1200)%Z |}, true))).
Proof.
  unfold Token._refresh_access_token, Token.refresh_check.
  split.
  - intros [Hne Hlt].
    apply String.eqb_neq in Hne. rewrite Hne. apply Z.ltb_lt in Hlt. rewrite Hlt.
    reflexivity.
  - intros Hinv.
    assert (Hf : negb (String.eqb (Token.access_token st) "")
                 && (now_check <? Token.token_expire_time st)%Z = false).
    { destruct (negb (String.eqb (Token.access_token st) "")
                && (now_check <? Token.token_expire_time st)%Z) eqn:E; auto.
      apply andb_prop in E as [E1 E2]. exfalso. apply Hinv. split.
      - apply negb_true_iff, String.eqb_neq in E1. exact E1.
      - apply Z.ltb_lt. exact E2. }
    rewrite Hf. split.
    + intros r st' called H Hr. destruct config_ok; simpl in H.
      * destruct (Token.refresh_finish now_resp auth st). congruence.
      * congruence.
    + intros -> tok expires_in ->. reflexivity.
Qed.

(** C1 (counterexample): the index recorded for the first product is [1],
    not its 0-based position [0]. *)
Lemma C1_index_one_based :
  exists st' ev res,
    upload_products (world_code 0) (config_bs 10) [good_product] st_ready =
      (st', ev, Ret res) /\
    map index (r_details res) = [1].
Proof. do 3 eexists. split; vm_compute; reflexivity. Qed.

(** C1: whenever [upload_products] or [upload_products_async] returns, the
    details list has one record per input product, and the record at
    position [k] carries [index = k + 1]: details are in input order,
    numbered from 1. *)
Theorem C1_details_ordered :
  (forall w cfg products st st' ev res,
     upload_products w cfg products st = (st', ev, Ret res) ->
     List.length (r_details res) = List.length products /\
     (forall k d, nth_error (r_details res) k = Some d -> index d = S k)) /\
  (forall task_result elapsed products res,
     upload_products_async task_result elapsed products = Ret res ->
     List.length (r_details res) = List.length products /\
     (forall k d, nth_error (r_details res) k = Some d -> index d = S k)).
Proof.
  split.
  - intros w cfg products st st' ev res H. apply indices_nth.
    apply (upload_products_props w cfg products st st' ev res H).
  - intros task_result elapsed products res H. apply indices_nth.
    exact (upload_products_async_indices task_result elapsed products res H).
Qed.

Lemma C1_witness :
  (exists st' ev res,
     upload_products (world_code 0) (config_bs 2)
       [good_product; good_product; good_product] st_ready = (st', ev, Ret res) /\
     List.length (r_details res) = 3 /\
     (forall k d, nth_error (r_details res) k = Some d -> index d = S k)) /\
  (exists res,
     upload_products_async (fun _ => Ret (true, PDict [("errcode", PInt 0)])) 1%Q
       [good_product; good_product] = Ret res /\
     List.length (r_details res) = 2 /\
     (forall k d, nth_error (r_details res) k = Some d -> index d = S k)).
Proof.
  split.
  - do 3 eexists. split; [vm_compute; reflexivity|].
    eapply (proj1 C1_details_ordered (world_code 0) (config_bs 2)
             [good_product; good_product; good_product] st_ready). vm_compute. reflexivity.
  - eexists. split; [vm_compute; reflexivity|].
    apply (proj2 C1_details_ordered
             (fun _ => Ret (true, PDict [("errcode", PInt 0)])) 1%Q
             [good_product; good_product]). vm_compute. reflexivity.
Defined.

(** C6 (counterexample): a product without a [title] makes the batch call
    raise, and the empty list returns a result without [duration] and
    [success_rate]. *)
Lemma C6_batch_can_raise :
  (exists st' ev e,
     upload_products (world_code 0) (config_bs 10) [untitled_product] st_ready =
       (st', ev, Raise e)) /\
  (exists st' ev res,
     upload_products (world_code 0) (config_bs 10) [] st_ready =
       (st', ev, Ret res) /\
     r_duration res = None /\ r_success_rate res = None).
Proof.
  split; do 3 eexists; [vm_compute; reflexivity|].
  split; [vm_compute; reflexivity | split; reflexivity].
Qed.

(** C6: for a non-empty product list with [batch_size >= 1], every product
    having a [title] and a shape [_validate_product_data] accepts without
    raising, and a client whose re-initialisation never raises,
    [upload_products] returns normally from every state, whatever the
    server answers, with one detail per product, [total], [success] plus
    [failed] equal to the number of products, and [duration] and
    [success_rate] set. *)
Theorem C6_batch_always_complete (w : World) (cfg : Config)
  (products : list dict) :
  products <> [] ->
  1 <= batch_size cfg ->
  (forall n e, init_outcome w n <> InitRaise e) ->
  (forall p, In p products -> exists t, getitem p "title" = inr t) ->
  (forall p, In p products -> _validate_product_data w p <> None) ->
  forall st, exists st' ev res,
    upload_products w cfg products st = (st', ev, Ret res) /\
    List.length (r_details res) = List.length products /\
    r_total res = List.length products /\
    r_success res + r_failed res = List.length products /\
    r_duration res <> None /\ r_success_rate res <> None.
Proof.
  intros Hne Hbs Hw Ht Hv st.
  destruct (upload_products_safe w cfg products Hbs Hw Ht Hv st)
    as (st' & ev & res & H).
  exists st', ev, res. split; [exact H|].
  destruct (upload_products_props w cfg products st st' ev res H)
    as (Hidx & Hfin & _).
  destruct (Hfin Hne) as (Htot & Hcnt & Hdur & Hrate).
  split; [|tauto].
  rewrite <- (length_map index (r_details res)), Hidx. apply length_seq.
Qed.

Lemma C6_witness :
  exists st' ev res,
    upload_products (world_code 1) (config_bs 2) [good_product; good_product]
      st_ready = (st', ev, Ret res) /\
    List.length (r_details res) = 2 /\
    r_total res = 2 /\
    r_success res + r_failed res = 2 /\
    r_duration res <> None /\ r_success_rate res <> None.
Proof.
  apply (C6_batch_always_complete (world_code 1) (config_bs 2)
           [good_product; good_product]).
  - discriminate.
  - vm_compute. lia.
  - intros n e. discriminate.
  - intros p [<-|[<-|[]]]; eexists; reflexivity.
  - intros p [<-|[<-|[]]]; vm_compute; discriminate.
Defined.

(** C7 (counterexample): with [batch_size = 1] and two products, no pacing
    sleep follows the first product, which is not the last of the list. *)
Lemma C7_no_pace_across_batches :
  exists st' ev res,
    upload_products (world_code 0) (config_bs 1) [good_product; good_product]
      st_ready = (st', ev, Ret res) /\
    pace_points ev = [].
Proof. do 3 eexists. split; vm_compute; reflexivity. Qed.

(** C7: when [upload_products] returns, its trace has exactly one pacing
    sleep of [request_interval] after each product [k] (1-based) that is
    not the last product of its batch of [batch_size], and none
    elsewhere. *)
Theorem C7_pacing_within_batches (w : World) (cfg : Config)
  (products : list dict) (st st' : St) (ev : list event) (res : batch_result) :
  upload_products w cfg products st = (st', ev, Ret res) ->
  pace_points ev =
    map (fun k => (k, request_interval cfg))
        (filter (paced (batch_size cfg) (List.length products))
                (seq 1 (List.length products))).
Proof.
  intros H. exact (proj2 (proj2 (upload_products_props w cfg products st st' ev res H))).
Qed.

Lemma C7_witness :
  exists st' ev res,
    upload_products (world_code 0) (config_bs 2)
      [good_product; good_product; good_product] st_ready = (st', ev, Ret res) /\
    pace_points ev = map (fun k => (k, 1%Q)) (filter (paced 2 3) (seq 1 3)).
Proof.
  do 3 eexists. split; [vm_compute; reflexivity|].
  eapply (C7_pacing_within_batches (world_code 0) (config_bs 2)
           [good_product; good_product; good_product] st_ready).
  vm_compute. reflexivity.
Defined.

(** * Further properties of the code *)

(** ** [_validate_config] *)

Section UploadConfigLemmas.
Import UploadConfig.

Lemma lookup_set_same (d : section) (k : string) (v : cfgval) :
  lookup (set d k v) k = Some v.
Proof.
  induction d as [|[k' v'] d IH]; cbn.
  - rewrite String.eqb_refl. reflexivity.
  - destruct (String.eqb k' k) eqn:E; cbn; rewrite ?E; [reflexivity | exact IH].
Qed.

Lemma lookup_set_other (d : section) (k k' : string) (v : cfgval) :
  k <> k' -> lookup (set d k v) k' = lookup d k'.
Proof.
  intros Hne. induction d as [|[k0 v0] d IH]; cbn.
  - destruct (String.eqb k k') eqn:E; [apply String.eqb_eq in E; congruence|reflexivity].
  - destruct (String.eqb k0 k) eqn:E; cbn.
    + apply String.eqb_eq in E. subst k0.
      destruct (String.eqb k k') eqn:E'; [apply String.eqb_eq in E'; congruence|reflexivity].
    + destruct (String.eqb k0 k'); [reflexivity | exact IH].
Qed.

Lemma validate_key_other (uc uc' : section) (k : string) (d : cfgval) (k' : string) :
  validate_key uc (k, d) = inr uc' -> k <> k' -> lookup uc' k' = lookup uc k'.
Proof.
  intros H Hne. unfold validate_key in H.
  destruct (lookup uc k) as [v|].
  - destruct (range_of k) as [[lo hi]|]; [|injection H as <-; reflexivity].
    destruct (in_range lo hi v) as [e|[|]]; [discriminate H | injection H as <-; reflexivity|].
    injection H as <-. apply lookup_set_other, Hne.
  - injection H as <-. apply lookup_set_other, Hne.
Qed.

Lemma validate_key_own (uc uc' : section) (k : string) (d : cfgval) :
  validate_key uc (k, d) = inr uc' ->
  (exists v, lookup uc k = Some v /\ accepted k v /\ lookup uc' k = Some v) \/
  lookup uc' k = Some d.
Proof.
  intros H. unfold validate_key in H.
  destruct (lookup uc k) as [v|] eqn:Hl.
  - destruct (range_of k) as [[lo hi]|] eqn:Hr.
    + destruct (in_range lo hi v) as [e|[|]] eqn:Hi; [discriminate H| |].
      * injection H as <-. left. exists v. split; [reflexivity|]. split; [|exact Hl].
        intros lo' hi' Hr'. rewrite Hr in Hr'. injection Hr' as <- <-. exact Hi.
      * injection H as <-. right. apply lookup_set_same.
    + injection H as <-. left. exists v. split; [reflexivity|]. split; [|exact Hl].
      intros lo' hi' Hr'. rewrite Hr in Hr'. discriminate.
  - injection H as <-. right. apply lookup_set_same.
Qed.

Lemma validate_key_keeps (uc uc' : section) (k : string) (d v : cfgval) :
  validate_key uc (k, d) = inr uc' -> lookup uc k = Some v -> accepted k v ->
  lookup uc' k = Some v.
Proof.
  intros H Hl Ha. unfold validate_key in H. rewrite Hl in H.
  destruct (range_of k) as [[lo hi]|] eqn:Hr; [|injection H as <-; exact Hl].
  rewrite (Ha lo hi Hr) in H. injection H as <-. exact Hl.
Qed.

Lemma validate_key_unchanged (uc : section) (k : string) (d v : cfgval) :
  lookup uc k = Some v -> accepted k v -> validate_key uc (k, d) = inr uc.
Proof.
  intros Hl Ha. unfold validate_key. rewrite Hl.
  destruct (range_of k) as [[lo hi]|] eqn:Hr; [|reflexivity].
  rewrite (Ha lo hi Hr). reflexivity.
Qed.

Lemma validate_key_error (uc : section) (kd : string * cfgval) (e : py_exc) :
  validate_key uc kd = inl e -> e = TypeError.
Proof.
  destruct kd as [k d]. unfold validate_key.
  destruct (lookup uc k) as [v|]; [|discriminate].
  destruct (range_of k) as [[lo hi]|]; [|discriminate].
  destruct v; cbn; try (destruct (_ && _)); intros H; try discriminate H.
  injection H as <-. reflexivity.
Qed.

Lemma validate_keys_other (ds : list (string * cfgval)) :
  forall uc res k, validate_keys uc ds = inr res -> ~ In k (map fst ds) ->
  lookup res k = lookup uc k.
Proof.
  induction ds as [|[k0 d0] ds IH]; intros uc res k H Hk; cbn [validate_keys] in H.
  - injection H as <-. reflexivity.
  - destruct (validate_key uc (k0, d0)) as [e|uc1] eqn:E; [discriminate H|].
    cbn in Hk. rewrite (IH uc1 res k H ltac:(tauto)).
    apply (validate_key_other uc uc1 k0 d0 k E). intros ->. tauto.
Qed.

Lemma validate_keys_keeps (ds : list (string * cfgval)) :
  forall uc res k v, validate_keys uc ds = inr res ->
  lookup uc k = Some v -> accepted k v -> lookup res k = Some v.
Proof.
  induction ds as [|[k0 d0] ds IH]; intros uc res k v H Hl Ha; cbn [validate_keys] in H.
  - injection H as <-. exact Hl.
  - destruct (validate_key uc (k0, d0)) as [e|uc1] eqn:E; [discriminate H|].
    apply (IH uc1 res k v H); [|exact Ha].
    destruct (String.eqb k0 k) eqn:Ek.
    + apply String.eqb_eq in Ek. subst k0. exact (validate_key_keeps _ _ _ _ _ E Hl Ha).
    + rewrite (validate_key_other _ _ _ _ _ E); [exact Hl|].
      intros ->. rewrite String.eqb_refl in Ek. discriminate.
Qed.

Lemma validate_keys_sets (ds : list (string * cfgval)) :
  NoDup (map fst ds) ->
  forall uc res k d, validate_keys uc ds = inr res -> In (k, d) ds ->
  accepted k d -> exists v, lookup res k = Some v /\ accepted k v.
Proof.
  induction ds as [|[k0 d0] ds IH]; intros Hnd uc res k d H Hin Ha; [destruct Hin|].
  cbn [validate_keys] in H. inversion Hnd as [|x l Hnotin Hnd' Heq]; subst.
  destruct (validate_key uc (k0, d0)) as [e|uc1] eqn:E; [discriminate H|].
  destruct Hin as [Heq|Hin].
  - injection Heq as <- <-.
    rewrite (validate_keys_other ds uc1 res k0 H Hnotin).
    destruct (validate_key_own _ _ _ _ E) as [(v & _ & Hv & Hl)|Hl].
    + exists v. split; assumption.
    + exists d0. split; assumption.
  - exact (IH Hnd' uc1 res k d H Hin Ha).
Qed.

Lemma validate_keys_error (ds : list (string * cfgval)) :
  forall uc e, validate_keys uc ds = inl e -> e = TypeError.
Proof.
  induction ds as [|kd ds IH]; intros uc e H; cbn [validate_keys] in H; [discriminate H|].
  destruct (validate_key uc kd) as [e'|uc1] eqn:E.
  - injection H as <-. exact (validate_key_error _ _ _ E).
  - exact (IH uc1 e H).
Qed.

Lemma validate_keys_raises (ds : list (string * cfgval)) :
  forall uc k, In k (map fst ds) -> range_of k <> None ->
  lookup uc k = Some CNonNum -> exists e, validate_keys uc ds = inl e.
Proof.
  induction ds as [|[k0 d0] ds IH]; intros uc k Hin Hr Hl; [destruct Hin|].
  cbn [validate_keys].
  destruct (validate_key uc (k0, d0)) as [e|uc1] eqn:E; [exists e; reflexivity|].
  destruct (String.eqb k0 k) eqn:Ek.
  - apply String.eqb_eq in Ek. subst k0. exfalso.
    unfold validate_key in E. rewrite Hl in E.
    destruct (range_of k) as [[lo hi]|]; [discriminate E | congruence].
  - apply (IH uc1 k).
    + destruct Hin as [Heq|Hin]; [cbn in Heq; subst k0; rewrite String.eqb_refl in Ek; discriminate|exact Hin].
    + exact Hr.
    + rewrite (validate_key_other _ _ _ _ _ E); [exact Hl|].
      intros ->. rewrite String.eqb_refl in Ek. discriminate.
Qed.

Lemma validate_keys_accepted (ds : list (string * cfgval)) :
  forall uc, (forall k d, In (k, d) ds -> exists v, lookup uc k = Some v /\ accepted k v) ->
  validate_keys uc ds = inr uc.
Proof.
  induction ds as [|[k0 d0] ds IH]; intros uc H; [reflexivity|].
  cbn [validate_keys].
  destruct (H k0 d0 (or_introl eq_refl)) as (v & Hl & Ha).
  rewrite (validate_key_unchanged uc k0 d0 v Hl Ha).
  apply IH. intros k d Hin. apply (H k d). right. exact Hin.
Qed.

Lemma range_of_defaults (k : string) (lo hi : Q) :
  range_of k = Some (lo, hi) ->
  exists d, In (k, d) defaults /\ accepted k d.
Proof.
  unfold range_of. intros H.
  destruct (find (fun kr => String.eqb (fst kr) k) ranges) as [[k' r]|] eqn:Hf;
    [|discriminate H].
  apply find_some in Hf. destruct Hf as [Hin Hk]. cbn in Hk.
  apply String.eqb_eq in Hk. subst k'.
  cbn in Hin.
  repeat (destruct Hin as [Hin|Hin];
          [injection Hin as <- _; eexists; split;
           [cbn; repeat (first [left; reflexivity | right])
           | intros lo' hi' Hr; vm_compute in Hr; injection Hr as <- <-; reflexivity]
          |]).
  destruct Hin.
Qed.

Lemma validate_config_in_range (upload : option section) (res : section) :
  _validate_config upload = inr res ->
  forall k lo hi, range_of k = Some (lo, hi) ->
  exists v, lookup res k = Some v /\ in_range lo hi v = inr true.
Proof.
  intros H k lo hi Hr. destruct (range_of_defaults k lo hi Hr) as (d & Hin & Ha).
  destruct (validate_keys_sets defaults ltac:(vm_compute; repeat constructor; cbn; intuition discriminate)
              _ res k d H Hin Ha) as (v & Hl & Hv).
  exists v. split; [exact Hl | exact (Hv lo hi Hr)].
Qed.

End UploadConfigLemmas.

Lemma defaults_accepted (k : string) (d : UploadConfig.cfgval) :
  In (k, d) UploadConfig.defaults -> UploadConfig.accepted k d.
Proof.
  intros Hin. cbn in Hin.
  repeat (destruct Hin as [Hin|Hin];
          [injection Hin as <- <-; intros lo hi Hr; vm_compute in Hr;
           injection Hr as <- <-; reflexivity|]).
  destruct Hin.
Qed.

Lemma defaults_nodup : NoDup (map fst UploadConfig.defaults).
Proof. vm_compute. repeat constructor; cbn; intuition discriminate. Qed.

(** [_validate_config]: when it returns, each of [batch_size],
    [request_interval], [max_retries], [timeout] and [max_concurrency] is in
    the upload section with a value that passes its range check. *)
Theorem validate_config_ranges (upload : option UploadConfig.section)
  (res : UploadConfig.section) :
  UploadConfig._validate_config upload = inr res ->
  forall k lo hi, UploadConfig.range_of k = Some (lo, hi) ->
  exists v, UploadConfig.lookup res k = Some v /\
            UploadConfig.in_range lo hi v = inr true.
Proof. apply validate_config_in_range. Qed.

Lemma validate_config_ranges_witness :
  exists res,
    UploadConfig._validate_config
      (Some [("batch_size", UploadConfig.CNum 500);
             ("timeout", UploadConfig.CBool true)]) = inr res /\
    exists v, UploadConfig.lookup res "batch_size" = Some v /\
              UploadConfig.in_range 1 100 v = inr true.
Proof.
  eexists. split; [vm_compute; reflexivity|].
  eapply (validate_config_ranges
            (Some [("batch_size", UploadConfig.CNum 500);
                   ("timeout", UploadConfig.CBool true)])).
  - vm_compute. reflexivity.
  - vm_compute. reflexivity.
Defined.

(** [_validate_config] keeps every value it does not have to replace: a key
    outside the five checked ones, or a checked key whose value is in its
    range, has the same value afterwards. *)
Theorem validate_config_keeps (upload : option UploadConfig.section)
  (res : UploadConfig.section) (k : string) (v : UploadConfig.cfgval) :
  UploadConfig._validate_config upload = inr res ->
  UploadConfig.lookup (match upload with Some s => s | None => [] end) k = Some v ->
  UploadConfig.accepted k v ->
  UploadConfig.lookup res k = Some v.
Proof. intros H Hl Ha. exact (validate_keys_keeps _ _ res k v H Hl Ha). Qed.

Lemma validate_config_keeps_witness :
  exists res,
    UploadConfig._validate_config
      (Some [("timeout", UploadConfig.CNum 60); ("extra", UploadConfig.CNonNum)])
      = inr res /\
    UploadConfig.lookup res "extra" = Some UploadConfig.CNonNum.
Proof.
  eexists. split; [vm_compute; reflexivity|].
  eapply (validate_config_keeps
            (Some [("timeout", UploadConfig.CNum 60); ("extra", UploadConfig.CNonNum)])).
  - vm_compute. reflexivity.
  - vm_compute. reflexivity.
  - intros lo hi Hr. vm_compute in Hr. discriminate Hr.
Defined.

(** [_validate_config] is idempotent: run again on the section it produced,
    it returns that section unchanged. *)
Theorem validate_config_idempotent (upload : option UploadConfig.section)
  (res : UploadConfig.section) :
  UploadConfig._validate_config upload = inr res ->
  UploadConfig._validate_config (Some res) = inr res.
Proof.
  intros H. unfold UploadConfig._validate_config.
  apply validate_keys_accepted. intros k d Hin.
  exact (validate_keys_sets _ defaults_nodup _ res k d H Hin (defaults_accepted k d Hin)).
Qed.

Lemma validate_config_idempotent_witness :
  exists res,
    UploadConfig._validate_config
      (Some [("max_retries", UploadConfig.CNum 20); ("request_interval", UploadConfig.CNaN)])
      = inr res /\
    UploadConfig._validate_config (Some res) = inr res.
Proof.
  eexists. split; [vm_compute; reflexivity|].
  eapply (validate_config_idempotent
            (Some [("max_retries", UploadConfig.CNum 20);
                   ("request_interval", UploadConfig.CNaN)])).
  vm_compute. reflexivity.
Defined.

(** [_validate_config] raises [TypeError] (and does not replace the value)
    when one of the five checked keys holds a value that cannot be compared
    with a number, such as a string or [None]. *)
Theorem validate_config_type_error (upload : option UploadConfig.section)
  (k : string) :
  UploadConfig.range_of k <> None ->
  UploadConfig.lookup (match upload with Some s => s | None => [] end) k =
    Some UploadConfig.CNonNum ->
  UploadConfig._validate_config upload = inl TypeError.
Proof.
  intros Hr Hl.
  destruct (UploadConfig.range_of k) as [[lo hi]|] eqn:Hr'; [|congruence].
  destruct (range_of_defaults k lo hi Hr') as (d & Hin & _).
  destruct (validate_keys_raises UploadConfig.defaults _ k
              (in_map fst _ (k, d) Hin) ltac:(congruence) Hl) as [e He].
  unfold UploadConfig._validate_config. rewrite He.
  rewrite (validate_keys_error _ _ _ He). reflexivity.
Qed.

Lemma validate_config_type_error_witness :
  UploadConfig._validate_config
    (Some [("batch_size", UploadConfig.CNum 5); ("max_retries", UploadConfig.CNonNum)])
  = inl TypeError.
Proof.
  apply (validate_config_type_error _ "max_retries").
  - vm_compute. discriminate.
  - vm_compute. reflexivity.
Defined.

(** ** The access token of a fresh client *)

(** A freshly constructed client ([token_expire_time = 0]) never answers
    [_refresh_access_token] from its cache at a non-negative time, even when
    the configuration supplies an [access_token]: it sends a token request
    exactly when the configuration check passes, and returns [None]
    otherwise. *)
Theorem fresh_client_never_cached (configured : string) (config_ok : bool)
  (now now' : Z) (auth : Token.auth_res) :
  (0 <= now)%Z ->
  let '(r, _, called) :=
    Token._refresh_access_token config_ok now now' auth (fresh_token_state configured) in
  called = config_ok /\ (config_ok = false -> r = None).
Proof.
  intros Hnow. unfold Token._refresh_access_token, Token.refresh_check, fresh_token_state.
  cbn [Token.access_token Token.token_expire_time].
  replace (now <? 0)%Z with false by (symmetry; apply Z.ltb_ge; exact Hnow).
  rewrite andb_false_r. destruct config_ok; cbn.
  - destruct (Token.refresh_finish now' auth _). split; [reflexivity | discriminate].
  - split; reflexivity.
Qed.

Lemma fresh_client_never_cached_witness :
  let '(r, _, called) :=
    Token._refresh_access_token true 5 6 (Token.AuthJson (Some "t") None)
      (fresh_token_state "configured") in
  called = true /\ (true = false -> r = None).
Proof. apply (fresh_client_never_cached "configured" true 5 6). lia. Defined.

(** After [_refresh_access_token] fetched a non-empty token at instant [t1]
    with lifetime [expires_in] (7200 when absent), later calls return that
    token from the cache, without a request, strictly before
    [t1 + expires_in - 1200]; from that instant on they send a new request
    whenever the configuration check passes. *)
Theorem token_cached_until_margin (config_ok : bool) (t0 t1 : Z) (tok : string)
  (eo : option Z) (st st1 : Token.TokState) (r : option string) :
  Token._refresh_access_token config_ok t0 t1 (Token.AuthJson (Some tok) eo) st =
    (r, st1, true) ->
  tok <> "" ->
  let e := match eo with Some e => e | None => 7200%Z end in
  r = Some tok /\
  (forall ok' t2 t3 auth, (t2 < t1 + e - 1200)%Z ->
     Token._refresh_access_token ok' t2 t3 auth st1 = (Some tok, st1, false)) /\
  (forall ok' t2 t3 auth, (t1 + e - 1200 <= t2)%Z ->
     let '(_, _, called) := Token._refresh_access_token ok' t2 t3 auth st1 in
     called = ok').
Proof.
  intros H Htok e. unfold Token._refresh_access_token in H.
  destruct (Token.refresh_check config_ok t0 st); [discriminate H|].
  cbn in H. injection H as <- <-. fold e.
  split; [reflexivity|]. split.
  - intros ok' t2 t3 auth Ht. unfold Token._refresh_access_token, Token.refresh_check.
    cbn [Token.access_token Token.token_expire_time].
    replace (String.eqb tok "") with false by (symmetry; apply String.eqb_neq; exact Htok).
    replace (t2 <? t1 + e - 1200)%Z with true by (symmetry; apply Z.ltb_lt; exact Ht).
    reflexivity.
  - intros ok' t2 t3 auth Ht. unfold Token._refresh_access_token, Token.refresh_check.
    cbn [Token.access_token Token.token_expire_time].
    replace (t2 <? t1 + e - 1200)%Z with false by (symmetry; apply Z.ltb_ge; exact Ht).
    rewrite andb_false_r. destruct ok'; cbn.
    + destruct (Token.refresh_finish t3 auth _). reflexivity.
    + reflexivity.
Qed.

Lemma token_cached_until_margin_witness :
  Token._refresh_access_token true 100 100 (Token.AuthJson (Some "abc") (Some 7200%Z))
    expired_token =
    (Some "abc", {| Token.access_token := "abc"; Token.token_expire_time := 6100%Z |}, true) /\
  Token._refresh_access_token true 6099 6099 Token.AuthExc
    {| Token.access_token := "abc"; Token.token_expire_time := 6100%Z |} =
    (Some "abc", {| Token.access_token := "abc"; Token.token_expire_time := 6100%Z |}, false).
Proof.
  split; [vm_compute; reflexivity|].
  refine (proj1 (proj2 (token_cached_until_margin true 100 100 "abc" (Some 7200%Z)
                          expired_token _ _ _ _)) true 6099%Z 6099%Z Token.AuthExc _).
  - vm_compute. reflexivity.
  - discriminate.
  - vm_compute. reflexivity.
Defined.

Section ClientLemmas.
Import Client.

Lemma record_op_shape t st d s :
  exists h, _record_operation t st d s = (set_hist s h, Ret tt).
Proof. unfold _record_operation, cbind, cget, cput. cbn. eexists. reflexivity. Qed.

Ltac split_matches :=
  repeat (cbn -[_record_operation];
          match goal with
          | |- context[_record_operation ?t ?st ?d ?s] =>
              let h := fresh "h" in
              destruct (record_op_shape t st d s) as [h ->]
          | |- context[match negb ?x with _ => _ end] => destruct x eqn:?
          | |- context[match ?x with _ => _ end] => destruct x eqn:?
          end);
  cbn -[_record_operation].

Lemma api_request_counts_gen env p s :
  n_http (fst (_api_request env p s)) =
    n_http s + (if token_ok env (n_tok s)
                then match http env (n_http s) with HReqExc true _ => 2 | _ => 1 end
                else 0) /\
  n_tok (fst (_api_request env p s)) = S (n_tok s) /\
  heap (fst (_api_request env p s)) = heap s.
Proof.
  unfold _api_request, refresh_token, send, cbind, cget, cput, cret.
  split_matches; repeat split; try lia; reflexivity.
Qed.

Lemma api_request_result_gen env p s :
  exists d, snd (_api_request env p s) = Ret (PDict d) /\
    (exists v, dict_get d "success" PNone = PBool v) /\
    forall b, d = [("success", PBool true); ("data", PDict b)] <->
      token_ok env (n_tok s) = true /\ body_ok b = true /\
      (http env (n_http s) = HJson (PDict b) \/
       exists m, http env (n_http s) = HReqExc true m /\
                 http env (S (n_http s)) = HJson (PDict b)).
Proof.
  unfold _api_request, refresh_token, send, cbind, cget, cput, cret.
  split_matches;
  (eexists; split; [reflexivity|]; split; [eexists; reflexivity|];
   let bb := fresh "bb" in intro bb; split;
   [ intro H; inversion H; subst; intuition eauto
   | intros (? & ? & [? | (? & ? & ?)]); congruence ]).
Qed.

(** ** The history never holds a record [verify_upload_result] looks for *)

Lemma hp_bind {A B} P (m : CM A) (k : A -> CM B) :
  hist_pres P m -> (forall a, hist_pres P (k a)) -> hist_pres P (cbind m k).
Proof.
  unfold hist_pres, cbind. intros Hm Hk s s' o H HP.
  destruct (m s) as [s1 [a|e]] eqn:E.
  - exact (Hk a s1 s' o H (Hm s s1 _ E HP)).
  - injection H as <- _. exact (Hm s s1 _ E HP).
Qed.

Lemma hp_catch {A} P (m : CM A) (h : py_exc -> CM A) :
  hist_pres P m -> (forall e, hist_pres P (h e)) -> hist_pres P (ccatch m h).
Proof.
  unfold hist_pres, ccatch. intros Hm Hh s s' o H HP.
  destruct (m s) as [s1 [a|e]] eqn:E.
  - injection H as <- _. exact (Hm s s1 _ E HP).
  - exact (Hh e s1 s' o H (Hm s s1 _ E HP)).
Qed.

Lemma hp_ret {A} P (a : A) : hist_pres P (cret a).
Proof. intros s s' o H HP. injection H as <- _. exact HP. Qed.

Lemma hp_raise {A} P e : hist_pres P (@craise A e).
Proof. intros s s' o H HP. injection H as <- _. exact HP. Qed.

Lemma hp_lift {A} P (r : py_exc + A) : hist_pres P (clift r).
Proof. destruct r; [apply hp_raise | apply hp_ret]. Qed.

Lemma hp_get P : hist_pres P cget.
Proof. intros s s' o H HP. injection H as <- _. exact HP. Qed.

Lemma hp_get_put {B} P (f : CState -> CState) (k : unit -> CM B) :
  (forall s, hist (f s) = hist s) -> (forall a, hist_pres P (k a)) ->
  hist_pres P (cbind cget (fun s1 => cbind (cput (f s1)) k)).
Proof.
  intros Hf Hk s s' o H HP. unfold cbind, cget, cput in H. cbn in H.
  apply (Hk tt _ s' o H). rewrite Hf. exact HP.
Qed.

Lemma hp_refresh env P : hist_pres P (refresh_token env).
Proof. intros s s' o H HP. injection H as <- _. exact HP. Qed.

Lemma hp_send env P : hist_pres P (send env).
Proof. intros s s' o H HP. injection H as <- _. exact HP. Qed.

Lemma hp_append e :
  no_batch_record e -> hist_pres (Forall no_batch_record) (append_history e).
Proof.
  intros He s s' o H HP. injection H as <- _. cbn.
  apply Forall_app. split; [exact HP | constructor; [exact He | constructor]].
Qed.

Lemma hp_record t st d : hist_pres (Forall no_batch_record) (_record_operation t st d).
Proof.
  intros s s' o H HP. injection H as <- _. cbn.
  assert (Hh : Forall no_batch_record
                 (hist s ++ [PDict [("type", t); ("status", PStr st);
                                    ("details", if truthy d then d else PDict [])]])).
  { apply Forall_app. split; [exact HP|]. constructor; [|constructor].
    eexists. split; [reflexivity|]. cbn. discriminate. }
  match goal with |- context[if ?b then _ else _] => destruct b end; [|exact Hh].
  inversion Hh; cbn; [constructor | assumption].
Qed.

Ltac nbr := eexists; split; [reflexivity|]; cbn; discriminate.

Ltac hp_step :=
  cbv beta zeta;
  match goal with
  | |- hist_pres _ (cbind cget (fun s1 => cbind (cput (@?f s1)) ?k)) =>
      apply (hp_get_put _ f k); [intro; reflexivity | intro]
  | |- hist_pres _ (cbind _ _) => apply hp_bind; [|intro]
  | |- hist_pres _ (ccatch _ _) => apply hp_catch; [|intro]
  | |- hist_pres _ (cret _) => apply hp_ret
  | |- hist_pres _ (craise _) => apply hp_raise
  | |- hist_pres _ (clift _) => apply hp_lift
  | |- hist_pres _ (api_path_of _ _) => apply hp_lift
  | |- hist_pres _ cget => apply hp_get
  | |- hist_pres _ (refresh_token _) => apply hp_refresh
  | |- hist_pres _ (send _) => apply hp_send
  | |- hist_pres _ (_record_operation _ _ _) => apply hp_record
  | |- hist_pres _ (append_history _) => apply hp_append; nbr
  | |- hist_pres _ (if ?b then _ else _) => destruct b
  | |- hist_pres _ (match ?x with _ => _ end) => destruct x
  end.

Lemma hp_api_request env p : hist_pres (Forall no_batch_record) (_api_request env p).
Proof. unfold _api_request. repeat hp_step. Qed.

Lemma hp_upload_image env p : hist_pres (Forall no_batch_record) (upload_image env p).
Proof.
  unfold upload_image, api_path_of.
  repeat (apply hp_api_request || hp_step).
Qed.

Lemma hp_add_product env d : hist_pres (Forall no_batch_record) (add_product env d).
Proof.
  unfold add_product, api_path_of.
  repeat (apply hp_api_request || hp_step).
Qed.

Lemma hp_batch_item env i it c : hist_pres (Forall no_batch_record) (batch_item env i it c).
Proof.
  unfold batch_item, index_on, get_on.
  repeat (apply hp_api_request || apply hp_upload_image || apply hp_add_product || hp_step).
Qed.

Lemma hp_batch_loop env i items c s s' c' eo :
  batch_loop env i items c s = (s', (c', eo)) ->
  Forall no_batch_record (hist s) -> Forall no_batch_record (hist s').
Proof.
  revert i c s. induction items as [|it rest IH]; intros i c s H HP; cbn in H.
  - injection H as <- _ _. exact HP.
  - destruct (batch_item env i it c s) as [s1 [c1|e]] eqn:E.
    + exact (IH _ _ _ H (hp_batch_item env i it c s s1 _ E HP)).
    + injection H as <- _ _. exact (hp_batch_item env i it c s s1 _ E HP).
Qed.

Lemma hp_batch env a : hist_pres (Forall no_batch_record) (batch_upload_products_from_data env a).
Proof.
  intros s s' o H HP. unfold batch_upload_products_from_data in H.
  destruct a as [items|]; [destruct items as [|it rest]|].
  - injection H as <- _. exact HP.
  - destruct (batch_loop env 1 (it :: rest) _ s) as [s1 [c [e|]]] eqn:E.
    + injection H as <- _. exact (hp_batch_loop env _ _ _ _ _ _ _ E HP).
    + refine (hp_bind _ _ _ _ _ s1 s' o H _); [apply hp_append; nbr | intro; apply hp_ret |].
      exact (hp_batch_loop env _ _ _ _ _ _ _ E HP).
  - injection H as <- _. exact HP.
Qed.

Lemma hp_run_op env o : hist_pres (Forall no_batch_record) (run_op env o).
Proof.
  destruct o; cbn [run_op];
  unfold get_product, get_shop_info, update_shop_info, get_category, get_all_category,
    get_channels_category, simple_call, category_call, upload_product, api_path_of,
    get_channels_product_list, get_product_detail, get_on;
  repeat (apply hp_api_request || apply hp_upload_image || apply hp_add_product ||
          apply hp_batch || hp_step).
Qed.

Lemma hp_run_ops env ops s :
  Forall no_batch_record (hist s) -> Forall no_batch_record (hist (run_ops env ops s)).
Proof.
  revert s. induction ops as [|o rest IH]; intros s HP; cbn; [exact HP|].
  apply IH. destruct (run_op env o s) as [s1 r] eqn:E. cbn.
  exact (hp_run_op env o s s1 r E HP).
Qed.

Lemma find_batch_report_none h :
  Forall no_batch_record h -> find_batch_report h = inr None.
Proof.
  induction h as [|e rest IH]; intros HP; [reflexivity|].
  inversion HP as [|? ? He Hr]; subst. cbn. rewrite (IH Hr).
  destruct He as [r [-> Hop]].
  destruct (dict_get r "operation" PNone); try reflexivity.
  destruct (String.eqb_spec s "batch_upload_products"); [congruence | reflexivity].
Qed.

(** ** Counting in [batch_upload_products_from_data] *)

Lemma batch_item_counters env i it c s :
  match snd (batch_item env i it c s) with
  | Ret c' => c' = add_success c \/
              exists e, c' = add_error c e /\ entry_index e = Some (Z.of_nat i)
  | Raise _ => True
  end.
Proof.
  destruct it as [oid|tname]; [|exact I].
  unfold batch_item, index_on, get_on, cbind, cget, cput, cret, craise, clift.
  repeat (cbn -[upload_image add_product dict_get has_key];
          match goal with
          | |- context[match ?x with _ => _ end] =>
              lazymatch x with context[match _ with _ => _ end] => fail | _ => destruct x end
          end);
  first [ exact I | left; reflexivity | right; eexists; split; reflexivity ].
Qed.

Lemma filter_seq_shift (f : nat -> bool) (b : bool) i k :
  filter (fun j => if Nat.eqb j i then b else f j) (seq (S i) k) = filter f (seq (S i) k).
Proof.
  apply filter_ext_in. intros j Hj. apply in_seq in Hj.
  destruct (Nat.eqb_spec j i); [lia | reflexivity].
Qed.

Lemma batch_loop_counts env i items c s :
  let '(s', (c', eo)) := batch_loop env i items c s in
  exists k (failed : nat -> bool) L,
    k <= List.length items /\
    success_count c' + error_count c' = success_count c + error_count c + k /\
    error_list c' = List.app (error_list c) L /\
    error_count c' = error_count c + List.length L /\
    map entry_index L = map (fun j => Some (Z.of_nat j)) (filter failed (seq i k)) /\
    (eo = None <-> k = List.length items).
Proof.
  revert i c s. induction items as [|it rest IH]; intros i c s; cbn [batch_loop].
  - exists 0, (fun _ => false), []. cbn. rewrite app_nil_r. repeat split; lia.
  - pose proof (batch_item_counters env i it c s) as Hc.
    destruct (batch_item env i it c s) as [s1 [c1|e]] eqn:E; cbn [snd] in Hc.
    + specialize (IH (S i) c1 s1).
      destruct (batch_loop env (S i) rest c1 s1) as [s' [c' eo]].
      destruct IH as (k & f & L & Hk & Hsum & Hl & Hcnt & Hidx & Heo).
      destruct Hc as [-> | (e & -> & He)].
      * exists (S k), (fun j => if Nat.eqb j i then false else f j), L.
        cbn [success_count error_count error_list add_success List.length seq filter] in *.
        rewrite Nat.eqb_refl, filter_seq_shift.
        repeat split; try lia; try assumption.
        -- intros H. apply Heo in H. lia.
        -- intros H. apply Heo. lia.
      * exists (S k), (fun j => if Nat.eqb j i then true else f j), (e :: L).
        cbn [success_count error_count error_list add_error List.length seq filter map] in *.
        rewrite Nat.eqb_refl, filter_seq_shift.
        rewrite Hl, <- app_assoc. cbn [map List.app].
        repeat split; try lia.
        -- rewrite He, Hidx. reflexivity.
        -- intros H. apply Heo in H. lia.
        -- intros H. apply Heo. lia.
    + exists 0, (fun _ => false), []. cbn. rewrite app_nil_r.
      repeat split; try lia. discriminate.
Qed.

Lemma batch_counts_gen env items s :
  items <> [] ->
  exists c k (failed : nat -> bool),
    k <= List.length items /\
    success_count c + error_count c = k /\
    error_count c = List.length (error_list c) /\
    map entry_index (error_list c) =
      map (fun j => Some (Z.of_nat j)) (filter failed (seq 1 k)) /\
    ((k = List.length items /\
      snd (batch_upload_products_from_data env (AList items) s) =
        Ret (batch_report (List.length items) c)) \/
     (k < List.length items /\
      exists e, snd (batch_upload_products_from_data env (AList items) s) =
        Ret (batch_abort (List.length items) c e))).
Proof.
  intros Hne. destruct items as [|it rest]; [congruence|].
  pose proof (batch_loop_counts env 1 (it :: rest)
                {| success_count := 0; error_count := 0; error_list := [] |} s) as H.
  unfold batch_upload_products_from_data.
  destruct (batch_loop env 1 (it :: rest) _ s) as [s' [c eo]] eqn:E.
  destruct H as (k & f & L & Hk & Hsum & Hl & Hcnt & Hidx & Heo).
  cbn [success_count error_count error_list List.app] in Hsum, Hl, Hcnt.
  exists c, k, f.
  rewrite Hl. repeat split; try lia; try assumption.
  destruct eo as [e|].
  - right. split.
    + destruct (Nat.eq_dec k (List.length (it :: rest))) as [Heq|Hne']; [|lia].
      apply Heo in Heq. discriminate.
    + exists e. reflexivity.
  - left. split; [apply Heo; reflexivity | reflexivity].
Qed.

Lemma record_op_cap_gen t st d s :
  List.length (hist s) <= 1000 ->
  let rec := PDict [("type", t); ("status", PStr st);
                    ("details", if truthy d then d else PDict [])] in
  let h' := hist (fst (_record_operation t st d s)) in
  List.length h' = Nat.min (S (List.length (hist s))) 1000 /\
  last h' PNone = rec /\
  exists dropped, List.length dropped <= 1 /\
                  List.app dropped h' = List.app (hist s) [rec].
Proof.
  intros Hlen rec h'. subst h' rec.
  unfold _record_operation, cbind, cget, cput. cbn [fst hist set_hist].
  match goal with |- context[Nat.ltb 1000 ?n] => destruct (Nat.ltb_spec 1000 n) as [Hlt|Hge] end.
  - rewrite length_app in Hlt. cbn [List.length] in Hlt.
    destruct (hist s) as [|x xs] eqn:Eh; cbn [List.length] in *; [lia|].
    cbn [tl List.app]. rewrite length_app. cbn [List.length].
    rewrite Nat.min_r by lia. split; [lia|]. split; [apply last_last|].
    exists [x]. split; [cbn; lia | reflexivity].
  - rewrite length_app in *. cbn [List.length] in *.
    rewrite Nat.min_l by lia. split; [lia|]. split; [apply last_last|].
    exists []. split; [cbn; lia | reflexivity].
Qed.

Lemma add_product_missing_gen env d s f :
  In f WECHAT_SHOP_REQUIRED_FIELDS -> f <> "product_id" -> has_key d f = false ->
  fst (add_product env d s) = s /\
  exists f', In f' WECHAT_SHOP_REQUIRED_FIELDS /\ has_key d f' = false /\
    snd (add_product env d s) = Ret (fail_result (String.append "缺少必填字段: " f')).
Proof.
  intros Hin Hf Hmiss. unfold add_product.
  destruct (missing_field d) as [f'|] eqn:E.
  - unfold missing_field in E. apply find_some in E as [Hin' Hp].
    apply andb_prop in Hp as [_ Hp]. apply negb_true_iff in Hp.
    split; [reflexivity|]. exists f'. repeat split; assumption.
  - unfold missing_field in E. apply (find_none _ _ E) in Hin.
    apply String.eqb_neq in Hf. rewrite Hf, Hmiss in Hin. discriminate.
Qed.

Lemma heap_add_product env d s : heap (fst (add_product env d s)) = heap s.
Proof.
  unfold add_product, api_path_of, ccatch, cbind, clift, cret, craise.
  destruct (missing_field d); [reflexivity|].
  destruct (getitem (api_paths env) "add_product") as [e|p]; [reflexivity|].
  pose proof (api_request_counts_gen env p s) as (_ & _ & Hh).
  destruct (_api_request env p s) as [s1 [r|e]]; cbn in *; exact Hh.
Qed.

Lemma dict_get_cons k' v l k dflt :
  dict_get ((k', v) :: l) k dflt = if String.eqb k' k then v else dict_get l k dflt.
Proof. unfold dict_get. cbn. destruct (String.eqb k' k); reflexivity. Qed.

Lemma dict_get_nil k dflt : dict_get [] k dflt = dflt.
Proof. reflexivity. Qed.

Lemma has_key_nil k : has_key [] k = false.
Proof. reflexivity. Qed.

Lemma has_key_cons k' v l k :
  has_key ((k', v) :: l) k = String.eqb k' k || has_key l k.
Proof. reflexivity. Qed.

End ClientLemmas.

(** [_api_request] checks the token once; without a token it sends nothing,
    otherwise one request, and a second one only after a network exception. *)
Theorem api_request_request_count (env : Client.Env) (api_path : pyval) (s : Client.CState) :
  Client.n_tok (fst (Client._api_request env api_path s)) = S (Client.n_tok s) /\
  Client.n_http (fst (Client._api_request env api_path s)) =
    Client.n_http s +
    (if Client.token_ok env (Client.n_tok s)
     then match Client.http env (Client.n_http s) with
          | Client.HReqExc true _ => 2
          | _ => 1
          end
     else 0).
Proof.
  destruct (api_request_counts_gen env api_path s) as (H1 & H2 & _). split; assumption.
Qed.

(** [_api_request] never raises: it returns a dict whose ["success"] is a
    bool, and it is [{"success": True, "data": b}] exactly when a token was
    obtained and the response body [b] (of the first request, or of the
    single retry after a network exception) is a dict with no non-zero
    ["errcode"]. *)
Theorem api_request_success_iff (env : Client.Env) (api_path : pyval) (s : Client.CState) :
  exists d, snd (Client._api_request env api_path s) = Ret (PDict d) /\
    (exists v, dict_get d "success" PNone = PBool v) /\
    forall b, d = [("success", PBool true); ("data", PDict b)] <->
      Client.token_ok env (Client.n_tok s) = true /\ Client.body_ok b = true /\
      (Client.http env (Client.n_http s) = Client.HJson (PDict b) \/
       exists m, Client.http env (Client.n_http s) = Client.HReqExc true m /\
                 Client.http env (S (Client.n_http s)) = Client.HJson (PDict b)).
Proof. exact (api_request_result_gen env api_path s). Qed.







(** After any sequence of calls on a new client, [verify_upload_result()]
    finds no upload record: nothing ever records an operation named
    ["batch_upload_products"] (the batch method records
    ["batch_upload_products_from_data"]). *)
Theorem verify_never_finds_record (env : Client.Env) (ops : list Client.op)
  (h : nat -> dict) :
  Client.verify_upload_result PNone
    (Client.hist (Client.run_ops env ops (Client.fresh_client h))) =
  inr (Client.fail_result "未找到上传记录").
Proof.
  unfold Client.verify_upload_result. cbn [truthy].
  rewrite find_batch_report_none; [reflexivity|].
  apply hp_run_ops. constructor.
Qed.

(** [verify_upload_result] on a batch result reports success with the
    batch's total, also for the result of a batch that stopped on an
    exception, where only [processed_count] items were handled. *)
Theorem verify_reports_success (n : nat) (c : Client.counters) (e : py_exc) (h : list pyval) :
  Client.verify_upload_result (Client.batch_report n c) h =
    inr (PDict [("success", PBool true);
                ("total_products", PInt (Z.of_nat n));
                ("successfully_uploaded", PInt (Z.of_nat (Client.success_count c)));
                ("failed_uploads", PInt (Z.of_nat (Client.error_count c)));
                ("details", Client.batch_report n c)]) /\
  Client.verify_upload_result (Client.batch_abort n c e) h =
    inr (PDict [("success", PBool true);
                ("total_products", PInt (Z.of_nat n));
                ("successfully_uploaded", PInt (Z.of_nat (Client.success_count c)));
                ("failed_uploads", PInt (Z.of_nat (Client.error_count c)));
                ("details", Client.batch_abort n c e)]).
Proof. split; reflexivity. Qed.

(** [add_product] with a required field (other than ["product_id"])
    missing returns an error naming a missing field, before any token
    check or request, and leaves the history unchanged. *)
Theorem add_product_missing_field (env : Client.Env) (d : dict) (s : Client.CState)
  (f : string) (Hin : In f Client.WECHAT_SHOP_REQUIRED_FIELDS)
  (Hf : f <> "product_id") (Hmiss : has_key d f = false) :
  fst (Client.add_product env d s) = s /\
  exists f', In f' Client.WECHAT_SHOP_REQUIRED_FIELDS /\ has_key d f' = false /\
    snd (Client.add_product env d s) =
      Ret (Client.fail_result (String.append "缺少必填字段: " f')).
Proof. exact (add_product_missing_gen env d s f Hin Hf Hmiss). Qed.

Lemma add_product_missing_field_witness :
  fst (Client.add_product offline_env [("product_id", PStr "p1")]
         (Client.fresh_client (fun _ => []))) = Client.fresh_client (fun _ => []).
Proof.
  apply (add_product_missing_field offline_env [("product_id", PStr "p1")]
           (Client.fresh_client (fun _ => [])) "product_name");
  [cbn; tauto | discriminate | reflexivity].
Defined.





Section DictLemmas.

Lemma dict_get_set d k v k' dflt :
  dict_get (Client.dict_set d k v) k' dflt =
    if String.eqb k k' then v else dict_get d k' dflt.
Proof.
  induction d as [|[k0 v0] rest IH]; cbn [Client.dict_set].
  - unfold dict_get. cbn. destruct (String.eqb k k'); reflexivity.
  - destruct (String.eqb_spec k0 k) as [->|Hne].
    + unfold dict_get. cbn. destruct (String.eqb k k'); reflexivity.
    + rewrite !dict_get_cons, IH.
      destruct (String.eqb_spec k0 k'); destruct (String.eqb_spec k k'); congruence.
Qed.

Lemma has_key_set d k v k' :
  has_key (Client.dict_set d k v) k' = String.eqb k k' || has_key d k'.
Proof.
  induction d as [|[k0 v0] rest IH]; cbn [Client.dict_set].
  - unfold has_key. cbn. rewrite orb_false_r. reflexivity.
  - destruct (String.eqb_spec k0 k) as [->|Hne].
    + rewrite !has_key_cons. destruct (String.eqb k k'); reflexivity.
    + rewrite !has_key_cons, IH.
      destruct (String.eqb k0 k'), (String.eqb k k'); reflexivity.
Qed.

Lemma keys_set d k v :
  In k (map fst d) -> map fst (Client.dict_set d k v) = map fst d.
Proof.
  induction d as [|[k0 v0] rest IH]; intros Hin; [destruct Hin|].
  cbn [Client.dict_set]. destruct (String.eqb_spec k0 k) as [->|Hne]; [reflexivity|].
  cbn [map fst] in *. destruct Hin as [Heq|Hin]; [congruence|].
  cbn [map]. rewrite IH by exact Hin. reflexivity.
Qed.

Lemma has_key_update_keep d kvs k :
  has_key d k = true -> has_key (ApiConfig.dict_update d kvs) k = true.
Proof.
  unfold ApiConfig.dict_update. revert d.
  induction kvs as [|[k1 v1] rest IH]; intros d Hd; cbn [fold_left]; [exact Hd|].
  apply IH. cbn [fst snd]. rewrite has_key_set, Hd, orb_true_r. reflexivity.
Qed.

Lemma dict_get_update d kvs k dflt :
  NoDup (map fst kvs) ->
  dict_get (ApiConfig.dict_update d kvs) k dflt =
    if has_key kvs k then dict_get kvs k dflt else dict_get d k dflt.
Proof.
  unfold ApiConfig.dict_update. revert d.
  induction kvs as [|[k1 v1] rest IH]; intros d Hnd; cbn [fold_left]; [reflexivity|].
  inversion Hnd as [|? ? Hnin Hnd']; subst.
  rewrite IH by exact Hnd'. cbn [fst snd].
  rewrite has_key_cons, dict_get_cons, dict_get_set.
  destruct (has_key rest k) eqn:Hr.
  - destruct (String.eqb_spec k1 k) as [->|]; [|reflexivity].
    exfalso. apply Hnin. unfold has_key in Hr. apply existsb_exists in Hr as [[k2 v2] [Hin Heq]].
    apply String.eqb_eq in Heq. cbn in Heq. subst. apply (in_map fst) in Hin. exact Hin.
  - rewrite orb_false_r. destruct (String.eqb k1 k); reflexivity.
Qed.

Lemma filter_keep_key (p : string * pyval -> bool) l k dflt :
  (forall v, p (k, v) = true) ->
  has_key (filter p l) k = has_key l k /\ dict_get (filter p l) k dflt = dict_get l k dflt.
Proof.
  intros Hp. induction l as [|[k1 v1] rest IH]; [split; reflexivity|].
  cbn [filter]. destruct (String.eqb_spec k1 k) as [->|Hne].
  - rewrite (Hp v1), !has_key_cons, !dict_get_cons, String.eqb_refl. split; reflexivity.
  - destruct (p (k1, v1)); rewrite ?has_key_cons, ?dict_get_cons;
      apply String.eqb_neq in Hne; rewrite ?Hne; exact IH.
Qed.

Lemma NoDup_map_filter {A B} (f : A -> B) (p : A -> bool) l :
  NoDup (map f l) -> NoDup (map f (filter p l)).
Proof.
  induction l as [|a rest IH]; intros Hnd; cbn; [constructor|].
  inversion Hnd as [|? ? Hnin Hnd']; subst.
  destruct (p a); [|exact (IH Hnd')].
  constructor; [|exact (IH Hnd')].
  intros Hin. apply Hnin. apply in_map_iff in Hin as [x [<- Hx]].
  apply filter_In in Hx as [Hx _]. apply in_map. exact Hx.
Qed.

Lemma manager_config_nodup gcv m :
  ApiConfig.manager_config gcv = Some m -> NoDup (map fst m).
Proof.
  unfold ApiConfig.manager_config.
  destruct (gcv "wechat_shop.api_base_url") as [|p], (gcv "wechat_shop.appid") as [|p0],
    (gcv "wechat_shop.appsecret") as [|p1], (gcv "wechat_shop.timeout") as [|p2]; try discriminate.
  intros H. injection H as <-.
  destruct p, p0, p1, p2; cbn; repeat constructor; cbn; intuition discriminate.
Qed.

Lemma wechat_config_precedence_gen gcv config k :
  NoDup (map fst config) -> k <> "api_paths" ->
  dict_get (ApiConfig.load_wechat_api_config gcv (inr (PDict config))) k PNone =
    if has_key config k then dict_get config k PNone
    else match ApiConfig.manager_config gcv with
         | Some m => if has_key m k then dict_get m k PNone
                     else dict_get ApiConfig.default_config k PNone
         | None => dict_get ApiConfig.default_config k PNone
         end.
Proof.
  intros Hnd Hk. unfold ApiConfig.load_wechat_api_config.
  set (c1 := match ApiConfig.manager_config gcv with
             | Some m => ApiConfig.dict_update ApiConfig.default_config m
             | None => ApiConfig.default_config
             end).
  set (p := fun kv : string * pyval => negb (String.eqb (fst kv) "api_paths")).
  assert (Hc1 : forall k0, has_key ApiConfig.default_config k0 = true -> has_key c1 k0 = true).
  { intros k0 H0. subst c1. destruct (ApiConfig.manager_config gcv);
      [apply has_key_update_keep|]; exact H0. }
  set (c2 := ApiConfig.dict_update c1 (filter p config)).
  assert (Hc2 : forall k0, has_key ApiConfig.default_config k0 = true -> has_key c2 k0 = true).
  { intros k0 H0. apply has_key_update_keep, Hc1, H0. }
  unfold ApiConfig.dict_setdefault.
  rewrite (Hc2 "access_token" eq_refl), (Hc2 "timeout" eq_refl).
  subst c2. rewrite dict_get_update by (apply NoDup_map_filter; exact Hnd).
  assert (Hp : forall v, p (k, v) = true).
  { intros v. subst p. cbn. apply String.eqb_neq in Hk. rewrite Hk. reflexivity. }
  destruct (filter_keep_key p config k PNone Hp) as [-> ->].
  destruct (has_key config k); [reflexivity|].
  subst c1. destruct (ApiConfig.manager_config gcv) as [m|] eqn:Em; [|reflexivity].
  apply dict_get_update. exact (manager_config_nodup gcv m Em).
Qed.

End DictLemmas.

Section ConfigCsvLemmas.
Import Client.

Lemma default_paths_of mgr file env :
  (forall v, mgr = inr v -> truthy v = false) ->
  (forall c, file <> inr (PDict c)) ->
  ApiConfig.load_api_paths mgr file = PDict (api_paths env) ->
  api_paths env = ApiConfig.default_api_paths.
Proof.
  intros Hm Hf Hp.
  assert (Hd : ApiConfig.load_api_paths mgr file = PDict ApiConfig.default_api_paths).
  { unfold ApiConfig.load_api_paths.
    destruct file as [|fv]; [|destruct fv; try (exfalso; eapply Hf; reflexivity)];
      (destruct mgr as [|v]; [|rewrite (Hm v eq_refl)]; reflexivity). }
  rewrite Hd in Hp. injection Hp as Hp. symmetry. exact Hp.
Qed.

Lemma default_paths_calls_gen env s p d i :
  api_paths env = ApiConfig.default_api_paths ->
  fst (upload_image env p s) = s /\
  add_product env d s =
    (s, Ret (match missing_field d with
             | Some field => fail_result ("缺少必填字段: " ++ field)
             | None => fail_result "添加商品失败: 'add_product'"
             end)) /\
  get_product env i s = (s, Ret (fail_result "获取商品详情失败: 'get_product'")) /\
  get_shop_info env s = (s, Ret (fail_result "获取店铺信息失败: 'get_shop_info'")) /\
  update_shop_info env s = (s, Ret (fail_result "更新店铺信息失败: 'update_shop_info'")).
Proof.
  intros Hap.
  unfold upload_image, add_product, get_product, get_shop_info, update_shop_info,
    simple_call, api_path_of. rewrite Hap.
  repeat split.
  - unfold cbind, clift. destruct (path_exists env p) as [e|[|]]; cbn; [reflexivity| |reflexivity].
    unfold ccatch, cbind, clift. destruct (open_file env p); reflexivity.
  - destruct (missing_field d); reflexivity.
Qed.

Lemma sbind_inr {A B} (r : py_exc + A) (k : A -> py_exc + B) x :
  CsvExport.sbind r k = inr x -> exists a, r = inr a /\ k a = inr x.
Proof. destruct r as [e|a]; cbn; [discriminate|]. intros H. exists a. split; [reflexivity|exact H]. Qed.

Lemma set_cat_keys cats n i istr key csv csv' :
  In key (map fst csv) ->
  CsvExport.set_cat cats n i istr key csv = inr csv' -> map fst csv' = map fst csv.
Proof.
  intros Hin. unfold CsvExport.set_cat.
  destruct (Nat.ltb i n); [|intros H; injection H as <-; reflexivity].
  intros H. apply sbind_inr in H as [c [_ H]]. apply sbind_inr in H as [cid [_ H]].
  injection H as <-. apply keys_set. exact Hin.
Qed.

Lemma set_images_keys prefix imgs : forall i0 csv,
  (forall j, i0 < j <= i0 + List.length imgs ->
             In (String.append prefix (CsvExport.digit j)) (map fst csv)) ->
  map fst (CsvExport.set_images prefix i0 imgs csv) = map fst csv.
Proof.
  induction imgs as [|img rest IH]; intros i0 csv Hin; cbn [CsvExport.set_images]; [reflexivity|].
  assert (Hk : map fst (Client.dict_set csv (String.append prefix (CsvExport.digit (S i0))) img)
               = map fst csv).
  { apply keys_set, Hin. cbn [List.length]. lia. }
  rewrite IH; [exact Hk|]. intros j Hj. rewrite Hk. apply Hin. cbn [List.length]. lia.
Qed.

Lemma py_slice_len v n l : CsvExport.py_slice v n = inr l -> List.length l <= n.
Proof.
  destruct v; cbn; try discriminate; intros H; injection H as <-;
    rewrite ?length_map; apply firstn_le_length.
Qed.

Lemma in_fieldnames k :
  existsb (String.eqb k) CsvExport.fieldnames = true -> In k CsvExport.fieldnames.
Proof.
  intros H. apply existsb_exists in H as [x [Hx Heq]].
  apply String.eqb_eq in Heq. subst. exact Hx.
Qed.

Lemma main_image_keys j :
  0 < j <= 9 -> In (String.append "主图" (CsvExport.digit j)) CsvExport.fieldnames.
Proof.
  intros Hj. apply in_fieldnames.
  do 10 (destruct j as [|j]; [first [lia | reflexivity]|]). lia.
Qed.

Lemma detail_image_keys j :
  0 < j <= 3 -> In (String.append "详情图" (CsvExport.digit j)) CsvExport.fieldnames.
Proof.
  intros Hj. apply in_fieldnames.
  do 4 (destruct j as [|j]; [first [lia | reflexivity]|]). lia.
Qed.

Ltac csv_step H :=
  match type of H with
  | CsvExport.sbind ?r _ = _ =>
      let E := fresh "E" in
      destruct r eqn:E; cbn [CsvExport.sbind] in H; [discriminate H|]
  end.

Lemma csv_keys_gen product csv :
  CsvExport.convert_product_to_csv_format product = inr csv ->
  map fst csv = CsvExport.fieldnames.
Proof.
  intros H. unfold CsvExport.convert_product_to_csv_format in H.
  csv_step H.
  destruct (pylen _) as [n|]; [|discriminate H].
  match type of H with context [CsvExport.set_cat _ _ 0 "0" _ ?c] =>
    remember c as csv0 eqn:Hc0 end.
  assert (K0 : map fst csv0 = CsvExport.fieldnames) by (subst csv0; reflexivity).
  clear Hc0.
  csv_step H. apply set_cat_keys in E0; [|rewrite K0; apply in_fieldnames; reflexivity].
  rewrite K0 in E0.
  csv_step H. apply set_cat_keys in E1; [|rewrite E0; apply in_fieldnames; reflexivity].
  rewrite E0 in E1.
  csv_step H. apply set_cat_keys in E2; [|rewrite E1; apply in_fieldnames; reflexivity].
  rewrite E1 in E2.
  csv_step H. apply py_slice_len in E3.
  match type of H with context [CsvExport.set_images "主图" 0 ?imgs ?c] =>
    assert (K4 : map fst (CsvExport.set_images "主图" 0 imgs c) = CsvExport.fieldnames);
    [rewrite set_images_keys; [exact E2|]; intros j Hj; rewrite E2;
       apply main_image_keys; lia|];
    remember (CsvExport.set_images "主图" 0 imgs c) as csv4 eqn:Hc4; clear Hc4 end.
  csv_step H. csv_step H. apply py_slice_len in E5.
  match type of H with context [CsvExport.set_images "详情图" 0 ?imgs ?c] =>
    assert (K5 : map fst (CsvExport.set_images "详情图" 0 imgs c) = CsvExport.fieldnames);
    [rewrite set_images_keys; [exact K4|]; intros j Hj; rewrite K4;
       apply detail_image_keys; lia|];
    remember (CsvExport.set_images "详情图" 0 imgs c) as csv5 eqn:Hc5; clear Hc5 end.
  destruct (truthy _); [|injection H as <-; exact K5].
  csv_step H. csv_step H. csv_step H. csv_step H.
  injection H as <-.
  assert (K6 : map fst (Client.dict_set csv5 "SKU价格(分)" p2) = CsvExport.fieldnames)
    by (rewrite keys_set; [exact K5|rewrite K5; apply in_fieldnames; reflexivity]).
  assert (K7 : map fst (Client.dict_set (Client.dict_set csv5 "SKU价格(分)" p2) "SKU库存" p3)
               = CsvExport.fieldnames)
    by (rewrite keys_set; [exact K6|rewrite K6; apply in_fieldnames; reflexivity]).
  rewrite keys_set; [exact K7|rewrite K7; apply in_fieldnames; reflexivity].
Qed.

Lemma serializable_heap_gen py_str results ds : forall heap o,
  snd (_make_results_serializable py_str results (Some ds) heap) o =
    if existsb (Nat.eqb o) ds && has_key (heap o) "response" then
      match dict_get (heap o) "response" PNone with
      | PDict _ => heap o
      | v => Client.dict_set (heap o) "response" (PDict [("result", PStr (py_str v))])
      end
    else heap o.
Proof.
  unfold _make_results_serializable; cbn [snd].
  induction ds as [|a ds IH]; intros heap o; cbn [fold_left existsb]; [reflexivity|].
  rewrite IH.
  destruct (Nat.eqb_spec o a) as [->|Hne].
  - rewrite ?Nat.eqb_refl. cbn [orb andb].
    destruct (has_key (heap a) "response") eqn:Hk; [|destruct (existsb _ ds); rewrite ?Hk; reflexivity].
    destruct (dict_get (heap a) "response" PNone) eqn:Hg;
      rewrite ?Nat.eqb_refl, ?Hk, ?Hg; destruct (existsb _ ds); cbn [andb];
      rewrite ?has_key_set, ?dict_get_set, ?Hk, ?Hg; reflexivity.
  - apply Nat.eqb_neq in Hne.
    assert (Hs : forall h : nat -> dict,
      (if has_key (heap a) "response" then
         match dict_get (heap a) "response" PNone with
         | PDict _ => heap
         | r => fun o0 => if Nat.eqb o0 a then
                  Client.dict_set (heap a) "response" (PDict [("result", PStr (py_str r))])
                  else heap o0
         end else heap) o = heap o).
    { intros _. destruct (has_key (heap a) "response"); [|reflexivity].
      destruct (dict_get (heap a) "response" PNone); rewrite ?Hne; reflexivity. }
    rewrite (Hs heap), ?Hne. reflexivity.
Qed.

End ConfigCsvLemmas.

(** When neither the config manager nor [wechat_api_config.json] supplies
    API paths, [load_api_paths] falls back to a table without
    ["upload_image"], ["add_product"], ["get_product"], ["get_shop_info"]
    and ["update_shop_info"]: [upload_image] leaves the client state as it
    was, and the other four return a failure result naming the missing key
    without sending a request or recording history. *)
Theorem fallback_paths_disable_calls (from_manager from_file : py_exc + pyval)
  (env : Client.Env) (s : Client.CState) (p : pyval) (d : dict) (i : pyval)
  (Hm : forall v, from_manager = inr v -> truthy v = false)
  (Hf : forall c, from_file <> inr (PDict c))
  (Hp : ApiConfig.load_api_paths from_manager from_file = PDict (Client.api_paths env)) :
  fst (Client.upload_image env p s) = s /\
  Client.add_product env d s =
    (s, Ret (match Client.missing_field d with
                    | Some field => Client.fail_result (String.append "缺少必填字段: " field)
                    | None => Client.fail_result "添加商品失败: 'add_product'"
                    end)) /\
  Client.get_product env i s =
    (s, Ret (Client.fail_result "获取商品详情失败: 'get_product'")) /\
  Client.get_shop_info env s =
    (s, Ret (Client.fail_result "获取店铺信息失败: 'get_shop_info'")) /\
  Client.update_shop_info env s =
    (s, Ret (Client.fail_result "更新店铺信息失败: 'update_shop_info'")).
Proof.
  apply default_paths_calls_gen.
  exact (default_paths_of from_manager from_file env Hm Hf Hp).
Qed.

Lemma fallback_paths_disable_calls_witness :
  fst (Client.upload_image default_paths_env (PStr "a.jpg") (Client.fresh_client (fun _ => [])))
    = Client.fresh_client (fun _ => []) /\
  Client.add_product default_paths_env [] (Client.fresh_client (fun _ => [])) =
    (Client.fresh_client (fun _ => []),
     Ret (Client.fail_result "缺少必填字段: product_name")) /\
  Client.get_product default_paths_env (PInt 1) (Client.fresh_client (fun _ => [])) =
    (Client.fresh_client (fun _ => []),
     Ret (Client.fail_result "获取商品详情失败: 'get_product'")) /\
  Client.get_shop_info default_paths_env (Client.fresh_client (fun _ => [])) =
    (Client.fresh_client (fun _ => []),
     Ret (Client.fail_result "获取店铺信息失败: 'get_shop_info'")) /\
  Client.update_shop_info default_paths_env (Client.fresh_client (fun _ => [])) =
    (Client.fresh_client (fun _ => []),
     Ret (Client.fail_result "更新店铺信息失败: 'update_shop_info'")).
Proof.
  apply (fallback_paths_disable_calls (inr (PDict [])) (inl (Raised "No such file or directory"))
           default_paths_env (Client.fresh_client (fun _ => [])) (PStr "a.jpg") [] (PInt 1)).
  - intros v Hv. inversion Hv. reflexivity.
  - intros c Hc. discriminate Hc.
  - reflexivity.
Defined.

(** For a [wechat_api_config.json] holding a dict with distinct keys, every
    key of the loaded configuration other than ["api_paths"] takes the
    file's value when the file has the key (a [null] included), else the
    config manager's non-[None] value, else the built-in default. *)
Theorem wechat_config_precedence (get_config_value : string -> py_exc + pyval)
  (config : dict) (k : string)
  (Hnd : NoDup (map fst config)) (Hk : k <> "api_paths") :
  dict_get (ApiConfig.load_wechat_api_config get_config_value (inr (PDict config))) k PNone =
    if has_key config k then dict_get config k PNone
    else match ApiConfig.manager_config get_config_value with
         | Some m => if has_key m k then dict_get m k PNone
                     else dict_get ApiConfig.default_config k PNone
         | None => dict_get ApiConfig.default_config k PNone
         end.
Proof. exact (wechat_config_precedence_gen get_config_value config k Hnd Hk). Qed.

Lemma wechat_config_precedence_witness :
  dict_get (ApiConfig.load_wechat_api_config (fun _ => inr PNone)
              (inr (PDict [("timeout", PNone)]))) "timeout" PNone = PNone.
Proof.
  rewrite (wechat_config_precedence (fun _ => inr PNone) [("timeout", PNone)] "timeout").
  - reflexivity.
  - repeat constructor. intros [].
  - discriminate.
Defined.

(** Whenever [convert_product_to_csv_format] returns a row, the row's keys
    are exactly the [fieldnames] of [save_products_to_csv], in order: at
    most nine main images and three detail images are written, into
    columns that already exist. *)
Theorem csv_row_keys (product csv : dict)
  (H : CsvExport.convert_product_to_csv_format product = inr csv) :
  map fst csv = CsvExport.fieldnames.
Proof. exact (csv_keys_gen product csv H). Qed.

Lemma csv_row_keys_witness :
  exists csv,
    CsvExport.convert_product_to_csv_format
      [("title", PStr "T");
       ("head_imgs", PList [PStr "1"; PStr "2"; PStr "3"; PStr "4"; PStr "5";
                            PStr "6"; PStr "7"; PStr "8"; PStr "9"; PStr "10"]);
       ("skus", PList [PDict [("price", PInt 100)]])] = inr csv /\
    map fst csv = CsvExport.fieldnames.
Proof.
  eexists.
  match goal with |- ?A /\ _ => assert (HA : A) by (vm_compute; reflexivity) end.
  split; [exact HA | exact (csv_row_keys _ _ HA)].
Defined.


Section ImportLemmas.

Lemma dict_get_set_images_other prefix imgs k dflt :
  (forall j, String.eqb (String.append prefix (CsvExport.digit j)) k = false) ->
  forall i0 csv,
  dict_get (CsvExport.set_images prefix i0 imgs csv) k dflt = dict_get csv k dflt.
Proof.
  intros Hne. induction imgs as [|img rest IH]; intros i0 csv; cbn [CsvExport.set_images];
    [reflexivity|].
  rewrite IH, dict_get_set, Hne. reflexivity.
Qed.

Ltac import_step H :=
  match type of H with
  | context [CsvExport.sbind ?r _] =>
      lazymatch r with
      | CsvExport.sbind _ _ => fail
      | inr _ => fail
      | inl _ => fail
      | _ => let E := fresh "E" in
             destruct r eqn:E; cbn [CsvExport.sbind] in H; try discriminate H
      end
  end.

Lemma csv_reimport_gen py_strip py_int csv_row product s1 s2 s3 :
  CsvImport.convert_csv_to_product_format py_strip py_int csv_row = inr product ->
  CsvImport.strip_v py_strip (dict_get csv_row "一级类目ID" (PStr "")) = inr s1 ->
  CsvImport.strip_v py_strip (dict_get csv_row "二级类目ID" (PStr "")) = inr s2 ->
  CsvImport.strip_v py_strip (dict_get csv_row "三级类目ID" (PStr "")) = inr s3 ->
  let cs := filter (fun c => negb (String.eqb c "")) [s1; s2; s3] in
  exists csv,
    CsvExport.convert_product_to_csv_format product = inr csv /\
    dict_get csv "一级类目ID" PNone = PStr (nth 0 cs "") /\
    dict_get csv "二级类目ID" PNone = PStr (nth 1 cs "") /\
    dict_get csv "三级类目ID" PNone = PStr (nth 2 cs "").
Proof.
  intros H H1 H2 H3 cs. subst cs.
  unfold CsvImport.convert_csv_to_product_format in H.
  import_step H. import_step H. import_step H.
  cbn [CsvImport.collect] in E1. rewrite H1, H2, H3 in E1. cbn [CsvExport.sbind] in E1.
  injection E1 as <-.
  import_step H. import_step H. import_step H. import_step H. import_step H.
  revert H. destruct (negb (String.eqb s "") || negb (String.eqb s0 "")) eqn:Ep; intros H.
  all: repeat (cbn [CsvExport.sbind] in H; import_step H);
    cbn [CsvExport.sbind] in H; injection H as <-; cbn [filter].
  all: destruct (String.eqb s1 ""), (String.eqb s2 ""), (String.eqb s3 ""),
      (String.eqb s4 ""); cbn [negb nth].
  all: unfold CsvExport.convert_product_to_csv_format;
    cbn -[CsvExport.set_images Client.dict_set]; eexists; split; [reflexivity|].
  all: rewrite ?dict_get_set; cbn -[CsvExport.set_images Client.dict_set].
  all: rewrite !dict_get_set_images_other by (intros; reflexivity).
  all: cbn; repeat split.
Qed.

End ImportLemmas.

Section InitLemmas.

Lemma has_key_of_get d k s : dict_get d k PNone = PStr s -> has_key d k = true.
Proof.
  induction d as [|[k0 v0] rest IH]; [discriminate|].
  rewrite dict_get_cons, has_key_cons. destruct (String.eqb k0 k); [reflexivity|exact IH].
Qed.

Lemma dict_get_default d k d1 d2 : has_key d k = true -> dict_get d k d1 = dict_get d k d2.
Proof.
  induction d as [|[k0 v0] rest IH]; [discriminate|].
  rewrite !dict_get_cons, has_key_cons. destruct (String.eqb k0 k); [reflexivity|exact IH].
Qed.

Lemma empty_appid_gen W config_api fallback_api environ :
  NoDup (map fst config_api) ->
  dict_get config_api "appid" PNone = PStr "" ->
  has_key config_api "appsecret" = true ->
  ClientInit.env_set environ "WECHAT_APPID" = false ->
  exists client,
    ClientInit._initialize_api_client W config_api fallback_api = inr (Some client) /\
    dict_get client "appid" PNone = PStr "" /\
    ClientInit._check_config environ client = false.
Proof.
  intros Hnd Happ Hsec Henv.
  pose proof (has_key_of_get _ _ _ Happ) as Hk.
  assert (Ht : truthy (PDict config_api) = true).
  { destruct config_api; [discriminate|reflexivity]. }
  unfold ClientInit._initialize_api_client. rewrite Ht. cbn [filter]. rewrite Hk, Hsec.
  cbn [negb]. eexists. split; [reflexivity|].
  unfold ClientInit.client_api_config. rewrite Ht.
  rewrite (dict_get_default _ _ (PStr "") PNone Hk), Happ. cbn [truthy negb String.eqb].
  assert (Hg : dict_get (ApiConfig.dict_update W config_api) "appid" PNone = PStr "").
  { rewrite dict_get_update by exact Hnd. rewrite Hk. exact Happ. }
  assert (Hc : forall c, dict_get c "appid" PNone = PStr "" ->
            dict_get c "appid" PNone = PStr "" /\ ClientInit._check_config environ c = false).
  { intros c Hc. split; [exact Hc|]. unfold ClientInit._check_config. cbn [ClientInit.check_loop].
    cbn [String.eqb Ascii.eqb Bool.eqb andb]. rewrite Henv. cbn [andb].
    destruct (truthy (dict_get c "api_base_url" PNone)); [|reflexivity].
    cbn [negb]. rewrite Hc. reflexivity. }
  apply Hc. destruct (truthy (dict_get config_api "appsecret" (PStr ""))); [|exact Hg].
  rewrite dict_get_set. exact Hg.
Qed.

End InitLemmas.

(** Exporting a product read from a CSV row moves its categories up: the
    category cells that are blank after stripping are dropped on import, so
    the re-exported row holds the non-blank ones in the first category
    columns and leaves the last ones empty.  The export of an imported
    product never raises. *)
Theorem csv_reimport_moves_categories (py_strip : string -> string)
  (py_int : string -> py_exc + Z) (csv_row product : dict) (s1 s2 s3 : string)
  (H : CsvImport.convert_csv_to_product_format py_strip py_int csv_row = inr product)
  (H1 : CsvImport.strip_v py_strip (dict_get csv_row "一级类目ID" (PStr "")) = inr s1)
  (H2 : CsvImport.strip_v py_strip (dict_get csv_row "二级类目ID" (PStr "")) = inr s2)
  (H3 : CsvImport.strip_v py_strip (dict_get csv_row "三级类目ID" (PStr "")) = inr s3) :
  let cs := filter (fun c => negb (String.eqb c "")) [s1; s2; s3] in
  exists csv,
    CsvExport.convert_product_to_csv_format product = inr csv /\
    dict_get csv "一级类目ID" PNone = PStr (nth 0 cs "") /\
    dict_get csv "二级类目ID" PNone = PStr (nth 1 cs "") /\
    dict_get csv "三级类目ID" PNone = PStr (nth 2 cs "").
Proof. exact (csv_reimport_gen py_strip py_int csv_row product s1 s2 s3 H H1 H2 H3). Qed.

Lemma csv_reimport_moves_categories_witness :
  exists product csv,
    CsvImport.convert_csv_to_product_format (fun s => s)
      (fun s => if String.eqb s "0" then inr 0%Z else inl ValueError)
      [("商品标题", PStr "T"); ("一级类目ID", PStr ""); ("二级类目ID", PStr "1001");
       ("三级类目ID", PStr "2002")] = inr product /\
    CsvExport.convert_product_to_csv_format product = inr csv /\
    dict_get csv "一级类目ID" PNone = PStr "1001" /\
    dict_get csv "二级类目ID" PNone = PStr "2002" /\
    dict_get csv "三级类目ID" PNone = PStr "".
Proof.
  eexists.
  match goal with |- exists csv, ?A /\ _ => assert (HA : A) by (vm_compute; reflexivity) end.
  destruct (csv_reimport_moves_categories (fun s => s)
              (fun s => if String.eqb s "0" then inr 0%Z else inl ValueError)
              _ _ "" "1001" "2002" HA eq_refl eq_refl eq_refl)
    as [csv [Hc [Ha [Hb Hd]]]].
  exists csv. split; [exact HA|]. split; [exact Hc|]. split; [exact Ha|]. split; [exact Hb|].
  exact Hd.
Defined.

(** When the uploader's API config has an empty ["appid"] (what
    [get_config_value('wechat_shop.app_id', '')] gives when that key is not
    set), the client it builds has an empty ["appid"] whatever the module
    configuration holds, fails [_check_config] unless [WECHAT_APPID] is set,
    and a freshly built client returns [None] from
    [_refresh_access_token] without requesting a token. *)
Theorem empty_appid_blocks_token (WECHAT_API_CONFIG config_api fallback_api : dict)
  (environ : string -> option string) (t : string) (now_check now_resp : Z)
  (auth : Token.auth_res)
  (Hnd : NoDup (map fst config_api))
  (Happ : dict_get config_api "appid" PNone = PStr "")
  (Hsec : has_key config_api "appsecret" = true)
  (Henv : ClientInit.env_set environ "WECHAT_APPID" = false)
  (Hnow : (0 <= now_check)%Z) :
  exists client,
    ClientInit._initialize_api_client WECHAT_API_CONFIG config_api fallback_api
      = inr (Some client) /\
    dict_get client "appid" PNone = PStr "" /\
    ClientInit._check_config environ client = false /\
    Token._refresh_access_token (ClientInit._check_config environ client) now_check now_resp
      auth {| Token.access_token := t; Token.token_expire_time := 0 |} =
      (None, {| Token.access_token := t; Token.token_expire_time := 0 |}, false).
Proof.
  destruct (empty_appid_gen WECHAT_API_CONFIG config_api fallback_api environ Hnd Happ Hsec Henv)
    as [client [Hi [Ha Hc]]].
  exists client. split; [exact Hi|]. split; [exact Ha|]. split; [exact Hc|].
  rewrite Hc. unfold Token._refresh_access_token, Token.refresh_check. cbn [Token.token_expire_time].
  replace (now_check <? 0)%Z with false by (symmetry; apply Z.ltb_ge; exact Hnow).
  rewrite andb_false_r. reflexivity.
Qed.

Lemma empty_appid_blocks_token_witness :
  exists client,
    ClientInit._initialize_api_client
      [("api_base_url", PStr "https://api.weixin.qq.com"); ("access_token", PStr "");
       ("appid", PStr "wx0123456789"); ("appsecret", PStr "secret"); ("timeout", PInt 30)]
      [("appid", PStr ""); ("appsecret", PStr "");
       ("api_base_url", PStr "https://api.weixin.qq.com")] []
      = inr (Some client) /\
    dict_get client "appid" PNone = PStr "" /\
    ClientInit._check_config (fun _ => None) client = false /\
    Token._refresh_access_token (ClientInit._check_config (fun _ => None) client)
      1700000000 1700000001 Token.AuthExc
      {| Token.access_token := ""; Token.token_expire_time := 0 |} =
      (None, {| Token.access_token := ""; Token.token_expire_time := 0 |}, false).
Proof.
  apply empty_appid_blocks_token.
  - repeat constructor; cbn; intuition discriminate.
  - reflexivity.
  - reflexivity.
  - reflexivity.
  - lia.
Defined.

Section CsvBatchLemmas.
Import Client.

Ltac import_step' H :=
  match type of H with
  | context [CsvExport.sbind ?r _] =>
      lazymatch r with
      | CsvExport.sbind _ _ => fail
      | inr _ => fail
      | inl _ => fail
      | _ => let E := fresh "E" in
             destruct r eqn:E; cbn [CsvExport.sbind] in H; try discriminate H
      end
  end.

Lemma csv_product_shape_of py_strip py_int row p :
  CsvImport.convert_csv_to_product_format py_strip py_int row = inr p -> CsvBatch.csv_product_shape p.
Proof.
  intros H. unfold CsvImport.convert_csv_to_product_format in H.
  repeat (cbn [CsvExport.sbind] in H; import_step' H).
  cbn [CsvExport.sbind] in H. injection H as <-.
  split; [reflexivity|split; reflexivity].
Qed.

Lemma convert_rows_shape py_strip py_int rows ps :
  CsvBatch.convert_rows py_strip py_int rows = inr ps ->
  List.length ps = List.length rows /\ Forall CsvBatch.csv_product_shape ps.
Proof.
  revert ps. induction rows as [|row rest IH]; intros ps H; cbn [CsvBatch.convert_rows] in H.
  - injection H as <-. split; [reflexivity|constructor].
  - destruct (CsvImport.convert_csv_to_product_format py_strip py_int row) as [|p] eqn:Ep;
      cbn [CsvExport.sbind] in H; [discriminate H|].
    destruct (CsvBatch.convert_rows py_strip py_int rest) as [|ps'];
      cbn [CsvExport.sbind] in H; [discriminate H|].
    injection H as <-. destruct (IH ps' eq_refl) as [Hl Hf].
    split; [cbn; rewrite Hl; reflexivity|].
    constructor; [exact (csv_product_shape_of _ _ _ _ Ep)|exact Hf].
Qed.

Lemma store_products_fields oid ps : forall s,
  hist (CsvBatch.store_products oid ps s) = hist s /\
  n_tok (CsvBatch.store_products oid ps s) = n_tok s /\
  n_http (CsvBatch.store_products oid ps s) = n_http s.
Proof.
  revert oid. induction ps as [|p rest IH]; intros oid s; cbn [CsvBatch.store_products];
    [repeat split|].
  destruct (IH (S oid) (set_heap s oid p)) as [H1 [H2 H3]].
  rewrite H1, H2, H3. repeat split.
Qed.

Lemma store_products_heap oid ps : forall s k,
  k < List.length ps ->
  heap (CsvBatch.store_products oid ps s) (oid + k) = nth k ps [].
Proof.
  revert oid. induction ps as [|p rest IH]; intros oid s k Hk; [cbn in Hk; lia|].
  cbn [CsvBatch.store_products].
  destruct k as [|k].
  - rewrite Nat.add_0_r.
    assert (Hkeep : forall ps' o s', o > oid ->
              heap (CsvBatch.store_products o ps' s') oid = heap s' oid).
    { induction ps' as [|p' rest' IH']; intros o s' Ho; [reflexivity|].
      cbn [CsvBatch.store_products]. rewrite IH' by lia. cbn [heap set_heap].
      destruct (Nat.eqb_spec oid o); [lia|reflexivity]. }
    rewrite Hkeep by lia. cbn [heap set_heap]. rewrite Nat.eqb_refl. reflexivity.
  - replace (oid + S k) with (S oid + k) by lia.
    apply IH. cbn in Hk. lia.
Qed.

Lemma batch_item_missing env i oid c s :
  CsvBatch.csv_product_shape (heap s oid) ->
  batch_item env i (IDict oid) c s = (s, Ret (add_error c (CsvBatch.missing_name_entry i))).
Proof.
  intros [Hm [Hf Hp]].
  unfold batch_item, add_product, index_on, get_on, cbind, cget, cput, cret, clift.
  rewrite Hm. cbn -[dict_get has_key missing_field]. rewrite Hf.
  cbn -[dict_get has_key missing_field]. rewrite Hp. reflexivity.
Qed.

Lemma batch_loop_missing env oids : forall i c s,
  (forall o, In o oids -> CsvBatch.csv_product_shape (heap s o)) ->
  batch_loop env i (map IDict oids) c s =
    (s, ({| success_count := success_count c;
            error_count := error_count c + List.length oids;
            error_list := List.app (error_list c)
                            (map CsvBatch.missing_name_entry (seq i (List.length oids))) |}, None)).
Proof.
  induction oids as [|o rest IH]; intros i c s Hs; cbn [map batch_loop].
  - rewrite Nat.add_0_r, app_nil_r. destruct c; reflexivity.
  - rewrite batch_item_missing by (apply Hs; left; reflexivity).
    rewrite IH by (intros o' Ho'; apply Hs; right; exact Ho').
    cbn [add_error success_count error_count error_list List.length seq map].
    rewrite <- app_assoc. cbn [List.app].
    replace (S (error_count c) + List.length rest) with (error_count c + S (List.length rest))
      by lia.
    reflexivity.
Qed.

Lemma csv_batch_gen env py_strip py_int csv_file rs base s ps :
  path_exists env csv_file = inr true ->
  CsvBatch.convert_rows py_strip py_int rs = inr ps -> ps <> [] ->
  exists s',
    CsvBatch.batch_upload_products env py_strip py_int csv_file (inr rs) base s =
      (s', Ret (batch_report (List.length ps)
                 {| success_count := 0; error_count := List.length ps;
                    error_list := map CsvBatch.missing_name_entry (seq 1 (List.length ps)) |})) /\
    n_http s' = n_http s /\ n_tok s' = n_tok s.
Proof.
  intros He Hc Hne.
  destruct (convert_rows_shape _ _ _ _ Hc) as [_ Hf].
  unfold CsvBatch.batch_upload_products, CsvBatch.load_products_from_csv.
  cbv beta iota delta [cbind clift cret cget cput]. rewrite He. cbn [negb]. rewrite Hc.
  destruct ps as [|p ps']; [congruence|].
  set (ps := p :: ps'). set (s1 := CsvBatch.store_products base ps s).
  unfold batch_upload_products_from_data.
  destruct (map IDict (seq base (List.length ps))) as [|o0 os] eqn:Eseq;
    [subst ps; cbn in Eseq; discriminate|].
  rewrite <- Eseq. clear o0 os Eseq.
  rewrite (batch_loop_missing env (seq base (List.length ps)) 1
             {| success_count := 0; error_count := 0; error_list := [] |} s1).
  - rewrite !length_map, !length_seq. cbn [success_count error_count error_list List.app Nat.add].
    unfold append_history, cbind, cget, cput, cret. eexists. split; [reflexivity|].
    destruct (store_products_fields base ps s) as [_ [H2 H3]].
    cbn [n_http n_tok set_hist]. subst s1. split; assumption.
  - intros o Ho. apply in_seq in Ho. subst s1.
    replace o with (base + (o - base)) by lia.
    rewrite store_products_heap by lia.
    apply Forall_nth; [exact Hf|lia].
Qed.

End CsvBatchLemmas.

(** [batch_upload_products] never uploads a product read from a CSV file:
    [convert_csv_to_product_format] builds products without
    ["product_name"], so [add_product] rejects every one of them before any
    request.  The report counts no success and one error per row, each
    naming the missing ["product_name"], and no token or HTTP request is
    made. *)
Theorem csv_batch_uploads_nothing (env : Client.Env) (py_strip : string -> string)
  (py_int : string -> py_exc + Z) (csv_file : pyval) (rows : list dict) (base : nat)
  (s : Client.CState) (products : list dict)
  (He : Client.path_exists env csv_file = inr true)
  (Hc : CsvBatch.convert_rows py_strip py_int rows = inr products)
  (Hne : products <> []) :
  exists s',
    CsvBatch.batch_upload_products env py_strip py_int csv_file (inr rows) base s =
      (s', Ret (Client.batch_report (List.length products)
                 {| Client.success_count := 0; Client.error_count := List.length products;
                    Client.error_list :=
                      map CsvBatch.missing_name_entry (seq 1 (List.length products)) |})) /\
    Client.n_http s' = Client.n_http s /\ Client.n_tok s' = Client.n_tok s.
Proof. exact (csv_batch_gen env py_strip py_int csv_file rows base s products He Hc Hne). Qed.

Lemma csv_batch_uploads_nothing_witness :
  exists products s',
    CsvBatch.convert_rows (fun x => x)
      (fun x => if String.eqb x "0" then inr 0%Z else inl ValueError)
      [[("商品标题", PStr "T")]; [("商品标题", PStr "U"); ("SKU价格(分)", PStr "0")]]
      = inr products /\
    CsvBatch.batch_upload_products image_env (fun x => x)
      (fun x => if String.eqb x "0" then inr 0%Z else inl ValueError) (PStr "goods.csv")
      (inr [[("商品标题", PStr "T")]; [("商品标题", PStr "U"); ("SKU价格(分)", PStr "0")]])
      0 (Client.fresh_client (fun _ => [])) =
      (s', Ret (Client.batch_report 2
                 {| Client.success_count := 0; Client.error_count := 2;
                    Client.error_list :=
                      [CsvBatch.missing_name_entry 1; CsvBatch.missing_name_entry 2] |})) /\
    Client.n_http s' = 0.
Proof.
  eexists.
  match goal with |- exists s', ?A /\ _ => assert (HA : A) by (vm_compute; reflexivity) end.
  destruct (csv_batch_uploads_nothing image_env (fun x => x)
              (fun x => if String.eqb x "0" then inr 0%Z else inl ValueError)
              (PStr "goods.csv") _ 0 (Client.fresh_client (fun _ => [])) _
              eq_refl HA ltac:(discriminate)) as [s' [Hb [Hh _]]].
  exists s'. split; [exact HA|]. split; [exact Hb|]. exact Hh.
Defined.
